(** * Vehicle telematics firmware: record buffer, CRC engine, NMEA parser,
      power state machine, and the CAN, ADC and GPS drivers

    A shallow embedding of the C sources under [telematics-firmware/] and the
    properties of its specification.

    - Unsigned C integers are [Z] values with the wrap-around of their width
      written out ([u8], [u16], [u32]).
    - Module-level C statics become fields of an explicit state record that
      every operation takes and returns.
    - C strings are [string]s read up to their first NUL character.
    - [float] and [double] values are the rationals they denote, every
      operation rounding its exact result to the nearest value of its
      format, ties to even.

    The first part holds the model, the second part the proofs. *)

From Stdlib Require Import ZArith List Bool Lia Ascii String.
From Stdlib Require Import QArith Qabs Qround Qpower Qreduction Lqa.
Import ListNotations.

Local Open Scope Z_scope.

(* ===================================================================== *)
(** * Part I: the model                                                   *)
(* ===================================================================== *)

(** ** Machine integers *)

Definition u8 (x : Z) : Z := x mod 2 ^ 8.
Definition u16 (x : Z) : Z := x mod 2 ^ 16.
Definition u32 (x : Z) : Z := x mod 2 ^ 32.

(** ** telemetry_types.h *)

Inductive StatusCode_t : Type :=
| STATUS_OK
| STATUS_ERROR
| STATUS_TIMEOUT
| STATUS_BUSY
| STATUS_INVALID_PARAM
| STATUS_NO_DATA
| STATUS_BUFFER_FULL
| STATUS_NOT_INITIALIZED
| STATUS_HARDWARE_ERROR.

(** The packed record.  The four-byte [float] fields are carried as their
    bit patterns: the buffer only ever copies records with [memcpy]. *)
Record TelemetryRecord_t : Type := mkRecord {
  timestamp : Z;        (* uint32_t *)
  speed : Z;            (* float, bit pattern *)
  battery_voltage : Z;  (* float, bit pattern *)
  latitude : Z;         (* float, bit pattern *)
  longitude : Z;        (* float, bit pattern *)
  altitude : Z;         (* float, bit pattern *)
  gps_satellites : Z;   (* uint8_t *)
  gps_fix_quality : Z;  (* uint8_t *)
  flags : Z;            (* uint8_t *)
  reserved : Z;         (* uint8_t *)
  crc16 : Z             (* uint16_t *)
}.

(** Little-endian bytes of a [w]-byte unsigned field. *)
Fixpoint le_bytes (w : nat) (x : Z) : list Z :=
  match w with
  | O => []
  | S w' => x mod 256 :: le_bytes w' (x / 256)
  end.

(** The object representation [memcpy] moves: the bytes of the fields in
    the order declared, no padding. *)
Definition record_bytes (r : TelemetryRecord_t) : list Z :=
  le_bytes 4 (timestamp r) ++ le_bytes 4 (speed r) ++
  le_bytes 4 (battery_voltage r) ++ le_bytes 4 (latitude r) ++
  le_bytes 4 (longitude r) ++ le_bytes 4 (altitude r) ++
  le_bytes 1 (gps_satellites r) ++ le_bytes 1 (gps_fix_quality r) ++
  le_bytes 1 (flags r) ++ le_bytes 1 (reserved r) ++
  le_bytes 2 (crc16 r).

Definition zero_record : TelemetryRecord_t :=
  mkRecord 0 0 0 0 0 0 0 0 0 0 0.

Inductive PowerMode_t : Type :=
| POWER_MODE_ACTIVE
| POWER_MODE_IDLE
| POWER_MODE_DEEP_SLEEP.

Inductive Component_t : Type :=
| COMPONENT_GPS
| COMPONENT_CAN
| COMPONENT_ADC
| COMPONENT_CELLULAR
| COMPONENT_LORAWAN
| COMPONENT_FLASH
| COMPONENT_POWER
| COMPONENT_WATCHDOG.

Inductive WakeSource_t : Type :=
| WAKE_SOURCE_RTC_ALARM
| WAKE_SOURCE_CAN_MESSAGE
| WAKE_SOURCE_EXTERNAL_INT
| WAKE_SOURCE_ADC_THRESHOLD
| WAKE_SOURCE_MOTION.

(** ** config.h *)

Definition TELEMETRY_BUFFER_SIZE : Z := 2048.

(** ** main.c: the CRC engine *)

(** One turn of the inner [for (j = 0; j < 8; j++)] loop. *)
Definition crc_shift (crc : Z) : Z :=
  if Z.land crc 0x8000 =? 0
  then u16 (Z.shiftl crc 1)
  else u16 (Z.lxor (Z.shiftl crc 1) 0x1021).

(** One turn of the outer loop: [crc ^= (uint16_t)data[i] << 8] and then
    the eight shifts. *)
Definition crc_byte (crc byte : Z) : Z :=
  Nat.iter 8 crc_shift (u16 (Z.lxor crc (Z.shiftl (u16 byte) 8))).

(** [Calculate_CRC16 data] is the C function applied to the [length] bytes
    [data[0..length)]. *)
Definition Calculate_CRC16 (data : list Z) : Z :=
  fold_left crc_byte data 0xFFFF.

(** The reference the specification names, CRC-16/CCITT-FALSE: a 16-bit
    register starting at 0xFFFF; the message is fed one bit at a time, most
    significant bit of each byte first; the bit leaving the register, xored
    with the message bit, decides whether polynomial 0x1021 is added; the
    register is the result, with no final xor. *)
Definition msb_first (byte : Z) : list bool :=
  map (Z.testbit byte) [7; 6; 5; 4; 3; 2; 1; 0].

Definition ccitt_bit (reg : Z) (b : bool) : Z :=
  let shifted := (2 * reg) mod 2 ^ 16 in
  if xorb (Z.testbit reg 15) b then Z.lxor shifted 0x1021 else shifted.

Definition crc16_ccitt_false (data : list Z) : Z :=
  fold_left ccitt_bit (flat_map msb_first data) 0xFFFF.

(** Flipping bit [k] of the byte at position [i]. *)
Fixpoint flip_bit (data : list Z) (i : nat) (k : Z) : list Z :=
  match data, i with
  | [], _ => []
  | b :: rest, O => Z.lxor b (Z.shiftl 1 k) :: rest
  | b :: rest, S i' => b :: flip_bit rest i' k
  end.

Definition is_byte (b : Z) : Prop := 0 <= b < 256.

(** Auxiliary notions of the CRC proofs: the feedback term (the polynomial
    when bit 15 is set), the way a register difference travels through the
    rest of the data, the bits of a byte not yet shifted out after [j]
    turns, and the [n] message bits that follow them. *)
Definition feedback (b : bool) : Z := if b then 0x1021 else 0.

Definition carry_diff (data : list Z) (d : Z) : Z :=
  fold_left (fun d (_ : Z) => Nat.iter 8 crc_shift (u16 d)) data d.

Definition pending (byte j : Z) : Z := u16 (Z.shiftl byte (8 + j)).

Fixpoint bits_from (byte j : Z) (n : nat) : list bool :=
  match n with
  | O => []
  | S n' => Z.testbit byte (7 - j) :: bits_from byte (j + 1) n'
  end.

(** ** circular_buffer.c: the record buffer

    The operations are modelled as the sequential code they are: the atomic
    loads, stores and read-modify-writes become plain reads and writes of
    the fields.  Pointer arguments are valid objects; the [NULL] tests that
    answer [STATUS_INVALID_PARAM] have no counterpart. *)

Record CircularBuffer_t : Type := mkBuffer {
  records : list TelemetryRecord_t;  (* TELEMETRY_BUFFER_SIZE slots *)
  write_index : Z;                   (* volatile uint32_t *)
  read_index : Z;                    (* volatile uint32_t *)
  count : Z;                         (* volatile uint32_t *)
  overflow_count : Z;                (* uint32_t *)
  initialized : bool
}.

(** Reading and writing one slot of a C array.  An index past the end, which
    is undefined in C, reads [zero_record] and writes nothing; the buffer
    operations never use one (lemma [run_ops_wf]). *)
Definition slot_get (rs : list TelemetryRecord_t) (i : Z) : TelemetryRecord_t :=
  nth (Z.to_nat i) rs zero_record.

Fixpoint store (rs : list TelemetryRecord_t) (i : nat) (r : TelemetryRecord_t)
  : list TelemetryRecord_t :=
  match rs, i with
  | [], _ => []
  | _ :: rest, O => r :: rest
  | x :: rest, S i' => x :: store rest i' r
  end.

Definition slot_set (rs : list TelemetryRecord_t) (i : Z) (r : TelemetryRecord_t)
  : list TelemetryRecord_t :=
  store rs (Z.to_nat i) r.

Definition CircularBuffer_Init (buffer : CircularBuffer_t)
  : StatusCode_t * CircularBuffer_t :=
  (* memset(buffer, 0, sizeof(CircularBuffer_t)), then the five stores *)
  (STATUS_OK,
   mkBuffer (repeat zero_record (Z.to_nat TELEMETRY_BUFFER_SIZE)) 0 0 0 0 true).

Definition CircularBuffer_Push (buffer : CircularBuffer_t)
  (record : TelemetryRecord_t) : StatusCode_t * CircularBuffer_t :=
  if negb (initialized buffer) then (STATUS_NOT_INITIALIZED, buffer) else
  let current_count := count buffer in
  let buffer :=
    if TELEMETRY_BUFFER_SIZE <=? current_count then
      (* full: count the overflow, drop the oldest record *)
      let overflow := u32 (overflow_count buffer + 1) in
      let old_read := read_index buffer in
      let new_read := u32 (old_read + 1) mod TELEMETRY_BUFFER_SIZE in
      mkBuffer (records buffer) (write_index buffer) new_read
               (u32 (count buffer - 1)) overflow (initialized buffer)
    else buffer in
  let write_idx := write_index buffer in
  let new_write_idx := u32 (write_idx + 1) mod TELEMETRY_BUFFER_SIZE in
  (STATUS_OK,
   mkBuffer (slot_set (records buffer) write_idx record) new_write_idx
            (read_index buffer) (u32 (count buffer + 1))
            (overflow_count buffer) (initialized buffer)).

(** [record] is the object the caller's pointer designates; the third
    component of the result is that object after the call. *)
Definition CircularBuffer_Pop (buffer : CircularBuffer_t)
  (record : TelemetryRecord_t)
  : StatusCode_t * CircularBuffer_t * TelemetryRecord_t :=
  if negb (initialized buffer) then (STATUS_NOT_INITIALIZED, buffer, record) else
  let current_count := count buffer in
  if current_count =? 0 then (STATUS_NO_DATA, buffer, record) else
  let read_idx := read_index buffer in
  let record := slot_get (records buffer) read_idx in
  let new_read_idx := u32 (read_idx + 1) mod TELEMETRY_BUFFER_SIZE in
  (STATUS_OK,
   mkBuffer (records buffer) (write_index buffer) new_read_idx
            (u32 (count buffer - 1)) (overflow_count buffer)
            (initialized buffer),
   record).

(** [CircularBuffer_Peek] takes a pointer to a [const] buffer; the model
    hands the buffer back so that the absence of any write is a statement
    about the function and not about its type. *)
Definition CircularBuffer_Peek (buffer : CircularBuffer_t)
  (record : TelemetryRecord_t) (offset : Z)
  : StatusCode_t * CircularBuffer_t * TelemetryRecord_t :=
  if negb (initialized buffer) then (STATUS_NOT_INITIALIZED, buffer, record) else
  let current_count := count buffer in
  if current_count <=? offset then (STATUS_NO_DATA, buffer, record) else
  let read_idx := read_index buffer in
  let peek_idx := u32 (read_idx + offset) mod TELEMETRY_BUFFER_SIZE in
  (STATUS_OK, buffer, slot_get (records buffer) peek_idx).

Definition CircularBuffer_GetCount (buffer : CircularBuffer_t) : Z :=
  if negb (initialized buffer) then 0 else count buffer.

Definition CircularBuffer_IsFull (buffer : CircularBuffer_t) : bool :=
  if negb (initialized buffer) then false
  else TELEMETRY_BUFFER_SIZE <=? count buffer.

Definition CircularBuffer_IsEmpty (buffer : CircularBuffer_t) : bool :=
  if negb (initialized buffer) then true else count buffer =? 0.

Definition CircularBuffer_GetUtilization (buffer : CircularBuffer_t) : Z :=
  if negb (initialized buffer) then 0
  else u8 (u32 (count buffer * 100) / TELEMETRY_BUFFER_SIZE).

Definition CircularBuffer_Clear (buffer : CircularBuffer_t)
  : StatusCode_t * CircularBuffer_t :=
  if negb (initialized buffer) then (STATUS_NOT_INITIALIZED, buffer) else
  (STATUS_OK,
   mkBuffer (records buffer) 0 0 0 (overflow_count buffer)
            (initialized buffer)).

Definition CircularBuffer_GetOverflowCount (buffer : CircularBuffer_t) : Z :=
  if negb (initialized buffer) then 0 else overflow_count buffer.

(** The loop of [CircularBuffer_PopBatch]: [remaining] is [max_count - i],
    the number of turns the loop condition still allows; [out] is the
    caller's array [records]. *)
Fixpoint pop_batch_loop (remaining : nat) (buffer : CircularBuffer_t)
  (out : list TelemetryRecord_t) (i : Z) (n : Z)
  : Z * CircularBuffer_t * list TelemetryRecord_t :=
  match remaining with
  | O => (n, buffer, out)
  | S remaining' =>
      match CircularBuffer_Pop buffer (slot_get out i) with
      | (STATUS_OK, buffer', r) =>
          pop_batch_loop remaining' buffer' (slot_set out i r) (i + 1) (n + 1)
      | (_, buffer', _) => (n, buffer', out)
      end
  end.

Definition CircularBuffer_PopBatch (buffer : CircularBuffer_t)
  (out : list TelemetryRecord_t) (max_count : Z)
  : Z * CircularBuffer_t * list TelemetryRecord_t :=
  if max_count =? 0 then (0, buffer, out) else
  if negb (initialized buffer) then (0, buffer, out) else
  pop_batch_loop (Z.to_nat max_count) buffer out 0 0.

(** The caller's array after the records [rs] have been copied to its slots
    [i], [i + 1], ... in turn. *)
Fixpoint write_out (out : list TelemetryRecord_t) (i : Z)
  (rs : list TelemetryRecord_t) : list TelemetryRecord_t :=
  match rs with
  | [] => out
  | r :: rs' => write_out (slot_set out i r) (i + 1) rs'
  end.

(** Sequences of operations on a buffer. *)
Inductive BufferOp : Type :=
| OpInit
| OpPush (record : TelemetryRecord_t)
| OpPop
| OpPeek (offset : Z)
| OpPopBatch (out : list TelemetryRecord_t) (max_count : Z)
| OpClear.

Definition apply_op (buffer : CircularBuffer_t) (op : BufferOp)
  : CircularBuffer_t :=
  match op with
  | OpInit => snd (CircularBuffer_Init buffer)
  | OpPush record => snd (CircularBuffer_Push buffer record)
  | OpPop => snd (fst (CircularBuffer_Pop buffer zero_record))
  | OpPeek offset => snd (fst (CircularBuffer_Peek buffer zero_record offset))
  | OpPopBatch out max_count =>
      snd (fst (CircularBuffer_PopBatch buffer out max_count))
  | OpClear => snd (CircularBuffer_Clear buffer)
  end.

Definition run_ops (ops : list BufferOp) (buffer : CircularBuffer_t)
  : CircularBuffer_t :=
  fold_left apply_op ops buffer.

(** The buffers a program can hold after [CircularBuffer_Init]. *)
Definition initialized_buffer (b : CircularBuffer_t) : Prop :=
  exists raw ops, b = run_ops ops (snd (CircularBuffer_Init raw)).

(** The records a buffer holds, oldest first. *)
Definition contents (b : CircularBuffer_t) : list TelemetryRecord_t :=
  map (fun k => slot_get (records b)
                  ((read_index b + Z.of_nat k) mod TELEMETRY_BUFFER_SIZE))
      (seq 0 (Z.to_nat (count b))).

(** The representation invariant of the buffer. *)
Record buffer_wf (b : CircularBuffer_t) : Prop := mkWf {
  wf_init : initialized b = true;
  wf_len : Z.of_nat (List.length (records b)) = TELEMETRY_BUFFER_SIZE;
  wf_read : 0 <= read_index b < TELEMETRY_BUFFER_SIZE;
  wf_count : 0 <= count b <= TELEMETRY_BUFFER_SIZE;
  wf_write :
    write_index b = (read_index b + count b) mod TELEMETRY_BUFFER_SIZE;
  wf_overflow : 0 <= overflow_count b < 2 ^ 32
}.

(** Sample buffers: storage as it may be before [CircularBuffer_Init],
    records told apart by their time stamp, the buffer after
    initialisation, a buffer holding three records and a buffer filled to
    capacity. *)
Definition raw_buffer : CircularBuffer_t := mkBuffer [] 7 9 11 13 false.

Definition sample_record (t : Z) : TelemetryRecord_t :=
  mkRecord t 0 0 0 0 0 8 1 7 0 0xBEEF.

Definition push_ops (n : nat) : list BufferOp :=
  map (fun k => OpPush (sample_record (Z.of_nat k))) (seq 0 n).

Definition fresh_buffer : CircularBuffer_t :=
  snd (CircularBuffer_Init raw_buffer).

Definition three_buffer : CircularBuffer_t := run_ops (push_ops 3) fresh_buffer.

Definition full_buffer : CircularBuffer_t := run_ops (push_ops 2048) fresh_buffer.

(** ** Floating point

    A finite [float] or [double] is the rational number it denotes.  An
    arithmetic operation computes the exact rational result and rounds it to
    the format, to nearest with ties to even, as the hardware of the target
    does ([FLT_EVAL_METHOD] 0).  [None] stands for a computation that has
    left the finite numbers (overflow, division by zero): the model does not
    follow it further.  The two zeros are not told apart. *)

Record float_format : Type := mkFormat {
  prec : Z;   (* bits of the significand *)
  emin : Z;   (* exponent of the smallest normal number *)
  emax : Z    (* 2 ^ emax is the first magnitude that overflows *)
}.

Definition binary32 : float_format := mkFormat 24 (-126) 128.
Definition binary64 : float_format := mkFormat 53 (-1022) 1024.

Definition pow2 (e : Z) : Q := (2 ^ e)%Q.

(** The exponent of the leading bit: [2 ^ ilog2 q <= |q| < 2 ^ (ilog2 q + 1)]
    for [q] other than 0. *)
Definition ilog2 (q : Q) : Z :=
  let e := Z.log2 (Z.abs (Qnum q)) - Z.log2 (Zpos (Qden q)) in
  if Qle_bool (pow2 e) (Qabs q) then e else e - 1.

(** The integer nearest to [x], the even one of the two at a tie. *)
Definition round_ne (x : Q) : Z :=
  let f := Qfloor x in
  match (x - inject_Z f ?= 1 # 2)%Q with
  | Lt => f
  | Gt => f + 1
  | Eq => if Z.even f then f else f + 1
  end.

(** Rounding to a format: the significand is cut at [prec] bits below the
    leading bit, or at the fixed position of the subnormal numbers. *)
Definition round_to (fmt : float_format) (q : Q) : option Q :=
  let e := Z.max (ilog2 q) (emin fmt) in
  let sh := e - prec fmt + 1 in
  let r := (inject_Z (round_ne (q * pow2 (- sh))) * pow2 sh)%Q in
  if Qle_bool (pow2 (emax fmt)) (Qabs r) then None else Some (Qred r).

Definition float : Type := option Q.

Definition lift2 (fmt : float_format) (op : Q -> Q -> Q) (a b : float) : float :=
  match a, b with
  | Some x, Some y => round_to fmt (op x y)
  | _, _ => None
  end.

Definition f32_add : float -> float -> float := lift2 binary32 Qplus.
Definition f32_sub : float -> float -> float := lift2 binary32 Qminus.
Definition f32_mul : float -> float -> float := lift2 binary32 Qmult.
Definition f64_mul : float -> float -> float := lift2 binary64 Qmult.

Definition f32_div (a b : float) : float :=
  match a, b with
  | Some x, Some y => if Qeq_bool y 0 then None else round_to binary32 (x / y)
  | _, _ => None
  end.

Definition f32_neg (a : float) : float :=
  match a with
  | Some x => Some (- x)%Q
  | None => None
  end.

(** Conversions: an integer to [float], a [double] to [float], and a
    floating value to an integer, which drops the fraction. *)
Definition f32_of_Z (n : Z) : float := round_to binary32 (inject_Z n).

Definition f32_of_f64 (a : float) : float :=
  match a with
  | Some x => round_to binary32 x
  | None => None
  end.

Definition Qtrunc (x : Q) : Z := Z.quot (Qnum x) (Zpos (Qden x)).

(** ** power_manager.c: the power state machine

    The statics of the file are the fields of [PowerManager].  The power-state
    functions of the CAN, GPS and ADC drivers are collaborators: a call to
    one is recorded, in order, in [driver_calls]; its status is not followed,
    as [Power_ApplyPeripheralStates] drops it. *)

Record PeripheralState_t : Type := mkPeripherals {
  can_enabled : bool;
  gps_enabled : bool;
  cellular_enabled : bool;
  lorawan_enabled : bool;
  flash_enabled : bool
}.

Inductive DriverCall : Type :=
| SetPowerState (component : Component_t) (enable : bool).

Record PowerManager : Type := mkPower {
  current_mode : PowerMode_t;
  previous_mode : PowerMode_t;
  power_initialized : bool;
  idle_timeout_ms : Z;           (* uint32_t *)
  last_activity_time : Z;        (* uint32_t *)
  mode_entry_time : Z;           (* uint32_t *)
  time_active_ms : Z;            (* uint32_t *)
  time_idle_ms : Z;              (* uint32_t *)
  time_sleep_ms : Z;             (* uint32_t *)
  cumulative_energy_mah : float;
  last_energy_update_time : Z;   (* uint32_t *)
  wake_callbacks : list bool;    (* five slots; [true]: a callback is set *)
  peripheral_configs : PowerMode_t -> PeripheralState_t;
  driver_calls : list DriverCall
}.

Definition CURRENT_ACTIVE_MA : float := Some 45%Q.
Definition CURRENT_IDLE_MA : float := Some 8%Q.
Definition CURRENT_DEEP_SLEEP_UA : float := Some (5 # 2)%Q.
Definition IDLE_TIMEOUT_MS : Z := 30000.

(** The initialisers of the statics. *)
Definition default_peripheral_configs (mode : PowerMode_t) : PeripheralState_t :=
  match mode with
  | POWER_MODE_ACTIVE => mkPeripherals true true true true true
  | POWER_MODE_IDLE => mkPeripherals true false false false false
  | POWER_MODE_DEEP_SLEEP => mkPeripherals false false false false false
  end.

Definition power_statics : PowerManager :=
  mkPower POWER_MODE_ACTIVE POWER_MODE_ACTIVE false IDLE_TIMEOUT_MS 0 0 0 0 0
          (Some 0%Q) 0 [false; false; false; false; false]
          default_peripheral_configs [].

Definition Power_Init (st : PowerManager) : StatusCode_t * PowerManager :=
  if power_initialized st then (STATUS_OK, st) else
  let last_activity := 0 in  (* TODO: Get current system time *)
  (STATUS_OK,
   mkPower POWER_MODE_ACTIVE (previous_mode st) true (idle_timeout_ms st)
           last_activity last_activity 0 0 0 (Some 0%Q) last_activity
           (wake_callbacks st) (peripheral_configs st) (driver_calls st)).

Definition Power_GetMode (st : PowerManager) : PowerMode_t := current_mode st.

Definition Power_GetCurrentConsumption (st : PowerManager) : float :=
  match current_mode st with
  | POWER_MODE_ACTIVE => CURRENT_ACTIVE_MA
  | POWER_MODE_IDLE => CURRENT_IDLE_MA
  | POWER_MODE_DEEP_SLEEP => f32_div CURRENT_DEEP_SLEEP_UA (Some 1000%Q)
  end.

Definition Power_UpdateEnergyConsumption (st : PowerManager) : PowerManager :=
  let current_time := 0 in  (* TODO: Get current system time *)
  let elapsed_ms := u32 (current_time - last_energy_update_time st) in
  if elapsed_ms =? 0 then st else
  let current_ma := Power_GetCurrentConsumption st in
  let energy_mah :=
    f32_div (f32_mul current_ma (f32_of_Z elapsed_ms)) (Some 3600000%Q) in
  mkPower (current_mode st) (previous_mode st) (power_initialized st)
          (idle_timeout_ms st) (last_activity_time st) (mode_entry_time st)
          (time_active_ms st) (time_idle_ms st) (time_sleep_ms st)
          (f32_add (cumulative_energy_mah st) energy_mah) current_time
          (wake_callbacks st) (peripheral_configs st) (driver_calls st).

Definition Power_GetEnergyConsumption (st : PowerManager)
  : float * PowerManager :=
  let st := Power_UpdateEnergyConsumption st in
  (cumulative_energy_mah st, st).

Definition record_call (c : DriverCall) (st : PowerManager) : PowerManager :=
  mkPower (current_mode st) (previous_mode st) (power_initialized st)
          (idle_timeout_ms st) (last_activity_time st) (mode_entry_time st)
          (time_active_ms st) (time_idle_ms st) (time_sleep_ms st)
          (cumulative_energy_mah st) (last_energy_update_time st)
          (wake_callbacks st) (peripheral_configs st) (driver_calls st ++ [c]).

Definition Power_SetPeripheralState (component : Component_t) (enable : bool)
  (st : PowerManager) : PowerManager :=
  if negb (power_initialized st) then st else
  match component with
  | COMPONENT_CAN | COMPONENT_GPS | COMPONENT_ADC =>
      record_call (SetPowerState component enable) st
  | _ => st
  end.

Definition Power_ApplyPeripheralStates (states : PeripheralState_t)
  (st : PowerManager) : PowerManager :=
  let st := Power_SetPeripheralState COMPONENT_CAN (can_enabled states) st in
  Power_SetPeripheralState COMPONENT_GPS (gps_enabled states) st.

(** Nothing but comments in the source. *)
Definition Power_ConfigureWakeSources (mode : PowerMode_t) (st : PowerManager)
  : PowerManager := st.

Definition with_times (st : PowerManager) (active idle sleep : Z)
  : PowerManager :=
  mkPower (current_mode st) (previous_mode st) (power_initialized st)
          (idle_timeout_ms st) (last_activity_time st) (mode_entry_time st)
          active idle sleep
          (cumulative_energy_mah st) (last_energy_update_time st)
          (wake_callbacks st) (peripheral_configs st) (driver_calls st).

(** The [switch (current_mode)] that adds [time_in_mode] to the counter of
    the mode being left. *)
Definition add_dwell (st : PowerManager) (time_in_mode : Z) : PowerManager :=
  match current_mode st with
  | POWER_MODE_ACTIVE =>
      with_times st (u32 (time_active_ms st + time_in_mode))
                 (time_idle_ms st) (time_sleep_ms st)
  | POWER_MODE_IDLE =>
      with_times st (time_active_ms st)
                 (u32 (time_idle_ms st + time_in_mode)) (time_sleep_ms st)
  | POWER_MODE_DEEP_SLEEP =>
      with_times st (time_active_ms st) (time_idle_ms st)
                 (u32 (time_sleep_ms st + time_in_mode))
  end.

Definition PowerMode_eqb (a b : PowerMode_t) : bool :=
  match a, b with
  | POWER_MODE_ACTIVE, POWER_MODE_ACTIVE
  | POWER_MODE_IDLE, POWER_MODE_IDLE
  | POWER_MODE_DEEP_SLEEP, POWER_MODE_DEEP_SLEEP => true
  | _, _ => false
  end.

Definition Power_SetMode (mode : PowerMode_t) (st : PowerManager)
  : StatusCode_t * PowerManager :=
  if negb (power_initialized st) then (STATUS_NOT_INITIALIZED, st) else
  if PowerMode_eqb mode (current_mode st) then (STATUS_OK, st) else
  (* Update time statistics for previous mode *)
  let current_time := 0 in  (* TODO: Get current system time *)
  let time_in_mode := u32 (current_time - mode_entry_time st) in
  let st := add_dwell st time_in_mode in
  let st := Power_UpdateEnergyConsumption st in
  let st := Power_ApplyPeripheralStates (peripheral_configs st mode) st in
  let st := Power_ConfigureWakeSources mode st in
  (* Transition to new mode *)
  (STATUS_OK,
   mkPower mode (current_mode st) (power_initialized st)
           (idle_timeout_ms st) (last_activity_time st) current_time
           (time_active_ms st) (time_idle_ms st) (time_sleep_ms st)
           (cumulative_energy_mah st) (last_energy_update_time st)
           (wake_callbacks st) (peripheral_configs st) (driver_calls st)).

Definition Power_GetTimeInMode (st : PowerManager) : Z :=
  let current_time := 0 in  (* TODO: Get current system time *)
  u32 (current_time - mode_entry_time st).

(** The three out-parameters are the second to fourth components. *)
Definition Power_GetStatistics (st : PowerManager)
  : StatusCode_t * Z * Z * Z :=
  let current_time_in_mode := Power_GetTimeInMode st in
  let active_time_ms := time_active_ms st in
  let idle_time_ms := time_idle_ms st in
  let sleep_time_ms := time_sleep_ms st in
  match current_mode st with
  | POWER_MODE_ACTIVE =>
      (STATUS_OK, u32 (active_time_ms + current_time_in_mode), idle_time_ms,
       sleep_time_ms)
  | POWER_MODE_IDLE =>
      (STATUS_OK, active_time_ms, u32 (idle_time_ms + current_time_in_mode),
       sleep_time_ms)
  | POWER_MODE_DEEP_SLEEP =>
      (STATUS_OK, active_time_ms, idle_time_ms,
       u32 (sleep_time_ms + current_time_in_mode))
  end.

Definition Power_EnterDeepSleep (st : PowerManager)
  : StatusCode_t * PowerManager :=
  Power_SetMode POWER_MODE_DEEP_SLEEP st.

(** The states a program can reach from the initial statics. *)
Definition set_modes (modes : list PowerMode_t) (st : PowerManager)
  : PowerManager :=
  fold_left (fun st mode => snd (Power_SetMode mode st)) modes st.

(** The code reads the time as the constant 0 wherever it needs it.  So
    after [Power_Init] every time stamp is 0, every elapsed time is 0, and
    no sequence of mode changes moves a dwell counter or the energy. *)
Definition clock_stuck (st : PowerManager) : Prop :=
  power_initialized st = true /\
  mode_entry_time st = 0 /\ last_energy_update_time st = 0 /\
  time_active_ms st = 0 /\ time_idle_ms st = 0 /\ time_sleep_ms st = 0 /\
  cumulative_energy_mah st = Some 0%Q.

(** ** The C library as the GPS driver uses it

    A [char] array is a [string]; the C string it holds ends before its first
    NUL character. *)

Definition code (c : ascii) : Z := Z.of_N (N_of_ascii c).

Definition NUL : ascii := ascii_of_N 0.

Fixpoint c_str (s : string) : string :=
  match s with
  | EmptyString => EmptyString
  | String c rest =>
      if Ascii.eqb c NUL then EmptyString else String c (c_str rest)
  end.

Definition strlen (s : string) : Z := Z.of_nat (String.length (c_str s)).

(** [strchr]: the characters before the first [c], and those after it. *)
Fixpoint strchr_split (c : ascii) (s : string) : option (string * string) :=
  match s with
  | EmptyString => None
  | String a rest =>
      if Ascii.eqb a c then Some (EmptyString, rest) else
      match strchr_split c rest with
      | Some (before, after) => Some (String a before, after)
      | None => None
      end
  end.

(** [strncmp (s, prefix, strlen prefix) == 0]. *)
Fixpoint starts_with (prefix s : string) : bool :=
  match prefix, s with
  | EmptyString, _ => true
  | String a prefix', String b s' => Ascii.eqb a b && starts_with prefix' s'
  | String _ _, EmptyString => false
  end.

Definition isspace (c : ascii) : bool :=
  (code c =? 32) || ((9 <=? code c) && (code c <=? 13)).

Fixpoint skip_space (s : string) : string :=
  match s with
  | String c rest => if isspace c then skip_space rest else s
  | EmptyString => s
  end.

Definition digit_of (c : ascii) : option Z :=
  if (48 <=? code c) && (code c <=? 57) then Some (code c - 48) else None.

Definition hex_digit_of (c : ascii) : option Z :=
  if (48 <=? code c) && (code c <=? 57) then Some (code c - 48)
  else if (65 <=? code c) && (code c <=? 70) then Some (code c - 55)
  else if (97 <=? code c) && (code c <=? 102) then Some (code c - 87)
  else None.

(** [sscanf (input, "%2hhx", &target)]: the value of [target] afterwards,
    [old] being its value before.  White space is skipped; the input item
    is at most two characters of an optionally signed hexadecimal number,
    where a ["0x"] prefix uses up the width; when the item holds no digit
    nothing is stored. *)
Definition sscanf_2hhx (input : string) (old : Z) : Z :=
  match skip_space input with
  | EmptyString => old
  | String c1 rest =>
      if Ascii.eqb c1 "+" || Ascii.eqb c1 "-" then
        match rest with
        | EmptyString => old
        | String c2 _ =>
            match hex_digit_of c2 with
            | Some d => u8 (if Ascii.eqb c1 "-" then - d else d)
            | None => old
            end
        end
      else
        match hex_digit_of c1 with
        | None => old
        | Some d1 =>
            match rest with
            | EmptyString => d1
            | String c2 _ =>
                if (d1 =? 0) && (Ascii.eqb c2 "x" || Ascii.eqb c2 "X")
                then old
                else match hex_digit_of c2 with
                     | Some d2 => u8 (16 * d1 + d2)
                     | None => d1
                     end
            end
        end
  end.

(** The leading decimal digits of [s]: their value on top of [acc], their
    number on top of [n], and what follows them. *)
Fixpoint read_digits (s : string) (acc : Z) (n : nat) : Z * nat * string :=
  match s with
  | String c rest =>
      match digit_of c with
      | Some d => read_digits rest (10 * acc + d) (S n)
      | None => (acc, n, s)
      end
  | EmptyString => (acc, n, s)
  end.

Definition read_sign (s : string) : bool * string :=
  match s with
  | String c rest =>
      if Ascii.eqb c "-" then (true, rest)
      else if Ascii.eqb c "+" then (false, rest)
      else (false, s)
  | EmptyString => (false, s)
  end.

Definition INT_MAX : Z := 2147483647.
Definition INT_MIN : Z := -2147483648.

(** [atoi]; [None] when the number does not fit an [int], which the C
    standard leaves undefined. *)
Definition atoi (nptr : string) : option Z :=
  let (neg, s) := read_sign (skip_space (c_str nptr)) in
  let '(v, _, _) := read_digits s 0 0 in
  let r := if neg then - v else v in
  if (INT_MIN <=? r) && (r <=? INT_MAX) then Some r else None.

Definition lower (c : ascii) : ascii :=
  if (65 <=? code c) && (code c <=? 90)
  then ascii_of_N (N_of_ascii c + 32) else c.

Fixpoint starts_with_nocase (prefix s : string) : bool :=
  match prefix, s with
  | EmptyString, _ => true
  | String a prefix', String b s' =>
      Ascii.eqb a (lower b) && starts_with_nocase prefix' s'
  | String _ _, EmptyString => false
  end.

(** The exponent part of a decimal floating constant, 0 when there is
    none. *)
Definition read_exponent (s : string) : Z :=
  match s with
  | String c rest =>
      if Ascii.eqb (lower c) "e" then
        let (neg, s') := read_sign rest in
        let '(v, n, _) := read_digits s' 0 0 in
        if (n =? 0)%nat then 0 else if neg then - v else v
      else 0
  | EmptyString => 0
  end.

(** The leading hexadecimal digits of [s], as [read_digits] has the
    decimal ones. *)
Fixpoint read_hex_digits (s : string) (acc : Z) (n : nat)
  : Z * nat * string :=
  match s with
  | String c rest =>
      match hex_digit_of c with
      | Some d => read_hex_digits rest (16 * acc + d) (S n)
      | None => (acc, n, s)
      end
  | EmptyString => (acc, n, s)
  end.

(** The binary exponent part of a hexadecimal floating constant, 0 when
    there is none. *)
Definition read_binary_exponent (s : string) : Z :=
  match s with
  | String c rest =>
      if Ascii.eqb (lower c) "p" then
        let (neg, s') := read_sign rest in
        let '(v, n, _) := read_digits s' 0 0 in
        if (n =? 0)%nat then 0 else if neg then - v else v
      else 0
  | EmptyString => 0
  end.

(** [strtod] on hexadecimal notation, [s] being what follows the ["0x"]:
    hexadecimal digits with an optional point, an optional binary
    exponent.  With no hexadecimal digit the number read is the ["0"]
    before the ["x"]. *)
Definition strtod_hex (neg : bool) (s : string) : float :=
  let '(ip, ni, s) := read_hex_digits s 0 0 in
  let '(m, nf, s) :=
    match s with
    | String c rest =>
        if Ascii.eqb c "." then read_hex_digits rest ip 0 else (ip, 0%nat, s)
    | EmptyString => (ip, 0%nat, s)
    end in
  if (ni + nf =? 0)%nat then Some 0%Q else
  let e2 := read_binary_exponent s - 4 * Z.of_nat nf in
  let mag :=
    if 0 <=? e2 then inject_Z (m * 2 ^ e2)
    else (inject_Z m / inject_Z (2 ^ (- e2)))%Q in
  round_to binary64 (if neg then (- mag)%Q else mag).

(** [atof], that is [strtod]: optional white space and sign, then either
    hexadecimal notation or decimal digits with an optional point and an
    optional exponent; the result is the [double] nearest to the number
    written.  With no digits the answer is 0.  Infinities and NaNs are not
    finite numbers ([None]). *)
Definition atof (nptr : string) : float :=
  let (neg, s) := read_sign (skip_space (c_str nptr)) in
  if starts_with_nocase "inf" s || starts_with_nocase "nan" s
  then None else
  if starts_with_nocase "0x" s
  then strtod_hex neg (match s with
                       | String _ (String _ rest) => rest
                       | _ => EmptyString
                       end)
  else
  let '(ip, ni, s) := read_digits s 0 0 in
  let '(m, nf, s) :=
    match s with
    | String c rest =>
        if Ascii.eqb c "." then read_digits rest ip 0 else (ip, 0%nat, s)
    | EmptyString => (ip, 0%nat, s)
    end in
  if (ni + nf =? 0)%nat then Some 0%Q else
  let e10 := read_exponent s - Z.of_nat nf in
  let mag :=
    if 0 <=? e10 then inject_Z (m * 10 ^ e10)
    else (inject_Z m / inject_Z (10 ^ (- e10)))%Q in
  round_to binary64 (if neg then (- mag)%Q else mag).

(** [strtok (s, ",")] called until it answers [NULL]: the maximal runs of
    characters other than the comma, empty runs left out. *)
Fixpoint split_comma (s : string) : list string :=
  match s with
  | EmptyString => [EmptyString]
  | String c rest =>
      let fields := split_comma rest in
      if Ascii.eqb c "," then EmptyString :: fields
      else match fields with
           | f :: fields' => String c f :: fields'
           | [] => [String c EmptyString]
           end
  end.

Definition nonempty (s : string) : bool :=
  match s with
  | EmptyString => false
  | String _ _ => true
  end.

Definition strtok_all (s : string) : list string :=
  filter nonempty (split_comma s).

(** ** gps_driver.c: the NMEA parser *)

Definition NMEA_BUFFER_SIZE : Z := 128.
Definition NMEA_MAX_TOKENS : nat := 20.

Record GPSData_t : Type := mkGPSData {
  gps_latitude : float;     (* float latitude *)
  gps_longitude : float;    (* float longitude *)
  gps_altitude : float;     (* float altitude *)
  satellites : Z;           (* uint8_t *)
  fix_quality : Z;          (* uint8_t *)
  gps_timestamp : Z;        (* uint32_t timestamp *)
  hdop : Z;                 (* uint16_t *)
  valid : bool
}.

(** The statics of the driver; [callback_log] records the calls made
    through [data_callback], in order. *)
Record GPSDriver : Type := mkGPS {
  current_gps_data : GPSData_t;
  gps_initialized : bool;
  gps_has_fix : bool;
  last_fix_timestamp : Z;
  data_callback : bool;      (* [true]: a callback is registered *)
  callback_log : list GPSData_t
}.

Definition xor_bytes (s : string) : Z :=
  fold_left (fun acc c => u8 (Z.lxor acc (code c))) (list_ascii_of_string s) 0.

Definition GPS_ValidateChecksum (sentence : string) : bool :=
  match c_str sentence with
  | EmptyString => false
  | String c0 _ =>
      if negb (Ascii.eqb c0 "$") then false else
      (* Find checksum delimiter *)
      match strchr_split "*" (c_str sentence) with
      | None => false
      | Some (before, after) =>
          (* XOR of all characters between $ and * *)
          let calculated_checksum :=
            match before with
            | String _ body => xor_bytes body
            | EmptyString => 0
            end in
          let provided_checksum := sscanf_2hhx after 0 in
          calculated_checksum =? provided_checksum
      end
  end.

Definition first_char (s : string) : ascii :=
  match s with
  | String c _ => c
  | EmptyString => NUL
  end.

(** The result is [None] where the C code leaves the finite numbers or the
    range of [int]. *)
Definition GPS_ConvertCoordinate (coord_str direction : string) : float :=
  let coord := f32_of_f64 (atof coord_str) in
  (* Extract degrees and minutes *)
  match f32_div coord (Some 100%Q) with
  | None => None
  | Some t =>
      let degrees := Qtrunc t in
      if negb ((INT_MIN <=? degrees * 100) && (degrees * 100 <=? INT_MAX))
      then None else
      let minutes := f32_sub coord (f32_of_Z (degrees * 100)) in
      (* Convert to decimal degrees *)
      let decimal_degrees :=
        f32_add (f32_of_Z degrees) (f32_div minutes (Some 60%Q)) in
      (* Apply direction (S and W are negative) *)
      if Ascii.eqb (first_char direction) "S" ||
         Ascii.eqb (first_char direction) "W"
      then f32_neg decimal_degrees else decimal_degrees
  end.

(** The copy into [sentence_copy] and the [strtok] loop.  [strncpy] leaves
    the copy without its NUL when the sentence has NMEA_BUFFER_SIZE - 1
    characters or more; what [strtok] reads then is undefined ([None]). *)
Definition tokenize (sentence : string) : option (list string) :=
  if NMEA_BUFFER_SIZE - 1 <=? strlen sentence then None
  else Some (firstn NMEA_MAX_TOKENS (strtok_all (c_str sentence))).

Definition token (tokens : list string) (i : nat) : string :=
  nth i tokens EmptyString.

Definition set_no_fix (gps_data : GPSData_t) : GPSData_t :=
  mkGPSData (gps_latitude gps_data) (gps_longitude gps_data)
            (gps_altitude gps_data) (satellites gps_data)
            (fix_quality gps_data) (gps_timestamp gps_data) (hdop gps_data)
            false.

Definition clear_fix (st : GPSDriver) : GPSDriver :=
  mkGPS (current_gps_data st) (gps_initialized st) false
        (last_fix_timestamp st) (data_callback st) (callback_log st).

(** [(uint16_t)x] for a floating [x]: defined when the integer part fits. *)
Definition u16_of_float (x : float) : option Z :=
  match x with
  | Some q => let n := Qtrunc q in
              if (0 <=? n) && (n <=? 65535) then Some n else None
  | None => None
  end.

(** The parsers answer [None] where the C code has no defined outcome. *)
Definition GPS_ParseGPGGA (sentence : string) (gps_data : GPSData_t)
  (st : GPSDriver) : option (StatusCode_t * GPSData_t * GPSDriver) :=
  match tokenize sentence with
  | None => None
  | Some tokens =>
      if (List.length tokens <? 10)%nat then Some (STATUS_ERROR, gps_data, st)
      else
      (* Parse fix quality (token[6]) *)
      match atoi (token tokens 6) with
      | None => None
      | Some quality =>
          let gps_data :=
            mkGPSData (gps_latitude gps_data) (gps_longitude gps_data)
                      (gps_altitude gps_data) (satellites gps_data)
                      (u8 quality) (gps_timestamp gps_data) (hdop gps_data)
                      (valid gps_data) in
          if fix_quality gps_data =? 0
          then Some (STATUS_OK, set_no_fix gps_data, clear_fix st)
          else
          let lat := GPS_ConvertCoordinate (token tokens 2) (token tokens 3) in
          let lon := GPS_ConvertCoordinate (token tokens 4) (token tokens 5) in
          match atoi (token tokens 7),
                u16_of_float (f64_mul (atof (token tokens 8)) (Some 100%Q)) with
          | Some sats, Some hd =>
              let alt := f32_of_f64 (atof (token tokens 9)) in
              let gps_data :=
                mkGPSData lat lon alt (u8 sats) (fix_quality gps_data)
                          (gps_timestamp gps_data) hd true in
              let last_fix := 0 in  (* TODO: Get current system time *)
              let log := if data_callback st
                         then callback_log st ++ [gps_data]
                         else callback_log st in
              Some (STATUS_OK, gps_data,
                    mkGPS gps_data (gps_initialized st) true last_fix
                          (data_callback st) log)
          | _, _ => None
          end
      end
  end.

Definition GPS_ParseGPRMC (sentence : string) (gps_data : GPSData_t)
  (st : GPSDriver) : option (StatusCode_t * GPSData_t * GPSDriver) :=
  match tokenize sentence with
  | None => None
  | Some tokens =>
      if (List.length tokens <? 10)%nat then Some (STATUS_ERROR, gps_data, st)
      else
      (* Parse status (token[2]): 'A' = valid, 'V' = invalid *)
      if negb (Ascii.eqb (first_char (token tokens 2)) "A")
      then Some (STATUS_OK, set_no_fix gps_data, clear_fix st)
      else
      let lat := GPS_ConvertCoordinate (token tokens 3) (token tokens 4) in
      let lon := GPS_ConvertCoordinate (token tokens 5) (token tokens 6) in
      match atoi (token tokens 1) with
      | None => None
      | Some time =>
          let gps_data :=
            mkGPSData lat lon (gps_altitude gps_data) (satellites gps_data)
                      (fix_quality gps_data) (u32 time) (hdop gps_data) true in
          let last_fix := 0 in  (* TODO: Get current system time *)
          Some (STATUS_OK, gps_data,
                mkGPS gps_data (gps_initialized st) true last_fix
                      (data_callback st) (callback_log st))
      end
  end.

Definition is_gga (sentence : string) : bool :=
  starts_with "$GPGGA" (c_str sentence) || starts_with "$GNGGA" (c_str sentence).

Definition is_rmc (sentence : string) : bool :=
  starts_with "$GPRMC" (c_str sentence) || starts_with "$GNRMC" (c_str sentence).

Definition GPS_ParseNMEA (sentence : string) (gps_data : GPSData_t)
  (st : GPSDriver) : option (StatusCode_t * GPSData_t * GPSDriver) :=
  (* Validate checksum *)
  if negb (GPS_ValidateChecksum sentence)
  then Some (STATUS_ERROR, gps_data, st)
  (* Determine sentence type and parse accordingly *)
  else if is_gga sentence then GPS_ParseGPGGA sentence gps_data st
  else if is_rmc sentence then GPS_ParseGPRMC sentence gps_data st
  (* Unsupported sentence type *)
  else Some (STATUS_ERROR, gps_data, st).

(** The statics after [GPS_Init], and a caller's structure. *)
Definition blank_gps_data : GPSData_t :=
  mkGPSData (Some 0%Q) (Some 0%Q) (Some 0%Q) 0 0 0 0 false.

Definition gps_after_init : GPSDriver :=
  mkGPS blank_gps_data true false 0 false [].

(** Sentences in the [$...*HH] envelope: [body] holds neither a star nor
    a NUL, [h1] and [h2] follow the star, [rest] is what may come after. *)
Fixpoint plain (s : string) : bool :=
  match s with
  | EmptyString => true
  | String c rest =>
      negb (Ascii.eqb c "*") && negb (Ascii.eqb c NUL) && plain rest
  end.

Definition envelope (body : string) (h1 h2 : ascii) (rest : string) : string :=
  String "$" (String.append body (String "*" (String h1 (String h2 rest)))).

(** Sample sentences: the two of the comments in the source, a position
    fix without a fix, a sentence of another type, and sentences that
    differ from a valid one in the spelling of a hexadecimal digit, in an
    interior byte turned into a star, and in missing checksum digits. *)
Definition sentence_gga : string :=
  "$GPGGA,123519,4807.038,N,01131.000,E,1,08,0.9,545.4,M,46.9,M,,*47".
Definition sentence_rmc : string :=
  "$GPRMC,123519,A,4807.038,N,01131.000,E,022.4,084.4,230394,003.1,W*6A".
Definition sentence_rmc_lower : string :=
  "$GPRMC,123519,A,4807.038,N,01131.000,E,022.4,084.4,230394,003.1,W*6a".
Definition sentence_no_fix : string :=
  "$GPGGA,123519,4807.038,N,01131.000,E,0,00,9.9,5065,M,46.9,M,,*6F".
Definition sentence_no_fix_starred : string :=
  "$GPGGA,123519,4807.038,N,01131.000,E,0,00,9.9,5*65,M,46.9,M,,*6F".
Definition sentence_no_fix_bad_sum : string :=
  "$GPGGA,123519,4807.038,N,01131.000,E,0,00,9.9,5065,M,46.9,M,,*6E".
Definition sentence_no_digits : string :=
  "$GPGGA,123519,4807.038,N,01131.000,E,0,00,9.9,545.4,M,46.9,M,R9*".
Definition sentence_empty_fields : string :=
  "$GPGGA,123519,,,,,0,00,99.99,,,,,,*45".

(** A position-fix sentence with fix quality 0 whose time field is
    empty. *)
Definition sentence_shifted_fields : string :=
  "$GPGGA,,4807.038,N,01131.000,E,0,08,0.9,545.4,M,46.9,M,,*4B".







Definition status_of (r : option (StatusCode_t * GPSData_t * GPSDriver))
  : option StatusCode_t :=
  match r with
  | Some (status, _, _) => Some status
  | None => None
  end.

Definition body_rmc : string :=
  "GPRMC,123519,A,4807.038,N,01131.000,E,022.4,084.4,230394,003.1,W".

(** Coordinates as the specification writes them: a string of digits, a
    point and a string of digits, read as the decimal number they spell;
    and the sign the hemisphere letter gives. *)
Fixpoint all_digits (s : string) : bool :=
  match s with
  | EmptyString => true
  | String c rest =>
      match digit_of c with
      | Some _ => all_digits rest
      | None => false
      end
  end.

Fixpoint decimal (s : string) (acc : Z) : Z :=
  match s with
  | EmptyString => acc
  | String c rest => decimal rest (10 * acc + (code c - 48))
  end.

Definition decimal_value (ip fp : string) : Q :=
  (inject_Z (decimal (String.append ip fp) 0) /
   inject_Z (10 ^ Z.of_nat (String.length fp)))%Q.

Definition coordinate_string (ip fp : string) : string :=
  String.append ip (String "." fp).

Definition hemisphere_sign (direction : string) : Q :=
  if Ascii.eqb (first_char direction) "S" ||
     Ascii.eqb (first_char direction) "W"
  then (-1)%Q else 1%Q.

(** [GPS_ConvertCoordinate] from the value of [atof] on. *)
Definition convert_value (coord64 : float) (direction : string) : float :=
  let coord := f32_of_f64 coord64 in
  match f32_div coord (Some 100%Q) with
  | None => None
  | Some t =>
      let degrees := Qtrunc t in
      if negb ((INT_MIN <=? degrees * 100) && (degrees * 100 <=? INT_MAX))
      then None else
      let minutes := f32_sub coord (f32_of_Z (degrees * 100)) in
      let decimal_degrees :=
        f32_add (f32_of_Z degrees) (f32_div minutes (Some 60%Q)) in
      if Ascii.eqb (first_char direction) "S" ||
         Ascii.eqb (first_char direction) "W"
      then f32_neg decimal_degrees else decimal_degrees
  end.

(** ** C arrays and comparisons of floating values

    [array_set l i x] is the array [l] after [l[i] = x]; the code guards
    every such store by a bound, and outside the array the model leaves it
    as it is.  A comparison of two floating values has an answer when both
    are finite. *)
Fixpoint array_set {A : Type} (l : list A) (i : nat) (x : A) : list A :=
  match l, i with
  | [], _ => []
  | _ :: rest, O => x :: rest
  | y :: rest, S i' => y :: array_set rest i' x
  end.

Definition f_lt (a b : float) : option bool :=
  match a, b with
  | Some x, Some y => Some (negb (Qle_bool y x))
  | _, _ => None
  end.

Definition f_le (a b : float) : option bool :=
  match a, b with
  | Some x, Some y => Some (Qle_bool x y)
  | _, _ => None
  end.

(** ** can_driver.c: the CAN driver

    A callback is named by a number, [None] is the null pointer; [rx_log]
    records the calls made through [rx_callbacks], in order. *)
Definition CAN_SPEED_MSG_ID : Z := 0x200.
Definition CAN_TIMEOUT_MS : Z := 2000.

Record CANMessage_t : Type := mkCANMessage {
  can_id : Z;               (* uint32_t id *)
  can_data : list Z;        (* uint8_t data[8] *)
  can_dlc : Z;              (* uint8_t dlc *)
  can_is_extended : bool;
  can_timestamp : Z         (* uint32_t timestamp *)
}.

Record CANDriver : Type := mkCAN {
  rx_callbacks : list (option nat);   (* CANRxCallback_t [16] *)
  filter_ids : list Z;                (* uint32_t [16] *)
  callback_count : Z;                 (* uint8_t *)
  last_rx_timestamp : Z;              (* uint32_t *)
  tx_error_count : Z;                 (* uint32_t *)
  rx_error_count : Z;                 (* uint32_t *)
  can_initialized : bool;
  rx_log : list (nat * CANMessage_t)
}.

Definition can_statics : CANDriver :=
  mkCAN (repeat None 16) (repeat 0 16) 0 0 0 0 false [].

(** Nothing but a debug print in the source. *)
Definition CAN_ConfigureFilters (st : CANDriver) : CANDriver := st.

Definition CAN_Init (bitrate : Z) (st : CANDriver) : StatusCode_t * CANDriver :=
  if can_initialized st then (STATUS_OK, st) else
  (* Reset error counters *)
  let st := mkCAN (rx_callbacks st) (filter_ids st) (callback_count st)
                  0 0 0 (can_initialized st) (rx_log st) in
  let st := CAN_ConfigureFilters st in
  (STATUS_OK,
   mkCAN (rx_callbacks st) (filter_ids st) (callback_count st)
         (last_rx_timestamp st) (tx_error_count st) (rx_error_count st)
         true (rx_log st)).

Definition CAN_Deinit (st : CANDriver) : StatusCode_t * CANDriver :=
  if negb (can_initialized st) then (STATUS_NOT_INITIALIZED, st) else
  (STATUS_OK,
   mkCAN (repeat None 16) (repeat 0 16) 0
         (last_rx_timestamp st) (tx_error_count st) (rx_error_count st)
         false (rx_log st)).

Definition CAN_RegisterRxCallback (id : Z) (callback : option nat)
  (st : CANDriver) : StatusCode_t * CANDriver :=
  if negb (can_initialized st) then (STATUS_NOT_INITIALIZED, st) else
  match callback with
  | None => (STATUS_INVALID_PARAM, st)
  | Some _ =>
      if 16 <=? callback_count st then (STATUS_BUFFER_FULL, st) else
      (* Store callback and filter ID *)
      let i := Z.to_nat (callback_count st) in
      let st :=
        mkCAN (array_set (rx_callbacks st) i callback)
              (array_set (filter_ids st) i id)
              (u8 (callback_count st + 1))
              (last_rx_timestamp st) (tx_error_count st) (rx_error_count st)
              (can_initialized st) (rx_log st) in
      (STATUS_OK, CAN_ConfigureFilters st)
  end.

Definition CAN_Transmit (msg : CANMessage_t) (st : CANDriver) : StatusCode_t :=
  if negb (can_initialized st) then STATUS_NOT_INITIALIZED else
  if 8 <? can_dlc msg then STATUS_INVALID_PARAM else STATUS_OK.

(** [speed_raw] is a [uint16_t]; the division is one of [float]. *)
Definition CAN_ExtractSpeed (msg : CANMessage_t) : float :=
  if negb (can_id msg =? CAN_SPEED_MSG_ID) || (can_dlc msg <? 2)
  then Some (-1)%Q else
  (* Extract speed: bytes 0-1, big-endian, value in (km/h * 100) *)
  let speed_raw :=
    u16 (Z.lor (Z.shiftl (u16 (nth 0 (can_data msg) 0)) 8)
               (nth 1 (can_data msg) 0)) in
  f32_div (f32_of_Z speed_raw) (Some 100%Q).

Definition CAN_IsHealthy (st : CANDriver) : bool :=
  if negb (can_initialized st) then false else
  let current_time := 0 in  (* TODO: Get current system time in ms *)
  let elapsed := u32 (current_time - last_rx_timestamp st) in
  if CAN_TIMEOUT_MS <? elapsed then false else
  if (100 <? tx_error_count st) || (100 <? rx_error_count st) then false
  else true.

Definition CAN_GetLastMessageTime (st : CANDriver) : Z := last_rx_timestamp st.

Definition CAN_GetErrorStats (st : CANDriver) : StatusCode_t * Z * Z :=
  (STATUS_OK, tx_error_count st, rx_error_count st).

Definition CAN_SetPowerState (enable : bool) (st : CANDriver)
  : StatusCode_t * CANDriver :=
  if negb (can_initialized st) && enable then (STATUS_NOT_INITIALIZED, st)
  else (STATUS_OK, st).

(** The loop of [CAN_IRQHandler] from index [i] on: the first slot whose
    filter is the identifier of the message and whose callback is set is
    called, and the loop ends. *)
Fixpoint irq_dispatch (remaining : nat) (i : Z) (msg : CANMessage_t)
  (st : CANDriver) : CANDriver :=
  match remaining with
  | O => st
  | S remaining' =>
      if negb (i <? callback_count st) then st else
      match nth (Z.to_nat i) (rx_callbacks st) None with
      | Some f =>
          if can_id msg =? nth (Z.to_nat i) (filter_ids st) 0
          then mkCAN (rx_callbacks st) (filter_ids st) (callback_count st)
                     (last_rx_timestamp st) (tx_error_count st)
                     (rx_error_count st) (can_initialized st)
                     (rx_log st ++ [(f, msg)])
          else irq_dispatch remaining' (u8 (i + 1)) msg st
      | None => irq_dispatch remaining' (u8 (i + 1)) msg st
      end
  end.

(** [msg] stands for the local the hardware layer is to fill in. *)
Definition CAN_IRQHandler (msg : CANMessage_t) (st : CANDriver) : CANDriver :=
  let st := mkCAN (rx_callbacks st) (filter_ids st) (callback_count st)
                  0 (* TODO: Get current system time *)
                  (tx_error_count st) (rx_error_count st)
                  (can_initialized st) (rx_log st) in
  irq_dispatch (Z.to_nat (callback_count st)) 0 msg st.

(** What a program can do to the driver. *)
Inductive CANOp : Type :=
| CanInit (bitrate : Z)
| CanDeinit
| CanRegister (id : Z) (callback : option nat)
| CanSetPower (enable : bool)
| CanIRQ (msg : CANMessage_t).

Definition can_apply (st : CANDriver) (op : CANOp) : CANDriver :=
  match op with
  | CanInit bitrate => snd (CAN_Init bitrate st)
  | CanDeinit => snd (CAN_Deinit st)
  | CanRegister id callback => snd (CAN_RegisterRxCallback id callback st)
  | CanSetPower enable => snd (CAN_SetPowerState enable st)
  | CanIRQ msg => CAN_IRQHandler msg st
  end.

Definition can_run (ops : list CANOp) (st : CANDriver) : CANDriver :=
  fold_left can_apply ops st.

(** Registrations one after the other, with their statuses; the table of
    filters and callbacks registered; and what holds of the driver whatever
    a program does. *)
Fixpoint register_all (regs : list (Z * nat)) (st : CANDriver)
  : list StatusCode_t * CANDriver :=
  match regs with
  | [] => ([], st)
  | (id, f) :: rest =>
      let (status, st1) := CAN_RegisterRxCallback id (Some f) st in
      let (statuses, st2) := register_all rest st1 in
      (status :: statuses, st2)
  end.

Definition can_table (st : CANDriver) : list (Z * option nat) :=
  firstn (Z.to_nat (callback_count st))
         (combine (filter_ids st) (rx_callbacks st)).

Record can_wf (st : CANDriver) : Prop := mkCanWf {
  can_wf_count : 0 <= callback_count st <= 16;
  can_wf_callbacks : List.length (rx_callbacks st) = 16%nat;
  can_wf_filters : List.length (filter_ids st) = 16%nat;
  can_wf_time : last_rx_timestamp st = 0;
  can_wf_tx : tx_error_count st = 0;
  can_wf_rx : rx_error_count st = 0;
  can_wf_cold : can_initialized st = false -> callback_count st = 0
}.

Definition speed_message (d0 d1 : Z) : CANMessage_t :=
  mkCANMessage CAN_SPEED_MSG_ID [d0; d1; 0; 0; 0; 0; 0; 0] 2 false 0.

(** ** adc_driver.c: the battery voltage

    [threshold_log] records the voltages passed to [threshold_callback], in
    order.  A function that compares floating values answers [None] when a
    value it compares is not finite. *)
Definition ADC_BUFFER_SIZE : Z := 16.
Definition ADC_MAX_VALUE : Z := 4095.
Definition ADC_VREF_MV : Z := 3300.
Definition ADC_VOLTAGE_DIVIDER : float := Some 10%Q.

Record ADCDriver : Type := mkADC {
  adc_buffer : list Z;            (* uint16_t [ADC_BUFFER_SIZE] *)
  adc_initialized : bool;
  adc_running : bool;
  adc_offset : float;
  adc_scale : float;
  voltage_threshold : float;
  threshold_callback : bool;      (* [true]: a callback is set *)
  threshold_triggered : bool;
  voltage_min : float;
  voltage_max : float;
  voltage_sum : float;
  sample_count : Z;               (* uint32_t *)
  threshold_log : list float
}.

Definition adc_statics : ADCDriver :=
  mkADC (repeat 0 16) false false (Some 0%Q) (Some 1%Q) (Some 0%Q) false false
        (Some 999%Q) (Some 0%Q) (Some 0%Q) 0 [].

Definition ADC_Init (st : ADCDriver) : StatusCode_t * ADCDriver :=
  if adc_initialized st then (STATUS_OK, st) else
  (STATUS_OK,
   mkADC (repeat 0 (Z.to_nat ADC_BUFFER_SIZE)) true (adc_running st)
         (adc_offset st) (adc_scale st) (voltage_threshold st)
         (threshold_callback st) (threshold_triggered st)
         (Some 999%Q) (Some 0%Q) (Some 0%Q) 0 (threshold_log st)).

Definition adc_set_running (running : bool) (st : ADCDriver) : ADCDriver :=
  mkADC (adc_buffer st) (adc_initialized st) running
        (adc_offset st) (adc_scale st) (voltage_threshold st)
        (threshold_callback st) (threshold_triggered st)
        (voltage_min st) (voltage_max st) (voltage_sum st) (sample_count st)
        (threshold_log st).

Definition ADC_StartConversion (st : ADCDriver) : StatusCode_t * ADCDriver :=
  if negb (adc_initialized st) then (STATUS_NOT_INITIALIZED, st) else
  if adc_running st then (STATUS_OK, st) else
  (STATUS_OK, adc_set_running true st).

Definition ADC_StopConversion (st : ADCDriver) : StatusCode_t * ADCDriver :=
  if negb (adc_initialized st) then (STATUS_NOT_INITIALIZED, st) else
  if negb (adc_running st) then (STATUS_OK, st) else
  (STATUS_OK, adc_set_running false st).

Definition ADC_Deinit (st : ADCDriver) : StatusCode_t * ADCDriver :=
  if negb (adc_initialized st) then (STATUS_NOT_INITIALIZED, st) else
  let st := snd (ADC_StopConversion st) in
  (STATUS_OK,
   mkADC (adc_buffer st) false (adc_running st)
         (adc_offset st) (adc_scale st) (voltage_threshold st)
         (threshold_callback st) (threshold_triggered st)
         (voltage_min st) (voltage_max st) (voltage_sum st) (sample_count st)
         (threshold_log st)).

Definition ADC_RawToVoltage (raw_value : Z) (st : ADCDriver) : float :=
  (* V = (raw / 4095) * VREF * voltage_divider *)
  let voltage :=
    f32_mul (f32_mul (f32_div (f32_of_Z raw_value) (f32_of_Z ADC_MAX_VALUE))
                     (f32_div (f32_of_Z ADC_VREF_MV) (Some 1000%Q)))
            ADC_VOLTAGE_DIVIDER in
  (* Apply calibration *)
  f32_mul (f32_add voltage (adc_offset st)) (adc_scale st).

Definition adc_set_triggered (triggered : bool) (st : ADCDriver) : ADCDriver :=
  mkADC (adc_buffer st) (adc_initialized st) (adc_running st)
        (adc_offset st) (adc_scale st) (voltage_threshold st)
        (threshold_callback st) triggered
        (voltage_min st) (voltage_max st) (voltage_sum st) (sample_count st)
        (threshold_log st).

Definition adc_notify (voltage : float) (st : ADCDriver) : ADCDriver :=
  mkADC (adc_buffer st) (adc_initialized st) (adc_running st)
        (adc_offset st) (adc_scale st) (voltage_threshold st)
        (threshold_callback st) (threshold_triggered st)
        (voltage_min st) (voltage_max st) (voltage_sum st) (sample_count st)
        (threshold_log st ++ [voltage]).

Definition ADC_CheckThreshold (voltage : float) (st : ADCDriver)
  : option ADCDriver :=
  if negb (threshold_callback st) then Some st else
  match f_le (voltage_threshold st) (Some 0%Q) with
  | None => None
  | Some true => Some st
  | Some false =>
      match f_lt voltage (voltage_threshold st),
            f_le (f32_add (voltage_threshold st) (Some (1 # 2)%Q)) voltage with
      | Some below, Some recovered =>
          (* Check if voltage dropped below threshold *)
          let st :=
            if below && negb (threshold_triggered st)
            then adc_notify voltage (adc_set_triggered true st)
            else st in
          (* Reset trigger if voltage recovers *)
          Some (if recovered then adc_set_triggered false st else st)
      | _, _ => None
      end
  end.

Definition adc_sample (st : ADCDriver) (i : nat) : Z := nth i (adc_buffer st) 0.

(** The sum of the loop of [ADC_GetBatteryVoltage], a [uint32_t]. *)
Definition adc_sum (st : ADCDriver) : Z :=
  fold_left (fun sum i => u32 (sum + adc_sample st i))
            (seq 0 (Z.to_nat ADC_BUFFER_SIZE)) 0.

Definition ADC_GetBatteryVoltage (st : ADCDriver) : option (float * ADCDriver) :=
  if negb (adc_initialized st) || negb (adc_running st)
  then Some (Some (-1)%Q, st) else
  (* Calculate average of all samples in buffer for noise reduction *)
  let sum := adc_sum st in
  let avg_raw := u16 (sum / ADC_BUFFER_SIZE) in
  let voltage := ADC_RawToVoltage avg_raw st in
  (* Update statistics *)
  match f_lt voltage (voltage_min st), f_lt (voltage_max st) voltage with
  | Some lower, Some higher =>
      let st :=
        mkADC (adc_buffer st) (adc_initialized st) (adc_running st)
              (adc_offset st) (adc_scale st) (voltage_threshold st)
              (threshold_callback st) (threshold_triggered st)
              (if lower then voltage else voltage_min st)
              (if higher then voltage else voltage_max st)
              (f32_add (voltage_sum st) voltage)
              (u32 (sample_count st + 1)) (threshold_log st) in
      (* Check threshold *)
      match ADC_CheckThreshold voltage st with
      | Some st => Some (voltage, st)
      | None => None
      end
  | _, _ => None
  end.

Definition ADC_GetRawValue (st : ADCDriver) : Z :=
  if negb (adc_initialized st) || negb (adc_running st) then 0xFFFF
  else adc_sample st 0.

Definition ADC_RegisterThresholdCallback (threshold : float) (callback : bool)
  (st : ADCDriver) : option (StatusCode_t * ADCDriver) :=
  if negb (adc_initialized st) then Some (STATUS_NOT_INITIALIZED, st) else
  if negb callback then Some (STATUS_INVALID_PARAM, st) else
  match f_le threshold (Some 0%Q) with
  | None => None
  | Some true => Some (STATUS_INVALID_PARAM, st)
  | Some false =>
      Some (STATUS_OK,
            mkADC (adc_buffer st) (adc_initialized st) (adc_running st)
                  (adc_offset st) (adc_scale st) threshold callback false
                  (voltage_min st) (voltage_max st) (voltage_sum st)
                  (sample_count st) (threshold_log st))
  end.

Definition ADC_Calibrate (known_voltage : float) (st : ADCDriver)
  : StatusCode_t * ADCDriver :=
  if negb (adc_initialized st) then (STATUS_NOT_INITIALIZED, st) else
  let raw := ADC_GetRawValue st in
  if raw =? 0xFFFF then (STATUS_NO_DATA, st) else
  (* Calculate scale factor *)
  let uncalibrated := ADC_RawToVoltage raw st in
  (STATUS_OK,
   mkADC (adc_buffer st) (adc_initialized st) (adc_running st)
         (adc_offset st) (f32_div known_voltage uncalibrated)
         (voltage_threshold st) (threshold_callback st)
         (threshold_triggered st) (voltage_min st) (voltage_max st)
         (voltage_sum st) (sample_count st) (threshold_log st)).

Definition ADC_IsHealthy (st : ADCDriver) : bool :=
  if negb (adc_initialized st) || negb (adc_running st) then false else
  (* Check if ADC values are reasonable (not stuck) *)
  let first := adc_sample st 0 in
  let all_same :=
    forallb (fun i => adc_sample st i =? first)
            (seq 1 (Z.to_nat ADC_BUFFER_SIZE - 1)) in
  negb all_same.

Definition ADC_SetPowerState (enable : bool) (st : ADCDriver)
  : StatusCode_t * ADCDriver :=
  if enable then
    if negb (adc_initialized st) then ADC_Init st
    else ADC_StartConversion st
  else ADC_StopConversion st.

(** The readings [ADC_CheckThreshold] is given one after the other. *)
Fixpoint check_thresholds (voltages : list float) (st : ADCDriver)
  : option ADCDriver :=
  match voltages with
  | [] => Some st
  | v :: rest =>
      match ADC_CheckThreshold v st with
      | Some st' => check_thresholds rest st'
      | None => None
      end
  end.

(** The mean of the sixteen samples as integers, without the widths of the
    C variables. *)
Definition adc_mean (st : ADCDriver) : Z :=
  fold_right Z.add 0 (map (adc_sample st) (seq 0 (Z.to_nat ADC_BUFFER_SIZE)))
  / ADC_BUFFER_SIZE.

(** A driver that converts, with twelve-bit samples and no calibration, no
    threshold callback and finite statistics. *)
Definition adc_sampling : ADCDriver :=
  mkADC [2048; 2049; 2047; 2048; 2050; 2046; 2048; 2048;
         2049; 2047; 2048; 2048; 2051; 2045; 2048; 2048]
        true true (Some 0%Q) (Some 1%Q) (Some 0%Q) false false
        (Some 999%Q) (Some 0%Q) (Some 0%Q) 0 [].

(** A converting driver whose newest sample is 0. *)
Definition adc_grounded : ADCDriver :=
  mkADC (repeat 0 16) true true (Some 0%Q) (Some 1%Q) (Some 0%Q) false false
        (Some 999%Q) (Some 0%Q) (Some 0%Q) 0 [].

(** A driver that watches for 11.5 V and has given its notice. *)
Definition adc_watching : ADCDriver :=
  mkADC (repeat 0 16) true true (Some 0%Q) (Some 1%Q) (Some (23 # 2)%Q) true
        true (Some 999%Q) (Some 0%Q) (Some 0%Q) 0 [Some 11%Q].

(** Twelve-bit samples, and readings that are finite and below a level. *)
Definition twelve_bit (st : ADCDriver) : bool :=
  forallb (fun x => (0 <=? x) && (x <=? ADC_MAX_VALUE)) (adc_buffer st).

Definition below_level (l : Q) (v : float) : Prop :=
  exists q, v = Some q /\ (q < l)%Q.

Definition at_least (t : Q) (v : float) : Prop :=
  exists q, v = Some q /\ (t <= q)%Q.

(** ** gps_driver.c: the rest of the driver

    [GPSReceiver] adds the line buffer of the UART to the statics. *)
Definition GPS_TIMEOUT_MS : Z := 3000.
Definition GPS_MIN_SATELLITES : Z := 4.
Definition GPS_UART_BAUDRATE : Z := 9600.

Definition LF : ascii := ascii_of_N 10.

Record GPSReceiver : Type := mkReceiver {
  gps : GPSDriver;
  nmea_buffer : list ascii;    (* char [NMEA_BUFFER_SIZE] *)
  nmea_index : Z               (* uint16_t *)
}.

Definition gps_statics : GPSReceiver :=
  mkReceiver (mkGPS blank_gps_data false false 0 false [])
             (repeat NUL (Z.to_nat NMEA_BUFFER_SIZE)) 0.

Definition GPS_Init (baudrate : Z) (rx : GPSReceiver)
  : StatusCode_t * GPSReceiver :=
  if gps_initialized (gps rx) then (STATUS_OK, rx) else
  (STATUS_OK,
   mkReceiver (mkGPS blank_gps_data true false 0
                     (data_callback (gps rx)) (callback_log (gps rx)))
              (repeat NUL (Z.to_nat NMEA_BUFFER_SIZE)) 0).

Definition GPS_Deinit (st : GPSDriver) : StatusCode_t * GPSDriver :=
  if negb (gps_initialized st) then (STATUS_NOT_INITIALIZED, st) else
  (STATUS_OK,
   mkGPS (current_gps_data st) false (gps_has_fix st) (last_fix_timestamp st)
         false (callback_log st)).

(** [gps_data] is the caller's structure, the second component of the
    result that structure after the call. *)
Definition GPS_GetPosition (gps_data : GPSData_t) (st : GPSDriver)
  : StatusCode_t * GPSData_t :=
  if negb (gps_initialized st) then (STATUS_NOT_INITIALIZED, gps_data) else
  if negb (valid (current_gps_data st)) then (STATUS_NO_DATA, gps_data) else
  (STATUS_OK, current_gps_data st).

Definition GPS_HasValidFix (st : GPSDriver) : bool :=
  gps_has_fix st && valid (current_gps_data st).

Definition GPS_RegisterCallback (callback : bool) (st : GPSDriver)
  : StatusCode_t * GPSDriver :=
  if negb (gps_initialized st) then (STATUS_NOT_INITIALIZED, st) else
  (STATUS_OK,
   mkGPS (current_gps_data st) (gps_initialized st) (gps_has_fix st)
         (last_fix_timestamp st) callback (callback_log st)).

Definition GPS_IsHealthy (st : GPSDriver) : bool :=
  if negb (gps_initialized st) then false else
  let current_time := 0 in  (* TODO: Get current system time *)
  if last_fix_timestamp st =? 0 then false else
  let elapsed := u32 (current_time - last_fix_timestamp st) in
  if GPS_TIMEOUT_MS <? elapsed then false else
  if satellites (current_gps_data st) <? GPS_MIN_SATELLITES then false
  else true.

Definition GPS_GetTimeSinceLastFix (st : GPSDriver) : Z :=
  if last_fix_timestamp st =? 0 then 0xFFFFFFFF else
  let current_time := 0 in  (* TODO: Get current system time *)
  u32 (current_time - last_fix_timestamp st).

Definition GPS_SetPowerState (enable : bool) (rx : GPSReceiver)
  : StatusCode_t * GPSReceiver :=
  if enable then
    if negb (gps_initialized (gps rx)) then GPS_Init GPS_UART_BAUDRATE rx
    else (STATUS_OK, rx)
  else (STATUS_OK, rx).

(** One byte from the UART.  [garbage] is what the local [gps_data] of the
    function holds before the parser fills it in; the answer is [None]
    where the parser has no defined outcome. *)
Definition GPS_UARTCallback (byte : ascii) (garbage : GPSData_t)
  (rx : GPSReceiver) : option GPSReceiver :=
  if Ascii.eqb byte "$" then
    (* Start of new sentence *)
    Some (mkReceiver (gps rx) (array_set (nmea_buffer rx) 0 byte) 1)
  else if Ascii.eqb byte LF then
    (* End of sentence *)
    let buffer :=
      array_set (nmea_buffer rx) (Z.to_nat (nmea_index rx)) NUL in
    match GPS_ParseNMEA (string_of_list_ascii buffer) garbage (gps rx) with
    | Some (_, _, st) => Some (mkReceiver st buffer 0)
    | None => None
    end
  else if nmea_index rx <? NMEA_BUFFER_SIZE - 1 then
    (* Accumulate character *)
    Some (mkReceiver (gps rx)
            (array_set (nmea_buffer rx) (Z.to_nat (nmea_index rx)) byte)
            (u16 (nmea_index rx + 1)))
  else
    (* Buffer overflow - reset *)
    Some (mkReceiver (gps rx) (nmea_buffer rx) 0).

(** The bytes of a line, one call each. *)
Fixpoint uart_feed (bytes : string) (garbage : GPSData_t) (rx : GPSReceiver)
  : option GPSReceiver :=
  match bytes with
  | EmptyString => Some rx
  | String byte rest =>
      match GPS_UARTCallback byte garbage rx with
      | Some rx' => uart_feed rest garbage rx'
      | None => None
      end
  end.

(** The sample sentences as lines of the UART, without their dollar
    sign, and a line of 130 bytes. *)
Definition line_gga : string :=
  "GPGGA,123519,4807.038,N,01131.000,E,1,08,0.9,545.4,M,46.9,M,,*47".

Definition line_long : string :=
  String.append line_gga line_gga.

(** The bytes between the dollar sign and the line feed of a line. *)
Fixpoint framed (body : string) : bool :=
  match body with
  | EmptyString => true
  | String c rest =>
      negb (Ascii.eqb c "$") && negb (Ascii.eqb c LF) && framed rest
  end.

(** The receiver once a line has overflowed the buffer: whatever it holds
    does not start with a dollar sign. *)
Definition dropped (rx : GPSReceiver) : Prop :=
  List.length (nmea_buffer rx) = Z.to_nat NMEA_BUFFER_SIZE /\
  (nmea_index rx = 0 \/
   (1 <= nmea_index rx <= NMEA_BUFFER_SIZE - 1 /\
    nth 0 (nmea_buffer rx) NUL <> "$"%char)).

(** What a program and the UART can do to the driver. *)
Inductive GPSOp : Type :=
| GpsInit (baudrate : Z)
| GpsDeinit
| GpsParse (sentence : string) (gps_data : GPSData_t)
| GpsRegister (callback : bool)
| GpsSetPower (enable : bool)
| GpsByte (byte : ascii) (garbage : GPSData_t).

Definition with_gps (rx : GPSReceiver) (st : GPSDriver) : GPSReceiver :=
  mkReceiver st (nmea_buffer rx) (nmea_index rx).

Definition gps_apply (rx : GPSReceiver) (op : GPSOp) : option GPSReceiver :=
  match op with
  | GpsInit baudrate => Some (snd (GPS_Init baudrate rx))
  | GpsDeinit => Some (with_gps rx (snd (GPS_Deinit (gps rx))))
  | GpsParse sentence gps_data =>
      match GPS_ParseNMEA sentence gps_data (gps rx) with
      | Some (_, _, st) => Some (with_gps rx st)
      | None => None
      end
  | GpsRegister callback =>
      Some (with_gps rx (snd (GPS_RegisterCallback callback (gps rx))))
  | GpsSetPower enable => Some (snd (GPS_SetPowerState enable rx))
  | GpsByte byte garbage => GPS_UARTCallback byte garbage rx
  end.

Fixpoint gps_run (ops : list GPSOp) (rx : GPSReceiver) : option GPSReceiver :=
  match ops with
  | [] => Some rx
  | op :: rest =>
      match gps_apply rx op with
      | Some rx' => gps_run rest rx'
      | None => None
      end
  end.

(** ** power_manager.c: the vectors of the modes and the drivers behind the
    calls

    [Power_ConfigurePeripherals] takes the mode as the value of the
    enumeration the caller passes, an unsigned integer.  [call_driver] is
    the driver function a recorded call stands for. *)
Definition PowerMode_of_Z (mode : Z) : option PowerMode_t :=
  if mode =? 0 then Some POWER_MODE_ACTIVE
  else if mode =? 1 then Some POWER_MODE_IDLE
  else if mode =? 2 then Some POWER_MODE_DEEP_SLEEP
  else None.

(** [states] is [None] for the null pointer.  A mode above 2 is refused by
    the test [mode >= 3]. *)
Definition Power_ConfigurePeripherals (mode : Z)
  (states : option PeripheralState_t) (st : PowerManager)
  : StatusCode_t * PowerManager :=
  match PowerMode_of_Z mode, states with
  | Some m, Some s =>
      (STATUS_OK,
       mkPower (current_mode st) (previous_mode st) (power_initialized st)
               (idle_timeout_ms st) (last_activity_time st)
               (mode_entry_time st) (time_active_ms st) (time_idle_ms st)
               (time_sleep_ms st) (cumulative_energy_mah st)
               (last_energy_update_time st) (wake_callbacks st)
               (fun m' => if PowerMode_eqb m' m then s
                          else peripheral_configs st m')
               (driver_calls st))
  | _, _ => (STATUS_INVALID_PARAM, st)
  end.

Record Drivers : Type := mkDrivers {
  can_driver : CANDriver;
  gps_driver : GPSReceiver;
  adc_driver : ADCDriver
}.

Definition call_driver (d : Drivers) (c : DriverCall) : Drivers :=
  match c with
  | SetPowerState COMPONENT_CAN enable =>
      mkDrivers (snd (CAN_SetPowerState enable (can_driver d)))
                (gps_driver d) (adc_driver d)
  | SetPowerState COMPONENT_GPS enable =>
      mkDrivers (can_driver d)
                (snd (GPS_SetPowerState enable (gps_driver d)))
                (adc_driver d)
  | SetPowerState COMPONENT_ADC enable =>
      mkDrivers (can_driver d) (gps_driver d)
                (snd (ADC_SetPowerState enable (adc_driver d)))
  | SetPowerState _ _ => d
  end.

Definition call_drivers (calls : list DriverCall) (d : Drivers) : Drivers :=
  fold_left call_driver calls d.

(** The changes of mode in a sequence of requests: a request for the mode
    the manager is in is none. *)
Fixpoint count_changes (modes : list PowerMode_t) (current : PowerMode_t)
  : nat :=
  match modes with
  | [] => O
  | mode :: rest =>
      if PowerMode_eqb mode current then count_changes rest current
      else S (count_changes rest mode)
  end.

(** ** Further notions of the record buffer

    Pushing a list of records one after the other, the last [n] elements of
    a list, and the operations other than [CircularBuffer_Init]. *)
Definition push_all (rs : list TelemetryRecord_t) (b : CircularBuffer_t)
  : CircularBuffer_t :=
  fold_left (fun b r => snd (CircularBuffer_Push b r)) rs b.

Definition last_n {A : Type} (n : nat) (l : list A) : list A :=
  skipn (List.length l - n) l.

Definition not_init (op : BufferOp) : bool :=
  match op with
  | OpInit => false
  | _ => true
  end.

(** ** Further notions of the CRC

    The register difference a changed byte introduces ([e] is the xor of the
    old and the new byte), and the integers [z], [z + 1], ..., [n] of them. *)
Definition byte_diff (e : Z) : Z :=
  Nat.iter 8 crc_shift (u16 (Z.shiftl (u16 e) 8)).

Fixpoint zrange (n : nat) (z : Z) : list Z :=
  match n with
  | O => []
  | S n' => z :: zrange n' (z + 1)
  end.

(* ===================================================================== *)
(** * Part II: the proofs                                                 *)
(* ===================================================================== *)

(** ** Bits *)

Section Bits.

Lemma mod_pow2_testbit w x n :
  0 <= w -> Z.testbit (x mod 2 ^ w) n = (n <? w) && Z.testbit x n.
Proof.
  intros Hw. destruct (Z.ltb_spec n w) as [Hlt | Hge].
  - rewrite andb_true_l. destruct (Z.lt_ge_cases n 0) as [Hn | Hn].
    + rewrite !Z.testbit_neg_r by lia. reflexivity.
    + apply Z.mod_pow2_bits_low. lia.
  - rewrite andb_false_l. apply Z.mod_pow2_bits_high. lia.
Qed.

Lemma mod_pow2_lxor w x y :
  0 <= w -> Z.lxor x y mod 2 ^ w = Z.lxor (x mod 2 ^ w) (y mod 2 ^ w).
Proof.
  intros Hw. apply Z.bits_inj'. intros n _.
  rewrite Z.lxor_spec, !mod_pow2_testbit, Z.lxor_spec by exact Hw.
  destruct (n <? w); reflexivity.
Qed.

Lemma lxor_below_pow2 w x y :
  0 <= w -> 0 <= x < 2 ^ w -> 0 <= y < 2 ^ w -> 0 <= Z.lxor x y < 2 ^ w.
Proof.
  intros Hw Hx Hy.
  rewrite <- (Z.mod_small x (2 ^ w) Hx), <- (Z.mod_small y (2 ^ w) Hy).
  rewrite <- mod_pow2_lxor by exact Hw. apply Z.mod_pos_bound. lia.
Qed.

Lemma lxor_cancel_l a b c : Z.lxor a b = Z.lxor a c -> b = c.
Proof.
  intros H. apply (f_equal (Z.lxor a)) in H.
  rewrite <- !Z.lxor_assoc, Z.lxor_nilpotent, !Z.lxor_0_l in H. exact H.
Qed.

End Bits.

(** ** The CRC engine *)

Section CRC.

Lemma u16_range x : 0 <= u16 x < 65536.
Proof. unfold u16. change (2 ^ 16) with 65536. apply Z.mod_pos_bound. lia. Qed.

Lemma u16_small x : 0 <= x < 65536 -> u16 x = x.
Proof. intros H. unfold u16. apply Z.mod_small. exact H. Qed.

Lemma u16_testbit x n :
  Z.testbit (u16 x) n = (n <? 16) && Z.testbit x n.
Proof. apply mod_pow2_testbit. lia. Qed.

Lemma u16_lxor x y : u16 (Z.lxor x y) = Z.lxor (u16 x) (u16 y).
Proof. apply mod_pow2_lxor. lia. Qed.

Lemma lxor_range x y :
  0 <= x < 65536 -> 0 <= y < 65536 -> 0 <= Z.lxor x y < 65536.
Proof.
  intros Hx Hy. rewrite <- (u16_small x Hx), <- (u16_small y Hy), <- u16_lxor.
  apply u16_range.
Qed.

(** The test [crc & 0x8000] reads bit 15. *)
Lemma land_0x8000 crc : (Z.land crc 0x8000 =? 0) = negb (Z.testbit crc 15).
Proof.
  destruct (Z.testbit crc 15) eqn:Hb; simpl.
  - apply Z.eqb_neq. intros H0.
    assert (Ht : Z.testbit (Z.land crc 0x8000) 15 = true).
    { rewrite Z.land_spec, Hb. reflexivity. }
    rewrite H0 in Ht. discriminate.
  - apply Z.eqb_eq. apply Z.bits_inj'. intros n Hn.
    rewrite Z.land_spec, Z.bits_0.
    destruct (Z.eq_dec n 15) as [-> | Hne].
    + rewrite Hb. reflexivity.
    + change 0x8000 with (2 ^ 15). rewrite Z.pow2_bits_false by lia.
      apply andb_false_r.
Qed.

Lemma crc_shift_eq crc :
  crc_shift crc = u16 (Z.lxor (Z.shiftl crc 1) (feedback (Z.testbit crc 15))).
Proof.
  unfold crc_shift. rewrite land_0x8000.
  destruct (Z.testbit crc 15); simpl; [reflexivity |].
  rewrite Z.lxor_0_r. reflexivity.
Qed.

Lemma crc_shift_range crc : 0 <= crc_shift crc < 65536.
Proof. rewrite crc_shift_eq. apply u16_range. Qed.

Lemma feedback_xorb a b :
  feedback (xorb a b) = Z.lxor (feedback a) (feedback b).
Proof. destruct a, b; reflexivity. Qed.

(** The shift is linear over xor. *)
Lemma crc_shift_lxor x y :
  crc_shift (Z.lxor x y) = Z.lxor (crc_shift x) (crc_shift y).
Proof.
  rewrite !crc_shift_eq, <- u16_lxor. f_equal.
  rewrite Z.lxor_spec, feedback_xorb, Z.shiftl_lxor.
  rewrite !Z.lxor_assoc. f_equal.
  rewrite <- !Z.lxor_assoc. f_equal. apply Z.lxor_comm.
Qed.

Lemma iter_crc_shift_lxor n x y :
  Nat.iter n crc_shift (Z.lxor x y) =
  Z.lxor (Nat.iter n crc_shift x) (Nat.iter n crc_shift y).
Proof.
  induction n as [| n IH]; simpl; [reflexivity |].
  rewrite IH. apply crc_shift_lxor.
Qed.

Lemma iter_crc_shift_range n x :
  0 <= x < 65536 -> 0 <= Nat.iter n crc_shift x < 65536.
Proof.
  intros Hx. destruct n as [| n]; simpl; [exact Hx | apply crc_shift_range].
Qed.

Lemma testbit_above_u16 x n : 0 <= x < 65536 -> 16 <= n -> Z.testbit x n = false.
Proof.
  intros Hx Hn. rewrite <- (u16_small x Hx), u16_testbit.
  destruct (Z.ltb_spec n 16); [lia | reflexivity].
Qed.

(** The polynomial has constant term 1, so the shift sends no other
    register value than 0 to 0. *)
Lemma crc_shift_zero x : 0 <= x < 65536 -> crc_shift x = 0 -> x = 0.
Proof.
  intros Hx H0. rewrite crc_shift_eq in H0.
  assert (Hbit : forall n, 0 <= n < 16 ->
            xorb (Z.testbit x (n - 1))
                 (Z.testbit (feedback (Z.testbit x 15)) n) = false).
  { intros n Hn.
    assert (Ht := f_equal (fun z => Z.testbit z n) H0). cbv beta in Ht.
    rewrite u16_testbit, Z.lxor_spec, Z.bits_0 in Ht.
    rewrite Z.shiftl_spec in Ht by lia.
    destruct (Z.ltb_spec n 16); [exact Ht | lia]. }
  assert (H15 : Z.testbit x 15 = false).
  { specialize (Hbit 0 ltac:(lia)). rewrite Z.testbit_neg_r in Hbit by lia.
    destruct (Z.testbit x 15); [discriminate Hbit | reflexivity]. }
  rewrite H15 in Hbit. simpl feedback in Hbit.
  apply Z.bits_inj'. intros n Hn. rewrite Z.bits_0.
  destruct (Z.lt_ge_cases n 15) as [Hlt | Hge].
  - specialize (Hbit (n + 1) ltac:(lia)).
    rewrite Z.bits_0, xorb_false_r in Hbit.
    replace (n + 1 - 1) with n in Hbit by lia. exact Hbit.
  - destruct (Z.eq_dec n 15) as [-> | Hne]; [exact H15 |].
    apply testbit_above_u16; [exact Hx | lia].
Qed.

Lemma iter_crc_shift_nonzero n x :
  0 <= x < 65536 -> x <> 0 -> Nat.iter n crc_shift x <> 0.
Proof.
  induction n as [| n IH]; simpl; intros Hx Hne; [exact Hne |].
  intros H0. apply crc_shift_zero in H0.
  - exact (IH Hx Hne H0).
  - apply iter_crc_shift_range. exact Hx.
Qed.

Lemma crc_byte_range crc b : 0 <= crc_byte crc b < 65536.
Proof. unfold crc_byte. apply iter_crc_shift_range, u16_range. Qed.

Lemma fold_crc_byte_range data crc :
  0 <= crc < 65536 -> 0 <= fold_left crc_byte data crc < 65536.
Proof.
  revert crc. induction data as [| b data IH]; cbn [fold_left]; intros crc Hc.
  - exact Hc.
  - apply IH, crc_byte_range.
Qed.

(** A difference [d] between two register values survives a byte as the
    eight-fold shift of [d]. *)
Lemma crc_byte_lxor crc d b :
  crc_byte (Z.lxor crc d) b =
  Z.lxor (crc_byte crc b) (Nat.iter 8 crc_shift (u16 d)).
Proof.
  unfold crc_byte. rewrite <- iter_crc_shift_lxor. f_equal.
  rewrite <- u16_lxor. f_equal.
  rewrite !Z.lxor_assoc. f_equal. apply Z.lxor_comm.
Qed.

Lemma carry_diff_nonzero data d :
  0 <= d < 65536 -> d <> 0 ->
  0 <= carry_diff data d < 65536 /\ carry_diff data d <> 0.
Proof.
  unfold carry_diff. revert d.
  induction data as [| b data IH]; cbn [fold_left]; intros d Hd Hne.
  - split; assumption.
  - apply IH.
    + apply iter_crc_shift_range, u16_range.
    + rewrite u16_small by exact Hd.
      apply (iter_crc_shift_nonzero 8); assumption.
Qed.

Lemma fold_crc_byte_lxor data crc d :
  fold_left crc_byte data (Z.lxor crc d) =
  Z.lxor (fold_left crc_byte data crc) (carry_diff data d).
Proof.
  unfold carry_diff. revert crc d.
  induction data as [| b data IH]; cbn [fold_left]; intros crc d;
    [reflexivity |].
  rewrite crc_byte_lxor. apply IH.
Qed.

Lemma lxor_nonzero_neq a d : d <> 0 -> Z.lxor a d <> a.
Proof.
  intros Hd Heq. apply Hd.
  assert (H : Z.lxor a (Z.lxor a d) = Z.lxor a a) by (rewrite Heq; reflexivity).
  rewrite <- Z.lxor_assoc, Z.lxor_nilpotent, Z.lxor_0_l in H. exact H.
Qed.

(** The register difference a flipped bit [k] of a byte introduces. *)
Lemma crc_byte_flip crc b k :
  crc_byte crc (Z.lxor b (Z.shiftl 1 k)) =
  Z.lxor (crc_byte crc b)
         (Nat.iter 8 crc_shift (u16 (Z.shiftl (u16 (Z.shiftl 1 k)) 8))).
Proof.
  unfold crc_byte. rewrite <- iter_crc_shift_lxor. f_equal.
  rewrite (u16_lxor b), Z.shiftl_lxor, <- Z.lxor_assoc. apply u16_lxor.
Qed.

Lemma u16_shiftl_u16 x k : 0 <= k -> u16 (Z.shiftl (u16 x) k) = u16 (Z.shiftl x k).
Proof.
  intros Hk. apply Z.bits_inj'. intros n Hn.
  rewrite !u16_testbit, !Z.shiftl_spec by exact Hn.
  destruct (Z.ltb_spec n 16) as [Hlt | Hge]; [| reflexivity].
  rewrite !andb_true_l.
  destruct (Z.lt_ge_cases (n - k) 0) as [Hneg | Hpos].
  - rewrite !Z.testbit_neg_r by exact Hneg. reflexivity.
  - rewrite u16_testbit.
    destruct (Z.ltb_spec (n - k) 16); [reflexivity | lia].
Qed.

Lemma u16_feedback b : u16 (feedback b) = feedback b.
Proof. destruct b; reflexivity. Qed.

(** The reference step is the shift of the register with the message bit
    xored into its top position. *)
Lemma ccitt_bit_as_shift reg b :
  ccitt_bit reg b = crc_shift (Z.lxor reg (if b then 0x8000 else 0)).
Proof.
  unfold ccitt_bit. rewrite crc_shift_eq.
  rewrite Z.lxor_spec, Z.shiftl_lxor, !u16_lxor, u16_feedback.
  replace (Z.testbit (if b then 0x8000 else 0) 15) with b
    by (destruct b; reflexivity).
  replace (u16 (Z.shiftl (if b then 0x8000 else 0) 1)) with 0
    by (destruct b; reflexivity).
  rewrite Z.lxor_0_r.
  replace (u16 (Z.shiftl reg 1)) with ((2 * reg) mod 2 ^ 16).
  - destruct (xorb (Z.testbit reg 15) b); simpl feedback;
      [reflexivity | rewrite Z.lxor_0_r; reflexivity].
  - unfold u16. rewrite Z.shiftl_mul_pow2 by lia. f_equal. lia.
Qed.

Lemma crc_shift_top_bit (b : bool) : crc_shift (if b then 0x8000 else 0) = feedback b.
Proof. destruct b; reflexivity. Qed.

Lemma crc_shift_pending byte j :
  0 <= j ->
  crc_shift (pending byte j) =
  Z.lxor (pending byte (j + 1)) (feedback (Z.testbit byte (7 - j))).
Proof.
  intros Hj. unfold pending. rewrite crc_shift_eq, u16_lxor, u16_feedback.
  rewrite u16_shiftl_u16, Z.shiftl_shiftl by lia.
  rewrite u16_testbit, Z.shiftl_spec by lia.
  replace (8 + j + 1) with (8 + (j + 1)) by lia.
  replace (15 - (8 + j)) with (7 - j) by lia.
  reflexivity.
Qed.

(** After [n] shifts the register of the code is the register of the
    reference that has consumed [n] message bits, xored with the bits of the
    byte still waiting in the upper half. *)
Lemma iter_crc_shift_pending byte n : forall j reg,
  0 <= j ->
  Nat.iter n crc_shift (Z.lxor reg (pending byte j)) =
  Z.lxor (fold_left ccitt_bit (bits_from byte j n) reg)
         (pending byte (j + Z.of_nat n)).
Proof.
  induction n as [| n IH]; intros j reg Hj.
  - cbn [Nat.iter bits_from fold_left]. rewrite Z.add_0_r. reflexivity.
  - rewrite Nat.iter_succ_r. cbn [bits_from fold_left].
    rewrite crc_shift_lxor, crc_shift_pending by exact Hj.
    rewrite ccitt_bit_as_shift, crc_shift_lxor, crc_shift_top_bit.
    replace (j + Z.of_nat (S n)) with (j + 1 + Z.of_nat n) by lia.
    rewrite <- IH by lia. f_equal.
    rewrite !Z.lxor_assoc. f_equal. apply Z.lxor_comm.
Qed.

Lemma pending_8 byte : pending byte 8 = 0.
Proof.
  unfold pending. apply Z.bits_inj'. intros n Hn.
  rewrite u16_testbit, Z.shiftl_spec, Z.bits_0 by exact Hn.
  destruct (Z.ltb_spec n 16) as [Hlt | Hge]; [| reflexivity].
  rewrite Z.testbit_neg_r by lia. reflexivity.
Qed.

Lemma crc_byte_ccitt crc byte :
  0 <= crc < 65536 ->
  crc_byte crc byte = fold_left ccitt_bit (msb_first byte) crc.
Proof.
  intros Hc. unfold crc_byte.
  rewrite u16_lxor, (u16_small crc Hc), u16_shiftl_u16 by lia.
  change (u16 (Z.shiftl byte 8)) with (pending byte 0).
  rewrite iter_crc_shift_pending by lia.
  change (0 + Z.of_nat 8) with 8. rewrite pending_8, Z.lxor_0_r.
  reflexivity.
Qed.

Lemma fold_crc_byte_ccitt data : forall crc,
  0 <= crc < 65536 ->
  fold_left crc_byte data crc =
  fold_left ccitt_bit (flat_map msb_first data) crc.
Proof.
  induction data as [| b data IH]; intros crc Hc; [reflexivity |].
  cbn [fold_left flat_map]. rewrite fold_left_app.
  rewrite <- crc_byte_ccitt by exact Hc.
  apply IH, crc_byte_range.
Qed.

Lemma flip_bit_changes_fold data : forall i crc k,
  (i < List.length data)%nat -> 0 <= k < 8 ->
  fold_left crc_byte (flip_bit data i k) crc <> fold_left crc_byte data crc.
Proof.
  induction data as [| b data IH]; intros i crc k Hi Hk;
    [simpl in Hi; lia |].
  destruct i as [| i]; cbn [flip_bit fold_left].
  - rewrite crc_byte_flip, fold_crc_byte_lxor.
    apply lxor_nonzero_neq.
    assert (Hbit : 0 <= u16 (Z.shiftl (u16 (Z.shiftl 1 k)) 8) < 65536 /\
                   u16 (Z.shiftl (u16 (Z.shiftl 1 k)) 8) <> 0).
    { split; [apply u16_range |].
      rewrite u16_shiftl_u16, Z.shiftl_shiftl by lia.
      rewrite Z.shiftl_1_l. unfold u16.
      assert (2 ^ (k + 8) < 2 ^ 16) by (apply Z.pow_lt_mono_r; lia).
      assert (0 < 2 ^ (k + 8)) by (apply Z.pow_pos_nonneg; lia).
      rewrite Z.mod_small by lia. lia. }
    destruct Hbit as [Hr Hnz].
    apply carry_diff_nonzero.
    + apply iter_crc_shift_range. exact Hr.
    + apply iter_crc_shift_nonzero; assumption.
  - apply IH; [simpl in Hi; lia | exact Hk].
Qed.

(** C6: the CRC routine computes CRC-16/CCITT-FALSE (polynomial 0x1021,
    initial register 0xFFFF, most significant bit first, no final xor); it
    is a function of its input bytes alone; and flipping any single bit of
    the covered bytes changes the 16-bit code. *)
Theorem C6_crc16_is_ccitt_false_and_detects_bit_flips :
  (forall data, Calculate_CRC16 data = crc16_ccitt_false data) /\
  (forall data data', data = data' ->
     Calculate_CRC16 data = Calculate_CRC16 data') /\
  (forall data i k, (i < List.length data)%nat -> 0 <= k < 8 ->
     Calculate_CRC16 (flip_bit data i k) <> Calculate_CRC16 data).
Proof.
  split; [| split].
  - intros data. apply fold_crc_byte_ccitt. lia.
  - intros data data' Heq. rewrite Heq. reflexivity.
  - intros data i k Hi Hk. apply flip_bit_changes_fold; assumption.
Qed.

(** The catalogue check value of CRC-16/CCITT-FALSE: the code of the nine
    ASCII digits 1 to 9 is 0x29B1, for the routine and for the reference. *)
Example Calculate_CRC16_check_value :
  Calculate_CRC16 [49; 50; 51; 52; 53; 54; 55; 56; 57] = 0x29B1 /\
  crc16_ccitt_false [49; 50; 51; 52; 53; 54; 55; 56; 57] = 0x29B1.
Proof. vm_compute. split; reflexivity. Qed.

Lemma C6_witness :
  Calculate_CRC16 (flip_bit [49; 50; 51] 1 6) <> Calculate_CRC16 [49; 50; 51].
Proof.
  apply (proj2 (proj2 C6_crc16_is_ccitt_false_and_detects_bit_flips)).
  - simpl. lia.
  - lia.
Defined.

End CRC.

(** ** The record buffer *)

Section Buffer.

Local Abbreviation N := TELEMETRY_BUFFER_SIZE.

Lemma N_val : N = 2048.
Proof. reflexivity. Qed.

Local Opaque TELEMETRY_BUFFER_SIZE.

(** Index arithmetic: every goal left is linear once [N] and the moduli are
    numerals. *)
Ltac index_arith :=
  unfold u32 in *; rewrite ?N_val in *;
  change (2 ^ 32) with 4294967296 in *;
  Z.div_mod_to_equations; lia.

Lemma next_index r : 0 <= r < N -> u32 (r + 1) mod N = (r + 1) mod N.
Proof. intros H. index_arith. Qed.

Lemma index_range r : 0 <= r mod N < N.
Proof. index_arith. Qed.

Lemma index_distinct r j k :
  0 <= j < k -> k < N + j -> (r + j) mod N <> (r + k) mod N.
Proof. intros Hj Hk. index_arith. Qed.

Lemma index_shift r k : ((r + 1) mod N + k) mod N = (r + (k + 1)) mod N.
Proof. index_arith. Qed.

Lemma index_wrap r : 0 <= r < N -> (r + N) mod N = r.
Proof. intros H. index_arith. Qed.

(** Array slots. *)
Lemma length_store rs i r : List.length (store rs i r) = List.length rs.
Proof.
  revert i. induction rs as [| x rs IH]; intros [| i]; simpl; auto.
Qed.

Lemma nth_store_same rs i r :
  (i < List.length rs)%nat -> nth i (store rs i r) zero_record = r.
Proof.
  revert i. induction rs as [| x rs IH]; intros [| i] Hi; simpl in *;
    try lia; auto. apply IH. lia.
Qed.

Lemma nth_store_other rs i j r :
  i <> j -> nth j (store rs i r) zero_record = nth j rs zero_record.
Proof.
  revert i j. induction rs as [| x rs IH]; intros [| i] [| j] Hne; simpl;
    try reflexivity; try congruence.
  apply IH. congruence.
Qed.

Lemma slot_get_set_same rs i r :
  0 <= i < Z.of_nat (List.length rs) -> slot_get (slot_set rs i r) i = r.
Proof.
  intros Hi. unfold slot_get, slot_set. apply nth_store_same. lia.
Qed.

Lemma slot_get_set_other rs i j r :
  0 <= i -> 0 <= j -> i <> j ->
  slot_get (slot_set rs i r) j = slot_get rs j.
Proof.
  intros Hi Hj Hne. unfold slot_get, slot_set. apply nth_store_other. lia.
Qed.

Lemma length_slot_set rs i r :
  List.length (slot_set rs i r) = List.length rs.
Proof. apply length_store. Qed.

Lemma map_seq_succ {A} (f : nat -> A) n :
  map f (seq 0 (S n)) = f 0%nat :: map (fun k => f (S k)) (seq 0 n).
Proof. simpl. rewrite <- seq_shift, map_map. reflexivity. Qed.

Lemma map_seq_last {A} (f : nat -> A) n :
  map f (seq 0 (S n)) = map f (seq 0 n) ++ [f n].
Proof. rewrite seq_S, map_app. reflexivity. Qed.

(** *** The invariant *)

Lemma Init_wf raw : buffer_wf (snd (CircularBuffer_Init raw)).
Proof.
  constructor; cbn [CircularBuffer_Init snd records write_index read_index
                    count overflow_count initialized].
  - reflexivity.
  - rewrite repeat_length. rewrite N_val. reflexivity.
  - rewrite N_val. lia.
  - rewrite N_val. lia.
  - rewrite N_val. reflexivity.
  - lia.
Qed.

Lemma length_contents b : 0 <= count b ->
  Z.of_nat (List.length (contents b)) = count b.
Proof.
  intros H. unfold contents. rewrite length_map, length_seq. lia.
Qed.

Lemma contents_empty b : count b = 0 -> contents b = [].
Proof. intros H. unfold contents. rewrite H. reflexivity. Qed.

(** A push into a buffer that is not full. *)
Lemma Push_not_full b r :
  buffer_wf b -> count b < N ->
  exists b', CircularBuffer_Push b r = (STATUS_OK, b') /\
             buffer_wf b' /\
             count b' = count b + 1 /\
             overflow_count b' = overflow_count b /\
             contents b' = contents b ++ [r].
Proof.
  intros [Hi Hl Hr Hc Hw Ho] Hlt.
  unfold CircularBuffer_Push. rewrite Hi. cbn [negb].
  destruct (Z.leb_spec N (count b)) as [Hge | _]; [lia |].
  eexists. split; [reflexivity |].
  assert (Hwr : 0 <= write_index b < N) by (rewrite Hw; apply index_range).
  assert (Hcnt : u32 (count b + 1) = count b + 1) by index_arith.
  split; [| split; [| split]].
  - constructor; cbn [records write_index read_index count overflow_count
                      initialized]; auto.
    + rewrite length_slot_set. exact Hl.
    + rewrite Hcnt. lia.
    + rewrite Hcnt, next_index, Hw by exact Hwr. index_arith.
  - exact Hcnt.
  - reflexivity.
  - unfold contents.
    cbn [records write_index read_index count overflow_count initialized].
    rewrite Hcnt.
    replace (Z.to_nat (count b + 1)) with (S (Z.to_nat (count b))) by lia.
    rewrite map_seq_last. f_equal.
    + apply map_ext_in. intros k Hk. apply in_seq in Hk.
      apply slot_get_set_other.
      * lia.
      * apply index_range.
      * rewrite Hw. intros Heq. symmetry in Heq. revert Heq.
        apply index_distinct; lia.
    + f_equal. rewrite Z2Nat.id by lia. rewrite <- Hw.
      apply slot_get_set_same. lia.
Qed.

(** A push into a full buffer. *)
Lemma Push_full b r :
  buffer_wf b -> count b = N ->
  exists b', CircularBuffer_Push b r = (STATUS_OK, b') /\
             buffer_wf b' /\
             count b' = N /\
             overflow_count b' = u32 (overflow_count b + 1) /\
             contents b' = tl (contents b) ++ [r].
Proof.
  intros [Hi Hl Hr Hc Hw Ho] Hfull.
  unfold CircularBuffer_Push. rewrite Hi. cbn [negb].
  destruct (Z.leb_spec N (count b)) as [_ | Hlt]; [| lia].
  cbn [records write_index read_index count overflow_count initialized].
  eexists. split; [reflexivity |].
  assert (Hwr : write_index b = read_index b)
    by (rewrite Hw, Hfull; apply index_wrap; exact Hr).
  assert (Hcnt : u32 (u32 (count b - 1) + 1) = N) by index_arith.
  split; [| split; [| split]].
  - constructor; cbn [records write_index read_index count overflow_count
                      initialized]; auto.
    + rewrite length_slot_set. exact Hl.
    + rewrite next_index by exact Hr. apply index_range.
    + rewrite Hcnt. rewrite N_val. lia.
    + rewrite Hcnt, Hwr, !next_index by exact Hr. index_arith.
    + unfold u32. apply Z.mod_pos_bound. lia.
  - exact Hcnt.
  - reflexivity.
  - unfold contents.
    cbn [records write_index read_index count overflow_count initialized].
    rewrite Hcnt, Hfull.
    assert (HN : Z.to_nat N = S (Z.to_nat (N - 1))) by (rewrite N_val; lia).
    rewrite HN, map_seq_last. rewrite map_seq_succ. cbn [tl]. f_equal.
    + apply map_ext_in. intros k Hk. apply in_seq in Hk.
      rewrite next_index, index_shift by exact Hr.
      replace (Z.of_nat k + 1) with (Z.of_nat (S k)) by lia.
      apply slot_get_set_other.
      * lia.
      * apply index_range.
      * rewrite Hwr. rewrite <- (index_wrap (read_index b) Hr) at 1.
        intros Heq. revert Heq.
        replace (read_index b + N) with (read_index b + Z.of_nat (S k) +
          (N - Z.of_nat (S k))) by lia.
        replace (read_index b + Z.of_nat (S k)) with
          (read_index b + Z.of_nat (S k) + 0) at 2 by lia.
        intros Heq. symmetry in Heq. revert Heq.
        apply index_distinct; rewrite ?N_val in *; lia.
    + f_equal. rewrite next_index, index_shift by exact Hr.
      replace (Z.of_nat (Z.to_nat (N - 1)) + 1) with N
        by (rewrite N_val; lia).
      rewrite index_wrap by exact Hr. rewrite Hwr.
      apply slot_get_set_same. lia.
Qed.

(** A pop from a buffer that holds a record. *)
Lemma Pop_not_empty b record :
  buffer_wf b -> 0 < count b ->
  exists b' x xs,
    contents b = x :: xs /\
    x = slot_get (records b) (read_index b) /\
    CircularBuffer_Pop b record = (STATUS_OK, b', x) /\
    buffer_wf b' /\
    count b' = count b - 1 /\
    overflow_count b' = overflow_count b /\
    records b' = records b /\
    contents b' = xs.
Proof.
  intros [Hi Hl Hr Hc Hw Ho] Hpos.
  unfold CircularBuffer_Pop. rewrite Hi. cbn [negb].
  destruct (Z.eqb_spec (count b) 0) as [H0 | _]; [lia |].
  assert (Hcnt : u32 (count b - 1) = count b - 1) by index_arith.
  assert (Hsucc : Z.to_nat (count b) = S (Z.to_nat (count b - 1))) by lia.
  do 3 eexists. split; [| split; [| split; [reflexivity |]]].
  - unfold contents. rewrite Hsucc, map_seq_succ. f_equal.
    cbn [Z.of_nat]. rewrite Z.add_0_r. f_equal.
    apply Z.mod_small. exact Hr.
  - reflexivity.
  - split; [| split; [| split; [| split]]].
    + constructor; cbn [records write_index read_index count overflow_count
                        initialized]; auto.
      * rewrite next_index by exact Hr. apply index_range.
      * rewrite Hcnt. lia.
      * rewrite Hcnt, Hw, next_index by exact Hr. index_arith.
    + exact Hcnt.
    + reflexivity.
    + reflexivity.
    + unfold contents.
      cbn [records write_index read_index count overflow_count initialized].
      rewrite Hcnt. apply map_ext. intros k.
      rewrite next_index, index_shift by exact Hr. f_equal. f_equal. lia.
Qed.

Lemma Pop_empty b record :
  buffer_wf b -> count b = 0 ->
  CircularBuffer_Pop b record = (STATUS_NO_DATA, b, record).
Proof.
  intros Hwf H0. unfold CircularBuffer_Pop.
  rewrite (wf_init _ Hwf), H0. reflexivity.
Qed.

Lemma Pop_wf b record :
  buffer_wf b -> buffer_wf (snd (fst (CircularBuffer_Pop b record))).
Proof.
  intros Hwf. destruct (Z.eq_dec (count b) 0) as [H0 | Hne].
  - rewrite Pop_empty by assumption. exact Hwf.
  - destruct (Pop_not_empty b record Hwf) as (b' & x & xs & _ & _ & -> & H & _).
    + pose proof (wf_count _ Hwf). lia.
    + exact H.
Qed.

Lemma Push_wf b r :
  buffer_wf b -> buffer_wf (snd (CircularBuffer_Push b r)).
Proof.
  intros Hwf. pose proof (wf_count _ Hwf) as Hc.
  destruct (Z.eq_dec (count b) N) as [Hfull | Hne].
  - destruct (Push_full b r Hwf Hfull) as (b' & -> & H & _). exact H.
  - destruct (Push_not_full b r Hwf) as (b' & -> & H & _); [lia | exact H].
Qed.

Lemma Peek_unchanged b record offset :
  snd (fst (CircularBuffer_Peek b record offset)) = b.
Proof.
  unfold CircularBuffer_Peek.
  destruct (negb (initialized b)); [reflexivity |].
  destruct (count b <=? offset); reflexivity.
Qed.

Lemma Clear_wf b : buffer_wf b -> buffer_wf (snd (CircularBuffer_Clear b)).
Proof.
  intros [Hi Hl Hr Hc Hw Ho]. unfold CircularBuffer_Clear. rewrite Hi.
  cbn [negb snd].
  constructor; cbn [records write_index read_index count overflow_count
                    initialized]; auto.
  - rewrite N_val. lia.
  - rewrite N_val. lia.
Qed.

(** The batch loop pops the first [remaining] records, or all of them when
    there are fewer, and copies them to the caller's array in order. *)
Lemma pop_batch_loop_spec remaining : forall b out i n,
  buffer_wf b ->
  let taken := firstn remaining (contents b) in
  exists b',
    pop_batch_loop remaining b out i n =
      (n + Z.of_nat (List.length taken), b', write_out out i taken) /\
    buffer_wf b' /\
    contents b' = skipn remaining (contents b) /\
    count b' = count b - Z.of_nat (List.length taken) /\
    overflow_count b' = overflow_count b.
Proof.
  induction remaining as [| remaining IH]; intros b out i n Hwf taken.
  - exists b. subst taken. cbn [pop_batch_loop firstn skipn List.length write_out].
    rewrite Z.add_0_r, Z.sub_0_r. auto.
  - pose proof (wf_count _ Hwf) as Hc.
    destruct (Z.eq_dec (count b) 0) as [H0 | Hne].
    + exists b. subst taken. cbn [pop_batch_loop].
      rewrite Pop_empty by assumption.
      rewrite (contents_empty b H0).
      cbn [firstn skipn List.length write_out].
      rewrite Z.add_0_r, Z.sub_0_r. auto.
    + destruct (Pop_not_empty b (slot_get out i) Hwf ltac:(lia))
        as (b1 & x & xs & Hcont & _ & Hpop & Hwf1 & Hc1 & Ho1 & _ & Hxs).
      destruct (IH b1 (slot_set out i x) (i + 1) (n + 1) Hwf1)
        as (b' & Hloop & Hwf' & Hcont' & Hc' & Ho').
      exists b'. subst taken. cbn [pop_batch_loop].
      rewrite Hpop, Hloop, Hcont, Hxs.
      cbn [firstn skipn List.length write_out].
      rewrite Hxs in Hcont', Hc'.
      split; [f_equal; f_equal; lia |].
      split; [exact Hwf' |]. split; [exact Hcont' |].
      split; [lia | congruence].
Qed.

Lemma PopBatch_wf b out max_count :
  buffer_wf b ->
  buffer_wf (snd (fst (CircularBuffer_PopBatch b out max_count))).
Proof.
  intros Hwf. unfold CircularBuffer_PopBatch.
  destruct (max_count =? 0); [exact Hwf |].
  destruct (negb (initialized b)); [exact Hwf |].
  destruct (pop_batch_loop_spec (Z.to_nat max_count) b out 0 0 Hwf)
    as (b' & -> & H & _). exact H.
Qed.

Lemma apply_op_wf b op : buffer_wf b -> buffer_wf (apply_op b op).
Proof.
  intros Hwf. destruct op; cbn [apply_op].
  - apply Init_wf.
  - apply Push_wf, Hwf.
  - apply Pop_wf, Hwf.
  - rewrite Peek_unchanged. exact Hwf.
  - apply PopBatch_wf, Hwf.
  - apply Clear_wf, Hwf.
Qed.

Lemma run_ops_wf ops : forall b, buffer_wf b -> buffer_wf (run_ops ops b).
Proof.
  unfold run_ops. induction ops as [| op ops IH]; intros b Hwf;
    cbn [fold_left]; [exact Hwf |].
  apply IH, apply_op_wf, Hwf.
Qed.

Lemma initialized_buffer_wf b : initialized_buffer b -> buffer_wf b.
Proof.
  intros (raw & ops & ->). apply run_ops_wf, Init_wf.
Qed.

Lemma write_out_length rs : forall out i,
  List.length (write_out out i rs) = List.length out.
Proof.
  induction rs as [| r rs IH]; intros out i; cbn [write_out];
    [reflexivity |].
  rewrite IH. apply length_slot_set.
Qed.

Lemma write_out_get_before rs : forall out i j,
  0 <= j < i -> slot_get (write_out out i rs) j = slot_get out j.
Proof.
  induction rs as [| r rs IH]; intros out i j Hj; cbn [write_out];
    [reflexivity |].
  rewrite IH by lia. apply slot_get_set_other; lia.
Qed.

Lemma write_out_get rs : forall out i k,
  0 <= i -> i + Z.of_nat (List.length rs) <= Z.of_nat (List.length out) ->
  (k < List.length rs)%nat ->
  slot_get (write_out out i rs) (i + Z.of_nat k) = nth k rs zero_record.
Proof.
  induction rs as [| r rs IH]; intros out i k Hi Hlen Hk;
    cbn [List.length] in *; [lia |].
  cbn [write_out]. destruct k as [| k].
  - rewrite Z.add_0_r, write_out_get_before by lia.
    apply slot_get_set_same. lia.
  - replace (i + Z.of_nat (S k)) with (i + 1 + Z.of_nat k) by lia.
    rewrite IH; [reflexivity | lia | rewrite length_slot_set; lia | lia].
Qed.

Lemma write_out_prefix out rs :
  Z.of_nat (List.length rs) <= Z.of_nat (List.length out) ->
  firstn (List.length rs) (write_out out 0 rs) = rs.
Proof.
  intros Hlen. apply (nth_ext _ _ zero_record zero_record).
  - rewrite length_firstn, write_out_length. lia.
  - intros k Hk. rewrite length_firstn, write_out_length in Hk.
    rewrite nth_firstn.
    destruct (Nat.ltb_spec k (List.length rs)) as [Hlt | Hge]; [| lia].
    rewrite <- (write_out_get rs out 0 k) by lia.
    unfold slot_get. f_equal. lia.
Qed.

(** The packed structure has 4 + 5 * 4 + 4 * 1 + 2 = 30 bytes, the last two
    of them the CRC field. *)
Lemma length_record_bytes r : List.length (record_bytes r) = 30%nat.
Proof. reflexivity. Qed.

Lemma record_bytes_crc r : skipn 28 (record_bytes r) = le_bytes 2 (crc16 r).
Proof. reflexivity. Qed.

(** C1: whatever operations an initialised buffer has gone through, its
    count lies between 0 and the capacity; a push always answers
    [STATUS_OK]; at capacity it drops exactly the oldest record, keeps the
    count at the capacity and adds one to the 32-bit overflow counter; below
    capacity it adds one to the count, appends the record and leaves the
    overflow counter alone. *)
Theorem C1_count_bounded_push_evicts_oldest :
  forall b, initialized_buffer b ->
    0 <= count b <= TELEMETRY_BUFFER_SIZE /\
    forall r, exists b',
      CircularBuffer_Push b r = (STATUS_OK, b') /\
      0 <= count b' <= TELEMETRY_BUFFER_SIZE /\
      (count b = TELEMETRY_BUFFER_SIZE ->
         count b' = TELEMETRY_BUFFER_SIZE /\
         contents b' = tl (contents b) ++ [r] /\
         overflow_count b' = u32 (overflow_count b + 1) /\
         (overflow_count b + 1 < 2 ^ 32 ->
            overflow_count b' = overflow_count b + 1)) /\
      (count b < TELEMETRY_BUFFER_SIZE ->
         count b' = count b + 1 /\
         contents b' = contents b ++ [r] /\
         overflow_count b' = overflow_count b).
Proof.
  intros b Hb. apply initialized_buffer_wf in Hb.
  pose proof (wf_count _ Hb) as Hc. split; [exact Hc |].
  intros r. destruct (Z.eq_dec (count b) N) as [Hfull | Hne].
  - destruct (Push_full b r Hb Hfull) as (b' & Hp & Hwf & Hc' & Ho & Hcont).
    exists b'. split; [exact Hp |]. split; [apply (wf_count _ Hwf) |].
    split; [| intros; lia].
    intros _. repeat split; try assumption.
    intros Hsmall. rewrite Ho. unfold u32. apply Z.mod_small.
    pose proof (wf_overflow _ Hb). lia.
  - destruct (Push_not_full b r Hb ltac:(lia))
      as (b' & Hp & Hwf & Hc' & Ho & Hcont).
    exists b'. split; [exact Hp |]. split; [apply (wf_count _ Hwf) |].
    split; [intros; lia |]. intros _. auto.
Qed.

(** Pushing a record into an empty initialised buffer and popping answers
    [STATUS_OK] twice and hands back the record pushed, the same in every
    byte, the CRC field included. *)
Lemma pop_after_push b r out :
  initialized_buffer b -> count b = 0 ->
  exists b1 b2,
    CircularBuffer_Push b r = (STATUS_OK, b1) /\
    CircularBuffer_Pop b1 out = (STATUS_OK, b2, r) /\
    count b2 = 0.
Proof.
  intros Hb H0. apply initialized_buffer_wf in Hb.
  destruct (Push_not_full b r Hb) as (b1 & Hp & Hwf1 & Hc1 & _ & Hcont1).
  { rewrite H0, N_val. lia. }
  rewrite (contents_empty b H0) in Hcont1. cbn [app] in Hcont1.
  destruct (Pop_not_empty b1 out Hwf1 ltac:(lia))
    as (b2 & x & xs & Hcont & _ & Hpop & _ & Hc2 & _).
  rewrite Hcont1 in Hcont. injection Hcont as Hx _. subst x.
  exists b1, b2. split; [exact Hp |]. split; [exact Hpop | lia].
Qed.

(** C9: on an initialised buffer a peek at an offset below the count answers
    [STATUS_OK] with the record stored at (read_index + offset) mod N, the
    offset-th oldest; a peek at an offset at or above the count answers
    [STATUS_NO_DATA] and leaves the caller's record alone; either way the
    buffer, that is its count, indices and stored records, is as before,
    and so is the outcome of any operations that follow. *)
Theorem C9_peek_reads_without_change :
  forall b out offset,
    initialized_buffer b -> 0 <= offset < 2 ^ 32 ->
    (offset < count b ->
       CircularBuffer_Peek b out offset =
         (STATUS_OK, b,
          slot_get (records b)
                   ((read_index b + offset) mod TELEMETRY_BUFFER_SIZE)) /\
       nth (Z.to_nat offset) (contents b) zero_record =
         slot_get (records b)
                  ((read_index b + offset) mod TELEMETRY_BUFFER_SIZE)) /\
    (count b <= offset ->
       CircularBuffer_Peek b out offset = (STATUS_NO_DATA, b, out)) /\
    (let b' := snd (fst (CircularBuffer_Peek b out offset)) in
     count b' = count b /\ read_index b' = read_index b /\
     write_index b' = write_index b /\ records b' = records b /\
     (forall record, CircularBuffer_Pop b' record = CircularBuffer_Pop b record) /\
     (forall ops, run_ops ops b' = run_ops ops b)).
Proof.
  intros b out offset Hb Hoff. apply initialized_buffer_wf in Hb.
  pose proof (wf_count _ Hb) as Hc. pose proof (wf_read _ Hb) as Hr.
  split; [| split].
  - intros Hlt. split.
    + unfold CircularBuffer_Peek. rewrite (wf_init _ Hb). cbn [negb].
      destruct (Z.leb_spec (count b) offset) as [? | _]; [lia |].
      do 3 f_equal. index_arith.
    + unfold contents.
      rewrite (nth_indep _ zero_record
                 (slot_get (records b) ((read_index b + Z.of_nat 0) mod N)))
        by (rewrite length_map, length_seq; lia).
      rewrite (map_nth (fun k => slot_get (records b)
                                   ((read_index b + Z.of_nat k) mod N))).
      rewrite seq_nth by lia. cbn [Nat.add]. rewrite Z2Nat.id by lia.
      reflexivity.
  - intros Hge. unfold CircularBuffer_Peek. rewrite (wf_init _ Hb).
    cbn [negb]. destruct (Z.leb_spec (count b) offset) as [_ | ?]; [| lia].
    reflexivity.
  - cbv zeta. rewrite Peek_unchanged. repeat split; reflexivity.
Qed.

Lemma run_ops_initialized ops :
  initialized_buffer (run_ops ops fresh_buffer).
Proof. exists raw_buffer, ops. reflexivity. Defined.

Lemma C1_witness :
  (exists b',
     CircularBuffer_Push full_buffer (sample_record 5000) = (STATUS_OK, b') /\
     count b' = TELEMETRY_BUFFER_SIZE /\
     contents b' = tl (contents full_buffer) ++ [sample_record 5000] /\
     overflow_count b' = overflow_count full_buffer + 1) /\
  (exists b',
     CircularBuffer_Push three_buffer (sample_record 5000) = (STATUS_OK, b') /\
     count b' = count three_buffer + 1 /\
     overflow_count b' = overflow_count three_buffer).
Proof.
  split.
  - destruct (C1_count_bounded_push_evicts_oldest full_buffer
                (run_ops_initialized (push_ops 2048))) as [_ Hpush].
    destruct (Hpush (sample_record 5000)) as (b' & Hp & _ & Hfull & _).
    assert (Hcount : count full_buffer = TELEMETRY_BUFFER_SIZE)
      by (vm_compute; reflexivity).
    destruct (Hfull Hcount) as (Hc & Hcont & _ & Ho).
    assert (Hsmall : overflow_count full_buffer + 1 < 2 ^ 32)
      by (vm_compute; reflexivity).
    exists b'. split; [exact Hp |]. split; [exact Hc |].
    split; [exact Hcont | exact (Ho Hsmall)].
  - destruct (C1_count_bounded_push_evicts_oldest three_buffer
                (run_ops_initialized (push_ops 3))) as [_ Hpush].
    destruct (Hpush (sample_record 5000)) as (b' & Hp & _ & _ & Hroom).
    assert (Hcount : count three_buffer < TELEMETRY_BUFFER_SIZE)
      by (vm_compute; reflexivity).
    destruct (Hroom Hcount) as (Hc & _ & Ho).
    exists b'. split; [exact Hp |]. split; [exact Hc | exact Ho].
Defined.

(** C3: for every record, pushing it into an empty initialised buffer and
    popping answers [STATUS_OK] twice and hands back the record pushed: the
    same in every field, hence in every byte of the packed structure, the
    two bytes of the trailing CRC field included; the buffer is empty
    again. *)
Theorem C3_pop_after_push_returns_the_record :
  forall b r out,
    initialized_buffer b -> count b = 0 ->
    exists b1 b2 r',
      CircularBuffer_Push b r = (STATUS_OK, b1) /\
      CircularBuffer_Pop b1 out = (STATUS_OK, b2, r') /\
      r' = r /\
      record_bytes r' = record_bytes r /\
      (forall i, nth i (record_bytes r') 0 = nth i (record_bytes r) 0) /\
      crc16 r' = crc16 r /\
      skipn 28 (record_bytes r') = le_bytes 2 (crc16 r) /\
      count b2 = 0.
Proof.
  intros b r out Hb H0.
  destruct (pop_after_push b r out Hb H0) as (b1 & b2 & Hp & Hpop & Hc).
  exists b1, b2, r.
  split; [exact Hp |]. split; [exact Hpop |].
  split; [reflexivity |]. split; [reflexivity |].
  split; [intros i; reflexivity |]. split; [reflexivity |].
  split; [apply record_bytes_crc | exact Hc].
Qed.

Lemma C3_witness :
  exists b1 b2,
    CircularBuffer_Push fresh_buffer (sample_record 42) = (STATUS_OK, b1) /\
    CircularBuffer_Pop b1 zero_record = (STATUS_OK, b2, sample_record 42) /\
    count b2 = 0.
Proof.
  destruct (C3_pop_after_push_returns_the_record fresh_buffer
              (sample_record 42) zero_record (run_ops_initialized [])
              eq_refl)
    as (b1 & b2 & r' & Hp & Hpop & Hr & _ & _ & _ & _ & Hc).
  exists b1, b2. split; [exact Hp |]. split; [| exact Hc].
  rewrite <- Hr. exact Hpop.
Defined.

Lemma C9_witness :
  CircularBuffer_Peek three_buffer zero_record 1 =
    (STATUS_OK, three_buffer, sample_record 1) /\
  CircularBuffer_Peek three_buffer zero_record 3 =
    (STATUS_NO_DATA, three_buffer, zero_record).
Proof.
  destruct (C9_peek_reads_without_change three_buffer zero_record 1
              (run_ops_initialized (push_ops 3)) ltac:(lia)) as (Hok & _ & _).
  destruct (C9_peek_reads_without_change three_buffer zero_record 3
              (run_ops_initialized (push_ops 3)) ltac:(lia)) as (_ & Hno & _).
  split.
  - destruct Hok as [Hpeek _]; [vm_compute; reflexivity |]. exact Hpeek.
  - apply Hno. vm_compute. discriminate.
Defined.

End Buffer.

(** ** Rounding *)

Section Rounding.

Local Open Scope Q_scope.

Lemma pow2_pos e : 0 < pow2 e.
Proof. unfold pow2. apply Qpower_0_lt. reflexivity. Qed.

Lemma pow2_add a b : pow2 (a + b) == pow2 a * pow2 b.
Proof. unfold pow2. apply Qpower_plus. discriminate. Qed.

Lemma pow2_opp e : pow2 (- e) * pow2 e == 1.
Proof.
  rewrite <- pow2_add. replace (- e + e)%Z with 0%Z by lia. reflexivity.
Qed.

Lemma pow2_le a b : (a <= b)%Z -> pow2 a <= pow2 b.
Proof. intros H. unfold pow2. apply Qpower_le_compat_l; [exact H | discriminate]. Qed.

Lemma pow2_lt_inv a b : pow2 a < pow2 b -> (a < b)%Z.
Proof.
  intros H. destruct (Z.lt_ge_cases a b) as [Hlt | Hge]; [exact Hlt |].
  apply pow2_le in Hge. lra.
Qed.

Lemma pow2_Z n : (0 <= n)%Z -> pow2 n == inject_Z (2 ^ n).
Proof. intros H. unfold pow2. rewrite Zpower_Qpower by exact H. reflexivity. Qed.

(** [round_ne] is within one half of its argument, and no integer lies
    strictly between the two. *)
Lemma round_ne_cases x :
  round_ne x = Qfloor x \/ round_ne x = (Qfloor x + 1)%Z.
Proof.
  unfold round_ne. destruct (x - inject_Z (Qfloor x) ?= 1 # 2); auto.
  destruct (Z.even (Qfloor x)); auto.
Qed.

Lemma round_ne_error x : Qabs (inject_Z (round_ne x) - x) <= 1 # 2.
Proof.
  pose proof (Qfloor_le x) as Hlo. pose proof (Qlt_floor x) as Hhi.
  rewrite inject_Z_plus in Hhi. change (inject_Z 1) with 1 in Hhi.
  unfold round_ne.
  destruct (x - inject_Z (Qfloor x) ?= 1 # 2) eqn:Hcmp.
  - apply Qeq_alt in Hcmp.
    destruct (Z.even (Qfloor x));
      [| rewrite inject_Z_plus; change (inject_Z 1) with 1];
      apply Qabs_case; intros; lra.
  - apply Qlt_alt in Hcmp. apply Qabs_case; intros; lra.
  - apply Qgt_alt in Hcmp. rewrite inject_Z_plus.
    change (inject_Z 1) with 1. apply Qabs_case; intros; lra.
Qed.

Lemma round_ne_ge x (y : Z) : inject_Z y <= x -> (y <= round_ne x)%Z.
Proof.
  intros Hy.
  assert (Hf : (y <= Qfloor x)%Z).
  { rewrite <- (Qfloor_Z y). apply Qfloor_resp_le. exact Hy. }
  destruct (round_ne_cases x) as [-> | ->]; lia.
Qed.

Lemma Qabs_num_den q :
  Qabs q * inject_Z (Zpos (Qden q)) == inject_Z (Z.abs (Qnum q)).
Proof.
  destruct q as [n d]. unfold Qabs, Qeq, Qmult, inject_Z.
  cbn [Qnum Qden]. rewrite Pos.mul_1_r. lia.
Qed.

(** The leading bit [ilog2] names is not above the number. *)
Lemma ilog2_le q : ~ q == 0 -> pow2 (ilog2 q) <= Qabs q.
Proof.
  intros Hq. unfold ilog2.
  set (n := Z.abs (Qnum q)). set (d := Zpos (Qden q)).
  destruct (Qle_bool (pow2 (Z.log2 n - Z.log2 d)) (Qabs q)) eqn:Htest.
  - apply Qle_bool_iff. exact Htest.
  - clear Htest.
    assert (Hn : (0 < n)%Z).
    { subst n. destruct q as [qn qd]. unfold Qeq in Hq. cbn in *. lia. }
    assert (Hd : (0 < d)%Z) by (subst d; lia).
    destruct (Z.log2_spec n Hn) as [Hlo _].
    destruct (Z.log2_spec d Hd) as [_ Hhi].
    pose proof (Z.log2_nonneg n) as Ha. pose proof (Z.log2_nonneg d) as Hb.
    set (a := Z.log2 n) in *. set (b := Z.log2 d) in *.
    assert (Hprod : pow2 (a - b - 1) * inject_Z (2 ^ Z.succ b) ==
                    inject_Z (2 ^ a)).
    { rewrite <- !pow2_Z by lia. rewrite <- pow2_add. f_equiv. lia. }
    assert (Hq' : Qabs q * inject_Z d == inject_Z n) by apply Qabs_num_den.
    assert (HD : 0 < inject_Z (2 ^ Z.succ b)).
    { rewrite <- pow2_Z by lia. apply pow2_pos. }
    apply (Qmult_le_r _ _ _ HD). rewrite Hprod.
    assert (Hsplit : Qabs q * inject_Z (2 ^ Z.succ b) ==
                     Qabs q * inject_Z d +
                     Qabs q * (inject_Z (2 ^ Z.succ b) - inject_Z d)) by ring.
    rewrite Hsplit, Hq'.
    assert (Hnn : 0 <= Qabs q * (inject_Z (2 ^ Z.succ b) - inject_Z d)).
    { apply Qmult_le_0_compat; [apply Qabs_nonneg |].
      assert (inject_Z d <= inject_Z (2 ^ Z.succ b))
        by (rewrite <- Zle_Qle; lia). lra. }
    assert (inject_Z (2 ^ a) <= inject_Z n) by (rewrite <- Zle_Qle; exact Hlo).
    lra.
Qed.

(** And the next power of two is above it. *)
Lemma ilog2_gt q : ~ q == 0 -> Qabs q < pow2 (ilog2 q + 1).
Proof.
  intros Hq. unfold ilog2.
  set (n := Z.abs (Qnum q)). set (d := Zpos (Qden q)).
  destruct (Qle_bool (pow2 (Z.log2 n - Z.log2 d)) (Qabs q)) eqn:Htest.
  - clear Htest.
    assert (Hn : (0 < n)%Z).
    { subst n. destruct q as [qn qd]. unfold Qeq in Hq. cbn in *. lia. }
    assert (Hd : (0 < d)%Z) by (subst d; lia).
    destruct (Z.log2_spec n Hn) as [_ Hhi].
    destruct (Z.log2_spec d Hd) as [Hlo _].
    pose proof (Z.log2_nonneg n) as Ha. pose proof (Z.log2_nonneg d) as Hb.
    set (a := Z.log2 n) in *. set (b := Z.log2 d) in *.
    assert (Hprod : pow2 (a - b + 1) * inject_Z (2 ^ b) ==
                    inject_Z (2 ^ Z.succ a)).
    { rewrite <- !pow2_Z by lia. rewrite <- pow2_add. f_equiv. lia. }
    assert (Hq' : Qabs q * inject_Z d == inject_Z n) by apply Qabs_num_den.
    assert (HD : 0 < inject_Z (2 ^ b)).
    { rewrite <- pow2_Z by lia. apply pow2_pos. }
    apply (Qmult_lt_r _ _ _ HD). rewrite Hprod.
    assert (Hsplit : Qabs q * inject_Z d ==
                     Qabs q * inject_Z (2 ^ b) +
                     Qabs q * (inject_Z d - inject_Z (2 ^ b))) by ring.
    assert (Hnn : 0 <= Qabs q * (inject_Z d - inject_Z (2 ^ b))).
    { apply Qmult_le_0_compat; [apply Qabs_nonneg |].
      assert (inject_Z (2 ^ b) <= inject_Z d) by (rewrite <- Zle_Qle; lia).
      lra. }
    assert (inject_Z n < inject_Z (2 ^ Z.succ a))
      by (rewrite <- Zlt_Qlt; exact Hhi).
    lra.
  - replace (Z.log2 n - Z.log2 d - 1 + 1)%Z with (Z.log2 n - Z.log2 d)%Z
      by lia.
    apply Qnot_le_lt. intros Hle. apply Qle_bool_iff in Hle. congruence.
Qed.

Lemma ilog2_lt q k : ~ q == 0 -> Qabs q < pow2 k -> (ilog2 q < k)%Z.
Proof.
  intros Hq Hk. apply pow2_lt_inv.
  apply Qle_lt_trans with (Qabs q); [apply ilog2_le; exact Hq | exact Hk].
Qed.

Lemma ilog2_zero q : q == 0 -> (ilog2 q <= 0)%Z.
Proof.
  intros Hq. unfold ilog2.
  assert (Hn : Qnum q = 0%Z).
  { destruct q as [n d]. unfold Qeq in Hq. cbn in *. lia. }
  rewrite Hn. change (Z.log2 (Z.abs 0)) with 0%Z.
  pose proof (Z.log2_nonneg (Zpos (Qden q))).
  destruct (Qle_bool _ _); lia.
Qed.

Lemma inject_Z_small n : Qabs (inject_Z n) <= 1 # 2 -> n = 0%Z.
Proof.
  intros H.
  assert (Hlo : inject_Z (-1) < inject_Z n).
  { change (inject_Z (-1)) with (-1). revert H. apply Qabs_case; intros; lra. }
  assert (Hhi : inject_Z n < inject_Z 1).
  { change (inject_Z 1) with 1. revert H. apply Qabs_case; intros; lra. }
  rewrite <- Zlt_Qlt in Hlo, Hhi. lia.
Qed.

Section Format.

Variable fmt : float_format.
Hypothesis prec_pos : (1 <= prec fmt)%Z.

(** What [round_to] computes, with the names of its definition. *)
Lemma round_to_unfold q :
  let sh := (Z.max (ilog2 q) (emin fmt) - prec fmt + 1)%Z in
  let rn := round_ne (q * pow2 (- sh)) in
  let r := inject_Z rn * pow2 sh in
  (r - q == (inject_Z rn - q * pow2 (- sh)) * pow2 sh) /\
  round_to fmt q =
    if Qle_bool (pow2 (emax fmt)) (Qabs r) then None else Some (Qred r).
Proof.
  cbv zeta. split; [| reflexivity].
  set (sh := (Z.max (ilog2 q) (emin fmt) - prec fmt + 1)%Z).
  pose proof (pow2_opp sh) as Hinv.
  set (a := pow2 (- sh)) in *. set (b := pow2 sh) in *.
  set (rn := inject_Z (round_ne (q * a))).
  assert (Hq : q * a * b == q) by (rewrite <- Qmult_assoc, Hinv; ring).
  rewrite <- Hq at 1. ring.
Qed.

(** Rounding a number below [2 ^ k] moves it by at most half a unit in the
    last place of that range, and stays finite. *)
Lemma round_to_error q k :
  (emin fmt <= k - 1)%Z -> (k < emax fmt)%Z -> Qabs q < pow2 k ->
  exists r, round_to fmt q = Some r /\
            Qabs (r - q) <= pow2 (k - prec fmt - 1).
Proof.
  intros Hemin Hemax Hk.
  destruct (round_to_unfold q) as [Hdiff Hdef]. cbv zeta in Hdiff, Hdef.
  set (sh := (Z.max (ilog2 q) (emin fmt) - prec fmt + 1)%Z) in *.
  set (x := q * pow2 (- sh)) in *.
  set (r := inject_Z (round_ne x) * pow2 sh) in *.
  assert (Herr : Qabs (r - q) <= pow2 (k - prec fmt - 1)).
  { rewrite Hdiff, Qabs_Qmult, (Qabs_pos (pow2 sh))
      by (apply Qlt_le_weak, pow2_pos).
    destruct (Qeq_dec q 0) as [Hz | Hnz].
    - assert (Hx : x == 0) by (unfold x; rewrite Hz; ring).
      pose proof (round_ne_error x) as He.
      assert (Hrn : round_ne x = 0%Z).
      { apply inject_Z_small. revert He.
        apply Qabs_case; intros; apply Qabs_case; intros; lra. }
      rewrite Hrn. change (inject_Z 0) with 0.
      assert (H0 : Qabs (0 - x) == 0) by (apply Qabs_case; intros; lra).
      rewrite H0, Qmult_0_l. apply Qlt_le_weak, pow2_pos.
    - pose proof (ilog2_lt q k Hnz Hk) as Hlog.
      assert (Hsh : (sh - 1 <= k - prec fmt - 1)%Z) by (subst sh; lia).
      apply pow2_le in Hsh.
      assert (Hhalf : pow2 (sh - 1) * 2 == pow2 sh).
      { change 2 with (pow2 1). rewrite <- pow2_add. f_equiv. lia. }
      pose proof (round_ne_error x) as He.
      pose proof (pow2_pos sh) as Hp.
      assert (Hm : Qabs (inject_Z (round_ne x) - x) * pow2 sh <=
                   (1 # 2) * pow2 sh).
      { apply Qmult_le_r; assumption. }
      lra. }
  assert (Hfin : Qle_bool (pow2 (emax fmt)) (Qabs r) = false).
  { destruct (Qle_bool (pow2 (emax fmt)) (Qabs r)) eqn:Ht; [| reflexivity].
    apply Qle_bool_iff in Ht.
    assert (Htri : Qabs r <= Qabs (r - q) + Qabs q).
    { setoid_replace r with ((r - q) + q) at 1 by ring.
      apply Qabs_triangle. }
    assert (H1 : pow2 (k - prec fmt - 1) <= pow2 k) by (apply pow2_le; lia).
    assert (H2 : pow2 (k + 1) <= pow2 (emax fmt)) by (apply pow2_le; lia).
    assert (H3 : pow2 (k + 1) == pow2 k * 2).
    { change 2 with (pow2 1). apply pow2_add. }
    lra. }
  exists (Qred r). split.
  - rewrite Hdef, Hfin. reflexivity.
  - rewrite Qred_correct. exact Herr.
Qed.

(** Rounding does not step below an integer that the number is not below,
    as long as the integers are values of the format in that range. *)
Lemma round_to_ge_int q (y : Z) r :
  (emin fmt < prec fmt)%Z -> Qabs q < pow2 (prec fmt) ->
  inject_Z y <= q -> round_to fmt q = Some r -> inject_Z y <= r.
Proof.
  intros Hemin Hq Hy Hr.
  destruct (round_to_unfold q) as [_ Hdef]. cbv zeta in Hdef.
  set (sh := (Z.max (ilog2 q) (emin fmt) - prec fmt + 1)%Z) in *.
  set (x := q * pow2 (- sh)) in *.
  assert (Hsh : (sh <= 0)%Z).
  { destruct (Qeq_dec q 0) as [Hz | Hnz].
    - pose proof (ilog2_zero q Hz). subst sh. lia.
    - pose proof (ilog2_lt q _ Hnz Hq). subst sh. lia. }
  rewrite Hdef in Hr. destruct (Qle_bool _ _); [discriminate |].
  match type of Hr with
  | Some ?t = _ => assert (Heq : t = r) by congruence
  end.
  rewrite <- Heq, Qred_correct. clear Hr Heq.
  assert (HY : inject_Z (y * 2 ^ (- sh)) <= x).
  { rewrite inject_Z_mult, <- pow2_Z by lia. unfold x.
    apply Qmult_le_compat_r; [exact Hy | apply Qlt_le_weak, pow2_pos]. }
  apply round_ne_ge in HY. rewrite Zle_Qle in HY.
  rewrite inject_Z_mult, <- pow2_Z in HY by lia.
  pose proof (pow2_pos sh) as Hp. pose proof (pow2_opp sh) as Hinv.
  apply (Qmult_le_compat_r _ _ (pow2 sh)) in HY; [| lra].
  rewrite <- Qmult_assoc, Hinv, Qmult_1_r in HY. exact HY.
Qed.

End Format.

(** The model on values whose encodings are well known: one tenth in both
    formats, a tie that goes to the even neighbour, the largest [float] and
    the first number that overflows, the smallest subnormal number. *)
Example round_to_known_values :
  round_to binary32 (1 # 10) = Some (13421773 # 134217728) /\
  round_to binary64 (1 # 10) = Some (3602879701896397 # 36028797018963968) /\
  round_to binary32 16777217 = Some 16777216 /\
  round_to binary32 16777219 = Some 16777220 /\
  round_to binary32 (inject_Z (2 ^ 128 - 2 ^ 103 - 1)) =
    Some (inject_Z (2 ^ 128 - 2 ^ 104)) /\
  round_to binary32 (inject_Z (2 ^ 128 - 2 ^ 103)) = None /\
  round_to binary32 (1 # 10 ^ 45) = Some (Qred (1 # 2 ^ 149)).
Proof. vm_compute. repeat split. Qed.

Lemma Qtrunc_between t (d : Z) :
  (0 <= d)%Z -> inject_Z d <= t -> t < inject_Z (d + 1) -> Qtrunc t = d.
Proof.
  intros Hd Hlo Hhi.
  assert (Hn : (0 <= Qnum t)%Z).
  { assert (H0 : 0 <= t).
    { apply Qle_trans with (inject_Z d); [| exact Hlo].
      change 0 with (inject_Z 0). rewrite <- Zle_Qle. exact Hd. }
    destruct t as [n dd]. unfold Qle in H0. cbn in *. lia. }
  unfold Qtrunc. rewrite Z.quot_div_nonneg by lia.
  change (Qnum t / Zpos (Qden t))%Z with (Qfloor (Qnum t # Qden t)).
  replace (Qnum t # Qden t) with t by (destruct t; reflexivity).
  assert (H1 : (d <= Qfloor t)%Z).
  { rewrite <- (Qfloor_Z d). apply Qfloor_resp_le. exact Hlo. }
  assert (H2 : (Qfloor t < d + 1)%Z).
  { rewrite Zlt_Qlt. apply Qle_lt_trans with t; [apply Qfloor_le | exact Hhi]. }
  lia.
Qed.

End Rounding.

(** ** The power state machine *)

Section Power.

Lemma PowerMode_eqb_eq a b : PowerMode_eqb a b = true <-> a = b.
Proof. destruct a, b; simpl; split; congruence. Qed.

(** C10: on an initialised power manager, asking for the mode it is already
    in answers [STATUS_OK] and changes nothing of the state: no dwell time
    is settled, no energy accrued, no driver called, and the previous mode,
    the current mode and the entry time stamp keep their values. *)
Theorem C10_set_same_mode_changes_nothing :
  forall st mode,
    power_initialized st = true -> current_mode st = mode ->
    Power_SetMode mode st = (STATUS_OK, st).
Proof.
  intros st mode Hinit Hmode. unfold Power_SetMode.
  rewrite Hinit. cbn [negb].
  rewrite (proj2 (PowerMode_eqb_eq mode (current_mode st)))
    by (symmetry; exact Hmode).
  reflexivity.
Qed.

Lemma C10_witness :
  let st := snd (Power_SetMode POWER_MODE_IDLE (snd (Power_Init power_statics))) in
  Power_SetMode POWER_MODE_IDLE st = (STATUS_OK, st).
Proof.
  apply C10_set_same_mode_changes_nothing; reflexivity.
Defined.

Lemma Power_Init_clock_stuck : clock_stuck (snd (Power_Init power_statics)).
Proof. repeat split. Qed.

Lemma Power_SetMode_clock_stuck mode st :
  clock_stuck st -> clock_stuck (snd (Power_SetMode mode st)).
Proof.
  intros (Hi & He & Hu & Ha & Hd & Hs & Hen). unfold Power_SetMode.
  rewrite Hi. cbn [negb].
  destruct (PowerMode_eqb mode (current_mode st)); cbn [snd];
    [repeat split; assumption |].
  unfold Power_UpdateEnergyConsumption, add_dwell, with_times.
  rewrite He. change (u32 (0 - 0)) with 0.
  destruct (current_mode st);
    cbn [last_energy_update_time]; rewrite Hu; change (u32 (0 - 0)) with 0;
    cbn [Z.eqb];
    unfold Power_ConfigureWakeSources, Power_ApplyPeripheralStates,
      Power_SetPeripheralState, record_call;
    cbn [power_initialized]; rewrite Hi; cbn [negb];
    repeat split; cbn; rewrite ?Ha, ?Hd, ?Hs; auto.
Qed.

Lemma set_modes_clock_stuck modes : forall st,
  clock_stuck st -> clock_stuck (set_modes modes st).
Proof.
  unfold set_modes. induction modes as [| m modes IH]; intros st H;
    cbn [fold_left]; [exact H |].
  apply IH, Power_SetMode_clock_stuck, H.
Qed.

(** What a change of mode does settle, with the time it computes: the
    counter of the mode left takes [0 - mode_entry_time], energy is
    integrated before the mode variables move, and then
    [previous_mode] is the old mode and [current_mode] the new one. *)
Lemma Power_SetMode_transition st mode :
  power_initialized st = true -> mode <> current_mode st ->
  let st' := snd (Power_SetMode mode st) in
  fst (Power_SetMode mode st) = STATUS_OK /\
  previous_mode st' = current_mode st /\ current_mode st' = mode /\
  mode_entry_time st' = 0 /\
  cumulative_energy_mah st' =
    cumulative_energy_mah
      (Power_UpdateEnergyConsumption
         (add_dwell st (u32 (0 - mode_entry_time st)))) /\
  (time_active_ms st', time_idle_ms st', time_sleep_ms st') =
    (let d := add_dwell st (u32 (0 - mode_entry_time st)) in
     (time_active_ms d, time_idle_ms d, time_sleep_ms d)).
Proof.
  intros Hi Hne. unfold Power_SetMode. rewrite Hi. cbn [negb].
  destruct (PowerMode_eqb mode (current_mode st)) eqn:Heq.
  - apply PowerMode_eqb_eq in Heq. contradiction.
  - cbv zeta. cbn [fst snd previous_mode current_mode mode_entry_time
                   cumulative_energy_mah time_active_ms time_idle_ms
                   time_sleep_ms].
    unfold Power_ConfigureWakeSources, Power_ApplyPeripheralStates,
      Power_SetPeripheralState.
    set (d := Power_UpdateEnergyConsumption _).
    assert (Hdi : power_initialized d = true).
    { subst d. unfold Power_UpdateEnergyConsumption, add_dwell, with_times.
      destruct (current_mode st); cbn [last_energy_update_time];
        destruct (_ =? 0); cbn; exact Hi. }
    assert (Hdm : current_mode d = current_mode st).
    { subst d. unfold Power_UpdateEnergyConsumption, add_dwell, with_times.
      destruct (current_mode st) eqn:Hm; cbn [last_energy_update_time];
        destruct (_ =? 0); cbn; rewrite ?Hm; reflexivity. }
    rewrite Hdi. cbn [negb record_call power_initialized current_mode
                      cumulative_energy_mah time_active_ms time_idle_ms
                      time_sleep_ms].
    rewrite Hdi. cbn [negb record_call power_initialized current_mode
                      cumulative_energy_mah time_active_ms time_idle_ms
                      time_sleep_ms].
    repeat split; try assumption.
    subst d. unfold Power_UpdateEnergyConsumption.
    destruct (_ =? 0); reflexivity.
Qed.

(** C2 on the code: from [Power_Init] through ACTIVE, DEEP_SLEEP and back
    to ACTIVE the mode variables move as stated, but however long the unit
    stays asleep the dwell time of DEEP_SLEEP stays 0 and no energy is
    accrued: the time read at both changes is the constant 0. *)
Theorem C2_sleep_cycle_accrues_nothing :
  let st0 := snd (Power_Init power_statics) in
  let st1 := snd (Power_SetMode POWER_MODE_DEEP_SLEEP st0) in
  let st2 := snd (Power_SetMode POWER_MODE_ACTIVE st1) in
  current_mode st1 = POWER_MODE_DEEP_SLEEP /\
  previous_mode st2 = POWER_MODE_DEEP_SLEEP /\
  current_mode st2 = POWER_MODE_ACTIVE /\
  time_sleep_ms st2 = 0 /\
  Power_GetStatistics st2 = (STATUS_OK, 0, 0, 0) /\
  cumulative_energy_mah st2 = cumulative_energy_mah st0 /\
  fst (Power_GetEnergyConsumption st2) = Some 0%Q /\
  (forall modes, clock_stuck (set_modes modes st0)).
Proof.
  cbv zeta. repeat (split; [reflexivity |]).
  intros modes. apply set_modes_clock_stuck, Power_Init_clock_stuck.
Qed.

End Power.

(** ** The NMEA checksum *)

Section Checksum.

Local Open Scope string_scope.

Lemma code_range c : 0 <= code c < 256.
Proof.
  unfold code. pose proof (N_ascii_bounded c). lia.
Qed.

Lemma code_inj c c' : code c = code c' -> c = c'.
Proof.
  unfold code. intros H. apply N2Z.inj in H.
  rewrite <- (ascii_N_embedding c), <- (ascii_N_embedding c'), H.
  reflexivity.
Qed.

(** A hexadecimal digit is no white space, sign, radix letter, star or NUL,
    and its value is below 16. *)
Lemma hex_digit_facts h v :
  hex_digit_of h = Some v ->
  isspace h = false /\ Ascii.eqb h "+" = false /\ Ascii.eqb h "-" = false /\
  Ascii.eqb h "x" = false /\ Ascii.eqb h "X" = false /\
  Ascii.eqb h NUL = false /\ Ascii.eqb h "*" = false /\ 0 <= v < 16.
Proof.
  destruct h as [[] [] [] [] [] [] [] []]; intros H; cbv in H;
    try discriminate H; injection H as <-;
    repeat split; try reflexivity; lia.
Qed.

Lemma sscanf_two_hex_digits h1 h2 v1 v2 rest old :
  hex_digit_of h1 = Some v1 -> hex_digit_of h2 = Some v2 ->
  sscanf_2hhx (String h1 (String h2 rest)) old = 16 * v1 + v2.
Proof.
  intros H1 H2.
  destruct (hex_digit_facts h1 v1 H1) as (Hs & Hp & Hm & _ & _ & _ & _ & Hv1).
  destruct (hex_digit_facts h2 v2 H2) as (_ & _ & _ & Hx & HX & _ & _ & Hv2).
  unfold sscanf_2hhx. cbn [skip_space]. rewrite Hs, Hp, Hm. cbn [orb].
  rewrite H1, Hx, HX, H2. cbn [orb]. rewrite andb_false_r.
  unfold u8. apply Z.mod_small. lia.
Qed.

Lemma c_str_plain_app body s :
  plain body = true -> c_str (body ++ s) = body ++ c_str s.
Proof.
  induction body as [| c body IH]; cbn [plain String.append c_str];
    intros H; [reflexivity |].
  apply andb_prop in H. destruct H as [H Hb].
  apply andb_prop in H. destruct H as [_ Hn].
  apply negb_true_iff in Hn. rewrite Hn, (IH Hb). reflexivity.
Qed.

Lemma c_str_plain body : plain body = true -> c_str body = body.
Proof.
  induction body as [| c body IH]; cbn [plain c_str]; intros H;
    [reflexivity |].
  apply andb_prop in H. destruct H as [H Hb].
  apply andb_prop in H. destruct H as [_ Hn].
  apply negb_true_iff in Hn. rewrite Hn, (IH Hb). reflexivity.
Qed.

Lemma strchr_plain_app body s :
  plain body = true ->
  strchr_split "*" (body ++ String "*" s) = Some (body, s).
Proof.
  induction body as [| c body IH]; cbn [plain String.append strchr_split];
    intros H; [reflexivity |].
  apply andb_prop in H. destruct H as [H Hb].
  apply andb_prop in H. destruct H as [Hst _].
  apply negb_true_iff in Hst. rewrite Hst, (IH Hb). reflexivity.
Qed.

Lemma strchr_plain body : plain body = true -> strchr_split "*" body = None.
Proof.
  induction body as [| c body IH]; cbn [plain strchr_split]; intros H;
    [reflexivity |].
  apply andb_prop in H. destruct H as [H Hb].
  apply andb_prop in H. destruct H as [Hst _].
  apply negb_true_iff in Hst. rewrite Hst, (IH Hb). reflexivity.
Qed.

(** On a sentence in the envelope the check compares the XOR of the body
    with the value of the two digits. *)
Lemma ValidateChecksum_envelope body h1 h2 rest v1 v2 :
  plain body = true ->
  hex_digit_of h1 = Some v1 -> hex_digit_of h2 = Some v2 ->
  GPS_ValidateChecksum (envelope body h1 h2 rest) =
    Z.eqb (xor_bytes body) (16 * v1 + v2).
Proof.
  intros Hb H1 H2.
  destruct (hex_digit_facts h1 v1 H1) as (_ & _ & _ & _ & _ & Hn1 & _).
  destruct (hex_digit_facts h2 v2 H2) as (_ & _ & _ & _ & _ & Hn2 & _).
  unfold GPS_ValidateChecksum, envelope.
  assert (Hc : c_str (String "$" (body ++ String "*" (String h1 (String h2 rest))))
               = String "$" (body ++ String "*" (String h1 (String h2 (c_str rest))))).
  { cbn [c_str]. change (Ascii.eqb "$" NUL) with false. cbv iota.
    rewrite c_str_plain_app by exact Hb. cbn [c_str].
    change (Ascii.eqb "*" NUL) with false. rewrite Hn1, Hn2. reflexivity. }
  rewrite Hc. change (Ascii.eqb "$" "$") with true. cbn [negb].
  cbn [strchr_split]. change (Ascii.eqb "$" "*") with false. cbv iota.
  rewrite strchr_plain_app by exact Hb.
  rewrite (sscanf_two_hex_digits h1 h2 v1 v2 _ 0 H1 H2). reflexivity.
Qed.

(** A sentence whose check fails is rejected, and nothing is written. *)
Lemma ParseNMEA_bad_checksum sentence gps_data st :
  GPS_ValidateChecksum sentence = false ->
  GPS_ParseNMEA sentence gps_data st = Some (STATUS_ERROR, gps_data, st).
Proof. intros H. unfold GPS_ParseNMEA. rewrite H. reflexivity. Qed.

(** The XOR of a string, piece by piece. *)
Lemma xor_fold_from l : forall acc,
  0 <= acc < 256 ->
  fold_left (fun a c => u8 (Z.lxor a (code c))) l acc =
    Z.lxor acc (fold_left (fun a c => u8 (Z.lxor a (code c))) l 0) /\
  0 <= fold_left (fun a c => u8 (Z.lxor a (code c))) l acc < 256.
Proof.
  induction l as [| c l IH]; intros acc Hacc; cbn [fold_left].
  - rewrite Z.lxor_0_r. split; [reflexivity | exact Hacc].
  - pose proof (code_range c) as Hc.
    assert (Hx : 0 <= Z.lxor acc (code c) < 256)
      by (apply (lxor_below_pow2 8); lia).
    assert (E1 : u8 (Z.lxor acc (code c)) = Z.lxor acc (code c))
      by (apply Z.mod_small; exact Hx).
    assert (E2 : u8 (Z.lxor 0 (code c)) = code c)
      by (rewrite Z.lxor_0_l; apply Z.mod_small; exact Hc).
    rewrite E1, E2.
    destruct (IH _ Hx) as [-> Hr]. destruct (IH _ Hc) as [-> _].
    split; [apply Z.lxor_assoc |].
    destruct (IH 0 ltac:(lia)) as [_ H0].
    apply (lxor_below_pow2 8); [lia | exact Hx | exact H0].
Qed.

Lemma list_ascii_of_string_app s1 s2 :
  list_ascii_of_string (s1 ++ s2) =
  (list_ascii_of_string s1 ++ list_ascii_of_string s2)%list.
Proof.
  induction s1 as [| c s1 IH]; cbn; [reflexivity | rewrite IH; reflexivity].
Qed.

Lemma xor_bytes_range s : 0 <= xor_bytes s < 256.
Proof. unfold xor_bytes. apply xor_fold_from. lia. Qed.

Lemma xor_bytes_split s1 c s2 :
  xor_bytes (s1 ++ String c s2) =
  Z.lxor (Z.lxor (xor_bytes s1) (code c)) (xor_bytes s2).
Proof.
  unfold xor_bytes. rewrite list_ascii_of_string_app.
  cbn [list_ascii_of_string]. rewrite fold_left_app. cbn [fold_left].
  pose proof (xor_bytes_range s1) as H1. unfold xor_bytes in H1.
  pose proof (code_range c) as Hc.
  assert (Hx : 0 <= Z.lxor (fold_left (fun a c0 => u8 (Z.lxor a (code c0)))
                              (list_ascii_of_string s1) 0) (code c) < 256)
    by (apply (lxor_below_pow2 8); lia).
  assert (E : forall x, 0 <= x < 256 -> u8 x = x)
    by (intros x Hr; apply Z.mod_small; exact Hr).
  rewrite (E _ Hx). apply xor_fold_from. exact Hx.
Qed.

(** Replacing one byte of the body by another one changes the XOR. *)
Lemma xor_bytes_altered s1 c c' s2 :
  c' <> c -> xor_bytes (s1 ++ String c' s2) <> xor_bytes (s1 ++ String c s2).
Proof.
  intros Hne Heq. rewrite !xor_bytes_split in Heq.
  rewrite !(Z.lxor_comm _ (xor_bytes s2)) in Heq.
  apply lxor_cancel_l, lxor_cancel_l, code_inj in Heq. contradiction.
Qed.

Lemma plain_app s1 s2 : plain (s1 ++ s2) = plain s1 && plain s2.
Proof.
  induction s1 as [| c s1 IH]; cbn [String.append plain]; [reflexivity |].
  rewrite IH, andb_assoc. reflexivity.
Qed.

Lemma string_app_assoc (s1 s2 s3 : string) :
  (s1 ++ s2) ++ s3 = s1 ++ (s2 ++ s3).
Proof.
  induction s1 as [| c s1 IH]; cbn [String.append];
    [reflexivity | rewrite IH; reflexivity].
Qed.

Lemma ValidateChecksum_no_envelope sentence :
  first_char (c_str sentence) <> "$"%char \/
  strchr_split "*" (c_str sentence) = None ->
  GPS_ValidateChecksum sentence = false.
Proof.
  unfold GPS_ValidateChecksum. intros [H | H].
  - destruct (c_str sentence) as [| c0 rest]; [reflexivity |].
    cbn [first_char] in H. destruct (Ascii.eqb_spec c0 "$"); [contradiction |].
    reflexivity.
  - rewrite H. destruct (c_str sentence) as [| c0 rest]; [reflexivity |].
    destruct (negb (Ascii.eqb c0 "$")); reflexivity.
Qed.

(** C4, as the code has it: the parser answers [STATUS_ERROR], and writes
    nothing, for a sentence without a leading dollar or without a star, and
    for a sentence in which the two hexadecimal digits after the star have
    a value other than the XOR of the bytes between the dollar and the
    star.  So the sentence is rejected when the two digits of an accepted
    sentence are replaced by digits of another value, and when an interior
    byte is replaced by any other byte but a star, the digits left as they
    are. *)
Theorem C4_checksum_mismatch_is_rejected :
  forall gps_data st,
    (forall sentence,
       first_char (c_str sentence) <> "$"%char \/
       strchr_split "*" (c_str sentence) = None ->
       GPS_ParseNMEA sentence gps_data st = Some (STATUS_ERROR, gps_data, st)) /\
    (forall body h1 h2 rest v1 v2,
       plain body = true ->
       hex_digit_of h1 = Some v1 -> hex_digit_of h2 = Some v2 ->
       xor_bytes body <> 16 * v1 + v2 ->
       GPS_ParseNMEA (envelope body h1 h2 rest) gps_data st =
         Some (STATUS_ERROR, gps_data, st)) /\
    (forall body h1 h2 rest v1 v2 h1' h2' v1' v2',
       plain body = true ->
       hex_digit_of h1 = Some v1 -> hex_digit_of h2 = Some v2 ->
       hex_digit_of h1' = Some v1' -> hex_digit_of h2' = Some v2' ->
       GPS_ValidateChecksum (envelope body h1 h2 rest) = true ->
       16 * v1' + v2' <> 16 * v1 + v2 ->
       GPS_ParseNMEA (envelope body h1' h2' rest) gps_data st =
         Some (STATUS_ERROR, gps_data, st)) /\
    (forall body1 c body2 c' h1 h2 rest v1 v2,
       plain (body1 ++ String c body2) = true ->
       hex_digit_of h1 = Some v1 -> hex_digit_of h2 = Some v2 ->
       GPS_ValidateChecksum (envelope (body1 ++ String c body2) h1 h2 rest)
         = true ->
       c' <> c -> c' <> "*"%char ->
       GPS_ParseNMEA (envelope (body1 ++ String c' body2) h1 h2 rest)
         gps_data st = Some (STATUS_ERROR, gps_data, st)).
Proof.
  intros gps_data st. split; [| split; [| split]].
  - intros sentence H. apply ParseNMEA_bad_checksum.
    apply ValidateChecksum_no_envelope. exact H.
  - intros body h1 h2 rest v1 v2 Hb H1 H2 Hne.
    apply ParseNMEA_bad_checksum.
    rewrite (ValidateChecksum_envelope body h1 h2 rest v1 v2 Hb H1 H2).
    apply Z.eqb_neq. exact Hne.
  - intros body h1 h2 rest v1 v2 h1' h2' v1' v2' Hb H1 H2 H1' H2' Hok Hne.
    apply ParseNMEA_bad_checksum.
    rewrite (ValidateChecksum_envelope body h1 h2 rest v1 v2 Hb H1 H2) in Hok.
    apply Z.eqb_eq in Hok.
    rewrite (ValidateChecksum_envelope body h1' h2' rest v1' v2' Hb H1' H2').
    apply Z.eqb_neq. rewrite Hok. auto.
  - intros body1 c body2 c' h1 h2 rest v1 v2 Hb H1 H2 Hok Hc Hstar.
    apply ParseNMEA_bad_checksum.
    rewrite (ValidateChecksum_envelope _ h1 h2 rest v1 v2 Hb H1 H2) in Hok.
    apply Z.eqb_eq in Hok.
    rewrite plain_app in Hb. apply andb_prop in Hb. destruct Hb as [Hb1 Hb2].
    cbn [plain] in Hb2. apply andb_prop in Hb2. destruct Hb2 as [_ Hb2].
    destruct (Ascii.eqb_spec c' NUL) as [-> | Hnul].
    + apply ValidateChecksum_no_envelope. right. unfold envelope.
      cbn [c_str]. change (Ascii.eqb "$" NUL) with false. cbv iota.
      rewrite string_app_assoc.
      rewrite c_str_plain_app by exact Hb1.
      cbn [String.append c_str]. change (Ascii.eqb NUL NUL) with true.
      cbv iota. cbn [strchr_split]. change (Ascii.eqb "$" "*") with false.
      cbv iota. rewrite strchr_plain; [reflexivity |].
      rewrite plain_app, Hb1. reflexivity.
    + assert (Hb' : plain (body1 ++ String c' body2) = true).
      { rewrite plain_app, Hb1. cbn [plain]. rewrite Hb2.
        destruct (Ascii.eqb_spec c' "*"); [contradiction |].
        destruct (Ascii.eqb_spec c' NUL); [contradiction |]. reflexivity. }
      rewrite (ValidateChecksum_envelope _ h1 h2 rest v1 v2 Hb' H1 H2).
      apply Z.eqb_neq. rewrite <- Hok. apply xor_bytes_altered. exact Hc.
Qed.

(** The specification has every alteration of the two digits or of an
    interior byte rejected.  Two kinds are not, by the design of the check.
    Hexadecimal digits are read without regard to case, so [W*6A] altered
    to [W*6a] is accepted like the original; and the star is searched from
    the left, so an interior byte altered to a star can leave a shorter
    sentence whose check passes. *)
Lemma C4_counterexample :
  sentence_rmc = envelope body_rmc "6" "A" "" /\
  sentence_rmc_lower = envelope body_rmc "6" "a" "" /\
  status_of (GPS_ParseNMEA sentence_rmc blank_gps_data gps_after_init)
    = Some STATUS_OK /\
  status_of (GPS_ParseNMEA sentence_rmc_lower blank_gps_data gps_after_init)
    = Some STATUS_OK /\
  status_of (GPS_ParseNMEA sentence_no_fix blank_gps_data gps_after_init)
    = Some STATUS_OK /\
  status_of (GPS_ParseNMEA sentence_no_fix_starred blank_gps_data gps_after_init)
    = Some STATUS_OK.
Proof. vm_compute. repeat split. Qed.

(** A sentence without any digit after the star passes as well when the
    XOR of its body is 0: the result of [sscanf] is not looked at. *)
Example sentence_no_digits_accepted :
  status_of (GPS_ParseNMEA sentence_no_digits blank_gps_data gps_after_init)
    = Some STATUS_OK.
Proof. vm_compute. reflexivity. Qed.

Lemma C4_witness :
  GPS_ParseNMEA "GPGGA,1*31" blank_gps_data gps_after_init =
    Some (STATUS_ERROR, blank_gps_data, gps_after_init) /\
  GPS_ParseNMEA sentence_no_fix_bad_sum blank_gps_data gps_after_init =
    Some (STATUS_ERROR, blank_gps_data, gps_after_init) /\
  GPS_ParseNMEA (envelope body_rmc "6" "B" "") blank_gps_data gps_after_init =
    Some (STATUS_ERROR, blank_gps_data, gps_after_init) /\
  GPS_ParseNMEA
    (envelope ("GPRMC,123519,A,4807.038," ++ String "S"
                 ",01131.000,E,022.4,084.4,230394,003.1,W") "6" "A" "")
    blank_gps_data gps_after_init =
    Some (STATUS_ERROR, blank_gps_data, gps_after_init).
Proof.
  destruct (C4_checksum_mismatch_is_rejected blank_gps_data gps_after_init)
    as (Hshape & Hsum & Hdigits & Hbyte).
  split; [| split; [| split]].
  - apply Hshape. left. vm_compute. discriminate.
  - apply (Hsum "GPGGA,123519,4807.038,N,01131.000,E,0,00,9.9,5065,M,46.9,M,,"
                "6"%char "E"%char "" 6 14); try reflexivity.
    vm_compute. discriminate.
  - apply (Hdigits body_rmc "6"%char "A"%char "" 6 10 "6"%char "B"%char 6 11);
      try reflexivity. lia.
  - apply (Hbyte "GPRMC,123519,A,4807.038," "N"%char
                 ",01131.000,E,022.4,084.4,230394,003.1,W" "S"%char
                 "6"%char "A"%char "" 6 10); try reflexivity;
      discriminate.
Defined.

End Checksum.

(** ** The outcomes of the parser *)

Section Parser.

Local Open Scope string_scope.

Lemma string_app_nil_r (s : string) : s ++ "" = s.
Proof.
  induction s as [| c s IH]; cbn [String.append];
    [reflexivity | rewrite IH; reflexivity].
Qed.















(** A position-fix sentence as receivers send it before they have a fix,
    with its coordinate fields empty, is answered [STATUS_ERROR]: [strtok]
    passes over empty fields, and fewer than ten tokens are left. *)
Example sentence_empty_fields_rejected :
  GPS_ValidateChecksum sentence_empty_fields = true /\
  tokenize sentence_empty_fields =
    Some ["$GPGGA"; "123519"; "0"; "00"; "99.99"; "*45"] /\
  status_of (GPS_ParseNMEA sentence_empty_fields blank_gps_data gps_after_init)
    = Some STATUS_ERROR.
Proof. vm_compute. repeat split. Qed.

(** With only the time field empty the tokens move up by one: the
    fix-quality field holds 0, the token read as fix quality is the
    satellite count, and the sentence is taken for a fix. *)
Example sentence_shifted_fields_taken_for_a_fix :
  GPS_ValidateChecksum sentence_shifted_fields = true /\
  nth 6 (split_comma sentence_shifted_fields) "" = "0" /\
  (exists tokens,
     tokenize sentence_shifted_fields = Some tokens /\
     List.length tokens = 13%nat /\ token tokens 6 = "08") /\
  (exists gps_data st,
     GPS_ParseNMEA sentence_shifted_fields blank_gps_data gps_after_init =
       Some (STATUS_OK, gps_data, st) /\
     valid gps_data = true /\ fix_quality gps_data = 8).
Proof.
  split; [vm_compute; reflexivity |]. split; [vm_compute; reflexivity |].
  split.
  - eexists. split; [vm_compute; reflexivity |]. split; reflexivity.
  - destruct (GPS_ParseNMEA sentence_shifted_fields blank_gps_data
                gps_after_init) as [[[status gps_data] st] |] eqn:Hparse.
    + exists gps_data, st.
      assert (Hs : status_of (Some (status, gps_data, st)) = Some STATUS_OK)
        by (rewrite <- Hparse; vm_compute; reflexivity).
      injection Hs as ->. split; [reflexivity |].
      assert (Hv : option_map (fun r => (valid (snd (fst r)),
                                         fix_quality (snd (fst r))))
                     (Some (STATUS_OK, gps_data, st)) = Some (true, 8))
        by (rewrite <- Hparse; vm_compute; reflexivity).
      cbn in Hv. injection Hv as -> ->. split; reflexivity.
    + assert (Hs : status_of (@None (StatusCode_t * GPSData_t * GPSDriver))
                   = Some STATUS_OK)
        by (rewrite <- Hparse; vm_compute; reflexivity).
      discriminate Hs.
Qed.


End Parser.

(** ** Coordinate conversion *)

Section Coordinates.

Local Open Scope string_scope.

Lemma digit_facts c d :
  digit_of c = Some d ->
  d = code c - 48 /\ 0 <= d <= 9 /\
  isspace c = false /\ Ascii.eqb c "-" = false /\ Ascii.eqb c "+" = false /\
  Ascii.eqb c NUL = false /\ Ascii.eqb c "*" = false /\
  Ascii.eqb "i" (lower c) = false /\ Ascii.eqb "n" (lower c) = false /\
  Ascii.eqb "x" (lower c) = false.
Proof.
  destruct c as [[] [] [] [] [] [] [] []]; intros H; cbv in H;
    try discriminate H; injection H as <-;
    repeat split; try reflexivity; cbv; congruence.
Qed.

Lemma all_digits_plain s : all_digits s = true -> plain s = true.
Proof.
  induction s as [| c s IH]; cbn [all_digits plain]; intros H;
    [reflexivity |].
  destruct (digit_of c) as [d |] eqn:Hd; [| discriminate].
  destruct (digit_facts c d Hd) as (_ & _ & _ & _ & _ & Hn & Hs & _).
  rewrite Hn, Hs, (IH H). reflexivity.
Qed.

(** Reading a run of digits that ends the string or stops at a point. *)
Lemma read_digits_run s : forall rest acc n,
  all_digits s = true ->
  (rest = "" \/ exists rest', rest = String "." rest') ->
  read_digits (s ++ rest) acc n =
    (decimal s acc, (n + String.length s)%nat, rest).
Proof.
  induction s as [| c s IH]; intros rest acc n Hs Hrest.
  - cbn [String.append decimal String.length]. rewrite Nat.add_0_r.
    destruct Hrest as [-> | [rest' ->]]; reflexivity.
  - cbn [all_digits] in Hs. destruct (digit_of c) as [d |] eqn:Hd;
      [| discriminate].
    destruct (digit_facts c d Hd) as (-> & _).
    cbn [String.append read_digits decimal String.length]. rewrite Hd.
    rewrite (IH rest _ _ Hs Hrest). f_equal. f_equal. lia.
Qed.

Lemma read_digits_all s acc n :
  all_digits s = true ->
  read_digits s acc n = (decimal s acc, (n + String.length s)%nat, "").
Proof.
  intros Hs.
  pose proof (read_digits_run s "" acc n Hs (or_introl eq_refl)) as H.
  rewrite string_app_nil_r in H. exact H.
Qed.

Lemma decimal_app s1 : forall s2 acc,
  decimal (s1 ++ s2) acc = decimal s2 (decimal s1 acc).
Proof.
  induction s1 as [| c s1 IH]; intros s2 acc; cbn [String.append decimal];
    [reflexivity | apply IH].
Qed.

Lemma decimal_nonneg s : forall acc,
  all_digits s = true -> 0 <= acc -> 0 <= decimal s acc.
Proof.
  induction s as [| c s IH]; intros acc Hs Hacc; cbn [decimal];
    [exact Hacc |].
  cbn [all_digits] in Hs. destruct (digit_of c) as [d |] eqn:Hd;
    [| discriminate].
  destruct (digit_facts c d Hd) as (Hv & Hr & _).
  apply IH; [exact Hs | lia].
Qed.

(** What [atof] makes of a coordinate string: the double nearest to a
    rational equal to the number written. *)
Lemma atof_coordinate ip fp :
  ip <> "" -> all_digits ip = true -> all_digits fp = true ->
  exists q, (q == decimal_value ip fp)%Q /\
            atof (coordinate_string ip fp) = round_to binary64 q.
Proof.
  intros Hne Hip Hfp. unfold atof, coordinate_string.
  assert (Hplain : plain (ip ++ String "." fp) = true).
  { rewrite plain_app, (all_digits_plain ip Hip). cbn [plain].
    rewrite (all_digits_plain fp Hfp). reflexivity. }
  rewrite (c_str_plain _ Hplain).
  destruct ip as [| c ip]; [contradiction |].
  cbn [all_digits] in Hip. destruct (digit_of c) as [d |] eqn:Hd;
    [| discriminate].
  destruct (digit_facts c d Hd)
    as (Hv & Hr & Hsp & Hmi & Hpl & _ & _ & Hi & Hn & Hx).
  cbn [String.append skip_space]. rewrite Hsp.
  cbn [read_sign]. rewrite Hmi, Hpl.
  assert (Hspecial :
    starts_with_nocase "inf" (String c (ip ++ String "." fp)) ||
    starts_with_nocase "nan" (String c (ip ++ String "." fp)) ||
    starts_with_nocase "0x" (String c (ip ++ String "." fp)) = false).
  { cbn [starts_with_nocase]. rewrite Hi, Hn. cbn [andb orb].
    destruct (Ascii.eqb "0" (lower c)); [| reflexivity]. cbn [andb].
    destruct ip as [| c2 ip]; cbn [String.append]; [reflexivity |].
    cbn [all_digits] in Hip. destruct (digit_of c2) as [d2 |] eqn:Hd2;
      [| discriminate].
    destruct (digit_facts c2 d2 Hd2) as (_ & _ & _ & _ & _ & _ & _ & _ & _ & Hx2).
    rewrite Hx2. reflexivity. }
  apply orb_false_elim in Hspecial as [Hspecial Hhex].
  rewrite Hspecial, Hhex.
  assert (Hall : all_digits (String c ip) = true)
    by (cbn [all_digits]; rewrite Hd; exact Hip).
  change (String c (ip ++ String "." fp)) with (String c ip ++ String "." fp).
  rewrite (read_digits_run (String c ip) (String "." fp) 0 0 Hall)
    by (right; eexists; reflexivity).
  change (Ascii.eqb "." ".") with true. cbv iota.
  rewrite (read_digits_all fp _ 0 Hfp).
  cbn [Nat.add String.length read_exponent]. cbn [Nat.eqb].
  rewrite <- decimal_app.
  set (m := decimal (String c ip ++ fp) 0).
  set (k := Z.of_nat (String.length fp)).
  eexists. split; [| reflexivity].
  unfold decimal_value. fold m. fold k.
  destruct (Z.leb_spec 0 (0 - k)) as [Hk | Hk].
  - assert (k = 0) by (subst k; lia).
    replace (0 - k) with 0 by lia. replace k with 0 by lia.
    change (10 ^ 0) with 1. rewrite Z.mul_1_r. field.
  - replace (- (0 - k)) with k by lia. reflexivity.
Qed.

Local Open Scope Q_scope.

(** Division by the two constants of the conversion, as a product. *)
Ltac undiv :=
  unfold Qdiv; change (/ 100) with (1 # 100); change (/ 60) with (1 # 60).

Ltac undiv_in H :=
  unfold Qdiv in H; change (/ 100) with (1 # 100) in H;
  change (/ 60) with (1 # 60) in H.

(** One rounding: the result exists, and is within half a unit in the last
    place of numbers below [2 ^ k]. *)
Ltac rounding fmt x k r Hr Hlo Hhi :=
  let He := fresh "He" in
  let H := fresh "H" in
  assert (H : Qabs x < pow2 k);
  [ let p := eval vm_compute in (pow2 k) in
    change (pow2 k) with p;
    apply Qabs_Qlt_condition; undiv; split; lra
  | destruct (round_to_error fmt ltac:(cbn; lia) x k
                ltac:(cbn; lia) ltac:(cbn; lia) H) as (r & Hr & He);
    let e := eval vm_compute in (pow2 (k - prec fmt - 1)) in
    change (pow2 (k - prec fmt - 1)) with e in He;
    apply Qabs_Qle_condition in He; destruct He as [Hlo Hhi];
    undiv_in Hlo; undiv_in Hhi; clear H ].

Lemma convert_value_bound q v (d : Z) direction :
  q == v -> (0 <= d <= 999)%Z ->
  100 * inject_Z d <= v -> v < 100 * inject_Z d + 60 ->
  exists r,
    convert_value (round_to binary64 q) direction = Some r /\
    Qabs (r - hemisphere_sign direction *
                (inject_Z d + (v - 100 * inject_Z d) / 60)) <= 1 # 1000.
Proof.
  intros Hq Hd Hlo Hhi.
  assert (Hd0 : 0 <= inject_Z d)
    by (change 0 with (inject_Z 0); rewrite <- Zle_Qle; lia).
  assert (Hd1 : inject_Z d <= 999)
    by (change 999 with (inject_Z 999); rewrite <- Zle_Qle; lia).
  assert (H100 : inject_Z (d * 100) == 100 * inject_Z d)
    by (rewrite inject_Z_mult; change (inject_Z 100) with 100; ring).
  (* the double, then the float *)
  rounding binary64 q 17%Z c64 Hc64 Hc64lo Hc64hi.
  assert (Hc64ge : inject_Z (d * 100) <= c64).
  { apply (round_to_ge_int binary64 ltac:(cbn; lia) q (d * 100)%Z c64);
      [cbn; lia | | lra | exact Hc64].
    let p := eval vm_compute in (pow2 (prec binary64)) in
    change (pow2 (prec binary64)) with p.
    apply Qabs_Qlt_condition; split; lra. }
  rounding binary32 c64 17%Z c Hc Hclo Hchi.
  assert (Hcge : inject_Z (d * 100) <= c).
  { apply (round_to_ge_int binary32 ltac:(cbn; lia) c64 (d * 100)%Z c);
      [cbn; lia | | exact Hc64ge | exact Hc].
    let p := eval vm_compute in (pow2 (prec binary32)) in
    change (pow2 (prec binary32)) with p.
    apply Qabs_Qlt_condition; split; lra. }
  (* degrees *)
  rounding binary32 (c / 100) 10%Z t Ht Htlo Hthi.
  assert (Htge : inject_Z d <= t).
  { apply (round_to_ge_int binary32 ltac:(cbn; lia) (c / 100) d t);
      [cbn; lia | | undiv; lra | exact Ht].
    let p := eval vm_compute in (pow2 (prec binary32)) in
    change (pow2 (prec binary32)) with p.
    apply Qabs_Qlt_condition; undiv; split; lra. }
  assert (Hdeg : Qtrunc t = d).
  { apply Qtrunc_between; [lia | exact Htge |].
    rewrite inject_Z_plus. change (inject_Z 1) with 1. lra. }
  (* minutes *)
  rounding binary32 (inject_Z (d * 100)) 17%Z d100 Hd100 Hd100lo Hd100hi.
  rounding binary32 (c - d100) 7%Z mi Hmi Hmilo Hmihi.
  rounding binary32 (mi / 60) 1%Z mq Hmq Hmqlo Hmqhi.
  (* decimal degrees *)
  rounding binary32 (inject_Z d) 10%Z dd Hdd Hddlo Hddhi.
  rounding binary32 (dd + mq) 10%Z res Hres Hreslo Hreshi.
  assert (Hrange :
    negb ((INT_MIN <=? d * 100)%Z && (d * 100 <=? INT_MAX)%Z) = false).
  { apply negb_false_iff, andb_true_intro. unfold INT_MIN, INT_MAX.
    split; apply Z.leb_le; lia. }
  unfold convert_value. rewrite Hc64. cbn [f32_of_f64]. rewrite Hc.
  cbn [f32_div]. change (Qeq_bool 100 0) with false. cbv iota. rewrite Ht.
  rewrite Hdeg, Hrange. unfold f32_of_Z. rewrite Hd100, Hdd.
  unfold f32_sub, f32_add. cbn [lift2]. rewrite Hmi. cbn [f32_div lift2].
  change (Qeq_bool 60 0) with false. cbv iota. rewrite Hmq. cbn [lift2].
  rewrite Hres.
  unfold hemisphere_sign.
  destruct (Ascii.eqb (first_char direction) "S" ||
            Ascii.eqb (first_char direction) "W").
  - exists (- res). split; [reflexivity |].
    apply Qabs_Qle_condition. undiv. split; lra.
  - exists res. split; [reflexivity |].
    apply Qabs_Qle_condition. undiv. split; lra.
Qed.

Lemma decimal_value_nonneg ip fp :
  all_digits ip = true -> all_digits fp = true -> 0 <= decimal_value ip fp.
Proof.
  intros Hip Hfp. unfold decimal_value.
  assert (Hm : (0 <= decimal (ip ++ fp) 0)%Z).
  { rewrite decimal_app. apply decimal_nonneg; [exact Hfp |].
    apply decimal_nonneg; [exact Hip | lia]. }
  assert (Hp : (0 < 10 ^ Z.of_nat (String.length fp))%Z)
    by (apply Z.pow_pos_nonneg; lia).
  apply Qle_shift_div_l.
  - change 0 with (inject_Z 0). rewrite <- Zlt_Qlt. exact Hp.
  - rewrite Qmult_0_l. change 0 with (inject_Z 0). rewrite <- Zle_Qle.
    exact Hm.
Qed.

(** The hemisphere letter decides the sign and nothing else. *)
Lemma GPS_ConvertCoordinate_sign coord_str direction :
  GPS_ConvertCoordinate coord_str direction =
    if Ascii.eqb (first_char direction) "S" ||
       Ascii.eqb (first_char direction) "W"
    then f32_neg (GPS_ConvertCoordinate coord_str "N")
    else GPS_ConvertCoordinate coord_str "N".
Proof.
  unfold GPS_ConvertCoordinate.
  change (Ascii.eqb (first_char "N") "S" || Ascii.eqb (first_char "N") "W")%bool
    with false.
  destruct (f32_div (f32_of_f64 (atof coord_str)) (Some 100)) as [t |];
    [| destruct (_ || _)%bool; reflexivity].
  destruct (negb _); [destruct (_ || _)%bool |]; reflexivity.
Qed.

(** C7: for a coordinate written as digits, a point and digits, with at
    most three digits of degrees and minutes below 60, the conversion
    returns floor(value / 100) + (value - 100 floor(value / 100)) / 60, with
    the sign flipped exactly for the letters S and W, within 0.001 (the
    arithmetic is that of [float]); whatever the string, the result for a
    letter S or W is the negated result for any other letter; [4807.038]
    north gives 48.1173 and [01131.000] west gives -11.5167 within the
    same 0.001. *)
Theorem C7_coordinate_conversion :
  (forall ip fp direction,
     ip <> "" -> all_digits ip = true -> all_digits fp = true ->
     let value := decimal_value ip fp in
     let degrees := Qfloor (value / 100) in
     let minutes := value - 100 * inject_Z degrees in
     (degrees <= 999)%Z -> minutes < 60 ->
     exists r,
       GPS_ConvertCoordinate (coordinate_string ip fp) direction = Some r /\
       Qabs (r - hemisphere_sign direction *
                   (inject_Z degrees + minutes / 60)) <= 1 # 1000) /\
  (forall coord_str direction,
     GPS_ConvertCoordinate coord_str direction =
       if Ascii.eqb (first_char direction) "S" ||
          Ascii.eqb (first_char direction) "W"
       then f32_neg (GPS_ConvertCoordinate coord_str "N")
       else GPS_ConvertCoordinate coord_str "N") /\
  (exists r,
     GPS_ConvertCoordinate "4807.038" "N" = Some r /\
     Qabs (r - (481173 # 10000)) <= 1 # 1000) /\
  (exists r,
     GPS_ConvertCoordinate "01131.000" "W" = Some r /\
     Qabs (r - - (115167 # 10000)) <= 1 # 1000).
Proof.
  split; [| split; [exact GPS_ConvertCoordinate_sign | split]].
  - intros ip fp direction Hne Hip Hfp value degrees minutes Hdeg Hmin.
    destruct (atof_coordinate ip fp Hne Hip Hfp) as (q & Hq & Hatof).
    fold value in Hq.
    pose proof (decimal_value_nonneg ip fp Hip Hfp) as Hv. fold value in Hv.
    assert (Hfloor : inject_Z degrees <= value / 100) by apply Qfloor_le.
    assert (Hd0 : (0 <= degrees)%Z).
    { subst degrees. rewrite <- (Qfloor_Z 0). apply Qfloor_resp_le.
      undiv. change (inject_Z 0) with 0. lra. }
    undiv_in Hfloor.
    change (GPS_ConvertCoordinate (coordinate_string ip fp) direction)
      with (convert_value (atof (coordinate_string ip fp)) direction).
    rewrite Hatof.
    apply (convert_value_bound q value degrees direction Hq);
      [lia | lra | subst minutes; lra].
  - eexists. split; [vm_compute; reflexivity |].
    vm_compute. intros H. discriminate H.
  - eexists. split; [vm_compute; reflexivity |].
    vm_compute. intros H. discriminate H.
Qed.

Lemma C7_witness :
  exists r,
    GPS_ConvertCoordinate "4807.038" "S" = Some r /\
    Qabs (r - - (48 + (7038 # 1000) / 60)) <= 1 # 1000.
Proof.
  destruct (proj1 C7_coordinate_conversion "4807" "038" "S")
    as (r & Hr & Hbound).
  - discriminate.
  - reflexivity.
  - reflexivity.
  - vm_compute. discriminate.
  - vm_compute. reflexivity.
  - exists r. split; [exact Hr |].
    assert (Heq : hemisphere_sign "S" *
                  (inject_Z (Qfloor (decimal_value "4807" "038" / 100)) +
                   (decimal_value "4807" "038" -
                    100 * inject_Z (Qfloor (decimal_value "4807" "038" / 100)))
                   / 60) == - (48 + (7038 # 1000) / 60))
      by (vm_compute; reflexivity).
    rewrite <- Heq. exact Hbound.
Defined.

(** Outside the range of minutes the sum is not the formula's: the
    [float] nearest to 4799.9999 is 4800, whose degrees are 48. *)
Example GPS_ConvertCoordinate_ninety_nine_minutes :
  GPS_ConvertCoordinate "4799.9999" "N" = Some 48.
Proof. vm_compute. reflexivity. Qed.

End Coordinates.

(** ** More on the record buffer *)

Section BufferSequences.

Local Abbreviation N := TELEMETRY_BUFFER_SIZE.

Local Opaque TELEMETRY_BUFFER_SIZE.

Lemma last_n_short {A} n (l : list A) :
  (List.length l <= n)%nat -> last_n n l = l.
Proof.
  intros H. unfold last_n. replace (List.length l - n)%nat with 0%nat by lia.
  reflexivity.
Qed.

Lemma last_n_app_absorb {A} n (l m : list A) :
  last_n n (last_n n l ++ m) = last_n n (l ++ m).
Proof.
  unfold last_n. set (k := (List.length l - n)%nat).
  assert (Hk : (k <= List.length l)%nat) by (subst k; lia).
  assert (Hs : skipn k (l ++ m) = skipn k l ++ m).
  { rewrite skipn_app. replace (k - List.length l)%nat with 0%nat by lia.
    reflexivity. }
  rewrite <- Hs, skipn_skipn. f_equal.
  rewrite Hs, !length_app, length_skipn. subst k. lia.
Qed.

Lemma last_n_length {A} n (l : list A) :
  List.length (last_n n l) = Nat.min n (List.length l).
Proof. unfold last_n. rewrite length_skipn. lia. Qed.

(** One push, whatever the fill: the newest [N] records are kept. *)
Lemma Push_contents b r :
  buffer_wf b ->
  exists b', CircularBuffer_Push b r = (STATUS_OK, b') /\
             buffer_wf b' /\
             contents b' = last_n (Z.to_nat N) (contents b ++ [r]) /\
             count b' = Z.min N (count b + 1) /\
             overflow_count b' =
               u32 (overflow_count b + Z.max 0 (count b + 1 - N)).
Proof.
  intros Hwf. pose proof (wf_count _ Hwf) as Hc.
  pose proof (wf_overflow _ Hwf) as Ho.
  pose proof (length_contents b ltac:(lia)) as Hlen.
  destruct (Z.eq_dec (count b) N) as [Hfull | Hne].
  - destruct (Push_full b r Hwf Hfull) as (b' & Hp & Hwf' & Hc' & Ho' & Hcont).
    exists b'. split; [exact Hp |]. split; [exact Hwf' |].
    split; [| split].
    + rewrite Hcont. unfold last_n. rewrite length_app. cbn [List.length].
      replace (List.length (contents b) + 1 - Z.to_nat N)%nat with 1%nat
        by lia.
      destruct (contents b) as [| x xs]; [cbn in Hlen; rewrite N_val in *; lia |].
      reflexivity.
    + rewrite Hc'. lia.
    + rewrite Ho'. f_equal. lia.
  - destruct (Push_not_full b r Hwf ltac:(lia))
      as (b' & Hp & Hwf' & Hc' & Ho' & Hcont).
    exists b'. split; [exact Hp |]. split; [exact Hwf' |].
    split; [| split].
    + rewrite Hcont. symmetry. apply last_n_short.
      rewrite length_app. cbn [List.length]. lia.
    + rewrite Hc'. lia.
    + rewrite Ho'. replace (Z.max 0 (count b + 1 - N)) with 0 by lia.
      rewrite Z.add_0_r. unfold u32. symmetry. apply Z.mod_small. exact Ho.
Qed.

Lemma push_all_spec rs : forall b,
  buffer_wf b ->
  buffer_wf (push_all rs b) /\
  contents (push_all rs b) = last_n (Z.to_nat N) (contents b ++ rs) /\
  count (push_all rs b) = Z.min N (count b + Z.of_nat (List.length rs)) /\
  overflow_count (push_all rs b) =
    u32 (overflow_count b +
         Z.max 0 (count b + Z.of_nat (List.length rs) - N)).
Proof.
  induction rs as [| r rs IH]; intros b Hwf.
  - pose proof (wf_count _ Hwf) as Hc. pose proof (wf_overflow _ Hwf) as Ho.
    cbn [push_all fold_left List.length Z.of_nat].
    rewrite app_nil_r, Z.add_0_r.
    split; [exact Hwf |]. split; [| split].
    + symmetry. apply last_n_short.
      pose proof (length_contents b ltac:(lia)). lia.
    + lia.
    + replace (Z.max 0 (count b - N)) with 0 by lia.
      rewrite Z.add_0_r. unfold u32. symmetry. apply Z.mod_small. exact Ho.
  - destruct (Push_contents b r Hwf) as (b1 & Hp & Hwf1 & Hcont1 & Hc1 & Ho1).
    destruct (IH b1 Hwf1) as (Hwf' & Hcont' & Hc' & Ho').
    pose proof (wf_count _ Hwf) as Hc.
    change (push_all (r :: rs) b)
      with (push_all rs (snd (CircularBuffer_Push b r))).
    rewrite Hp. cbn [snd].
    split; [exact Hwf' |]. split; [| split].
    + rewrite Hcont', Hcont1, last_n_app_absorb, <- app_assoc. reflexivity.
    + rewrite Hc', Hc1. cbn [List.length]. lia.
    + rewrite Ho', Ho1, Hc1. cbn [List.length]. unfold u32.
      rewrite Zplus_mod_idemp_l. f_equal. lia.
Qed.

(** The record [CircularBuffer_Peek] reads at [offset] is the element of
    that rank in [contents]. *)
Lemma peek_nth b offset :
  buffer_wf b -> 0 <= offset < count b ->
  slot_get (records b) (u32 (read_index b + offset) mod N) =
  nth (Z.to_nat offset) (contents b) zero_record.
Proof.
  intros Hwf Hoff. pose proof (wf_count _ Hwf) as Hc.
  pose proof (wf_read _ Hwf) as Hr.
  assert (Hsmall : u32 (read_index b + offset) = read_index b + offset).
  { unfold u32. apply Z.mod_small. rewrite N_val in *. lia. }
  rewrite Hsmall. unfold contents.
  rewrite (nth_indep _ zero_record
             (slot_get (records b) ((read_index b + Z.of_nat 0) mod N)))
    by (rewrite length_map, length_seq; lia).
  rewrite (map_nth (fun k => slot_get (records b)
                               ((read_index b + Z.of_nat k) mod N))).
  rewrite seq_nth by lia. cbn [Nat.add]. rewrite Z2Nat.id by lia.
  reflexivity.
Qed.

Lemma PopBatch_spec b out max_count :
  buffer_wf b -> 0 < max_count ->
  exists b',
    CircularBuffer_PopBatch b out max_count =
      (Z.of_nat (List.length (firstn (Z.to_nat max_count) (contents b))), b',
       write_out out 0 (firstn (Z.to_nat max_count) (contents b))) /\
    buffer_wf b' /\
    contents b' = skipn (Z.to_nat max_count) (contents b) /\
    overflow_count b' = overflow_count b.
Proof.
  intros Hwf Hmax.
  destruct (pop_batch_loop_spec (Z.to_nat max_count) b out 0 0 Hwf)
    as (b' & Hloop & Hwf' & Hcont' & _ & Ho').
  cbv zeta in Hloop. exists b'. split; [| split; [exact Hwf' | split]].
  - unfold CircularBuffer_PopBatch.
    destruct (Z.eqb_spec max_count 0) as [? | _]; [lia |].
    rewrite (wf_init _ Hwf). cbn [negb]. rewrite Hloop. reflexivity.
  - exact Hcont'.
  - exact Ho'.
Qed.

Lemma IsEmpty_contents b :
  buffer_wf b -> (CircularBuffer_IsEmpty b = true <-> contents b = []).
Proof.
  intros Hwf. pose proof (wf_count _ Hwf) as Hc.
  pose proof (length_contents b ltac:(lia)) as Hlen.
  unfold CircularBuffer_IsEmpty. rewrite (wf_init _ Hwf). cbn [negb].
  rewrite Z.eqb_eq. split.
  - apply contents_empty.
  - intros H. rewrite H in Hlen. cbn in Hlen. lia.
Qed.

Lemma push_all_run_ops rs : forall b,
  push_all rs b = run_ops (map OpPush rs) b.
Proof.
  induction rs as [| r rs IH]; intros b; [reflexivity |].
  cbn [map]. unfold run_ops, push_all in *. cbn [fold_left apply_op].
  apply IH.
Qed.

Lemma push_all_initialized rs b :
  initialized_buffer b -> initialized_buffer (push_all rs b).
Proof.
  intros (raw & ops & ->). exists raw, (ops ++ map OpPush rs).
  rewrite push_all_run_ops. unfold run_ops. rewrite fold_left_app.
  reflexivity.
Qed.

(** X1: pushing a sequence of records, however long, leaves the newest
    [TELEMETRY_BUFFER_SIZE] records of the old contents followed by the
    sequence, in order; the count saturates at the capacity and the overflow
    counter grows by the number of records dropped, modulo 2^32. *)
Theorem X1_push_sequence_keeps_newest :
  forall b rs,
    initialized_buffer b ->
    let b' := push_all rs b in
    let pushed := Z.of_nat (List.length rs) in
    initialized_buffer b' /\
    contents b' =
      last_n (Z.to_nat TELEMETRY_BUFFER_SIZE) (contents b ++ rs) /\
    CircularBuffer_GetCount b' =
      Z.min TELEMETRY_BUFFER_SIZE (count b + pushed) /\
    CircularBuffer_GetOverflowCount b' =
      u32 (overflow_count b +
           Z.max 0 (count b + pushed - TELEMETRY_BUFFER_SIZE)).
Proof.
  intros b rs Hb. cbv zeta.
  pose proof (initialized_buffer_wf _ Hb) as Hwf.
  destruct (push_all_spec rs b Hwf) as (Hwf' & Hcont & Hc & Ho).
  split; [| split; [exact Hcont | split]].
  - apply push_all_initialized. exact Hb.
  - unfold CircularBuffer_GetCount. rewrite (wf_init _ Hwf'). exact Hc.
  - unfold CircularBuffer_GetOverflowCount. rewrite (wf_init _ Hwf').
    exact Ho.
Qed.

(** X2: draining with [CircularBuffer_PopBatch] after a sequence of pushes
    delivers the records kept, oldest first, and empties the buffer; pushed
    into an empty buffer, a sequence no longer than the capacity comes back
    as it went in. *)
Theorem X2_drain_returns_records_in_push_order :
  forall b rs out max_count,
    initialized_buffer b ->
    0 < max_count ->
    CircularBuffer_GetCount (push_all rs b) <= max_count ->
    max_count <= Z.of_nat (List.length out) ->
    exists b' out',
      let kept :=
        last_n (Z.to_nat TELEMETRY_BUFFER_SIZE) (contents b ++ rs) in
      CircularBuffer_PopBatch (push_all rs b) out max_count =
        (Z.of_nat (List.length kept), b', out') /\
      firstn (List.length kept) out' = kept /\
      CircularBuffer_IsEmpty b' = true /\
      (count b = 0 ->
       Z.of_nat (List.length rs) <= TELEMETRY_BUFFER_SIZE -> kept = rs).
Proof.
  intros b rs out max_count Hb Hpos Hmax Hroom.
  pose proof (initialized_buffer_wf _ Hb) as Hwf.
  destruct (push_all_spec rs b Hwf) as (Hwf' & Hcont & Hc & _).
  unfold CircularBuffer_GetCount in Hmax. rewrite (wf_init _ Hwf') in Hmax.
  cbn [negb] in Hmax.
  pose proof (wf_count _ Hwf') as Hc'.
  pose proof (length_contents _ (proj1 Hc')) as Hlen.
  destruct (PopBatch_spec (push_all rs b) out max_count Hwf' Hpos)
    as (b' & Hpb & Hwfb & Hcontb & _).
  rewrite firstn_all2 in Hpb by lia. rewrite Hcont in Hpb.
  exists b', (write_out out 0
                (last_n (Z.to_nat N) (contents b ++ rs))).
  cbv zeta. rewrite Hcont in Hlen.
  split; [exact Hpb |]. split; [| split].
  - apply write_out_prefix. lia.
  - apply IsEmpty_contents; [exact Hwfb |]. rewrite Hcontb.
    apply skipn_all2. rewrite Hcont. lia.
  - intros Hz Hle. rewrite (contents_empty b Hz). cbn [app].
    apply last_n_short. lia.
Qed.

(** X3: the utilisation of an initialised buffer is [count * 100 / capacity]
    with no wrap-around, lies between 0 and 100, is 100 exactly when the
    buffer is full, and exceeds 50 exactly when more than 1044 records are
    held. *)
Theorem X3_utilization_is_a_percentage :
  forall b,
    initialized_buffer b ->
    CircularBuffer_GetUtilization b =
      count b * 100 / TELEMETRY_BUFFER_SIZE /\
    0 <= CircularBuffer_GetUtilization b <= 100 /\
    (CircularBuffer_GetUtilization b = 100 <->
     CircularBuffer_IsFull b = true) /\
    (50 < CircularBuffer_GetUtilization b <-> 1044 < count b).
Proof.
  intros b Hb. apply initialized_buffer_wf in Hb.
  pose proof (wf_count _ Hb) as Hc.
  assert (Hu : CircularBuffer_GetUtilization b = count b * 100 / N).
  { unfold CircularBuffer_GetUtilization. rewrite (wf_init _ Hb).
    cbn [negb]. unfold u8, u32. rewrite N_val in *.
    rewrite (Z.mod_small (count b * 100)) by lia.
    apply Z.mod_small.
    split; [apply Z.div_pos; lia |].
    apply Z.div_lt_upper_bound; lia. }
  unfold CircularBuffer_IsFull. rewrite (wf_init _ Hb). cbn [negb].
  rewrite Z.leb_le, Hu. rewrite N_val in *.
  split; [reflexivity |].
  pose proof (Z.div_mod (count b * 100) 2048 ltac:(lia)) as Hdm.
  pose proof (Z.mod_pos_bound (count b * 100) 2048 ltac:(lia)) as Hmb.
  repeat split; try lia.
Qed.

(** X4: [CircularBuffer_Clear] forgets the records held but neither the
    overflow counter nor the storage; afterwards a pop finds nothing and
    pushes fill the buffer as they fill a new one. *)
Theorem X4_clear_empties_and_keeps_overflow_count :
  forall b,
    initialized_buffer b ->
    exists b',
      CircularBuffer_Clear b = (STATUS_OK, b') /\
      initialized_buffer b' /\
      contents b' = [] /\
      CircularBuffer_IsEmpty b' = true /\
      CircularBuffer_GetOverflowCount b' = CircularBuffer_GetOverflowCount b /\
      records b' = records b /\
      (forall record,
         CircularBuffer_Pop b' record = (STATUS_NO_DATA, b', record)) /\
      (forall rs,
         contents (push_all rs b') =
           last_n (Z.to_nat TELEMETRY_BUFFER_SIZE) rs).
Proof.
  intros b Hb. pose proof (initialized_buffer_wf _ Hb) as Hwf.
  pose proof (Clear_wf b Hwf) as Hwf'.
  assert (Hclear : CircularBuffer_Clear b =
            (STATUS_OK,
             mkBuffer (records b) 0 0 0 (overflow_count b) (initialized b))).
  { unfold CircularBuffer_Clear. rewrite (wf_init _ Hwf). reflexivity. }
  rewrite Hclear in Hwf'. cbn [snd] in Hwf'.
  eexists. split; [exact Hclear |].
  split; [| split; [| split; [| split; [| split; [| split]]]]].
  - destruct Hb as (raw & ops & ->). exists raw, (ops ++ [OpClear]).
    unfold run_ops in *. rewrite fold_left_app. cbn [fold_left apply_op].
    rewrite Hclear. reflexivity.
  - apply contents_empty. reflexivity.
  - apply IsEmpty_contents; [exact Hwf' |]. apply contents_empty. reflexivity.
  - unfold CircularBuffer_GetOverflowCount. cbn [initialized overflow_count].
    reflexivity.
  - reflexivity.
  - intros record. apply Pop_empty; [exact Hwf' | reflexivity].
  - intros rs. destruct (push_all_spec rs _ Hwf') as (_ & Hcont & _).
    rewrite Hcont, contents_empty by reflexivity. reflexivity.
Qed.

(** X5: on an initialised buffer the observers agree with the records held:
    the count is their number, the buffer is empty exactly when there is
    none and exactly when a pop answers [STATUS_NO_DATA], full exactly when
    there are [TELEMETRY_BUFFER_SIZE], and never both. *)
Theorem X5_observers_agree_with_contents :
  forall b,
    initialized_buffer b ->
    CircularBuffer_GetCount b = Z.of_nat (List.length (contents b)) /\
    (CircularBuffer_IsEmpty b = true <-> contents b = []) /\
    (CircularBuffer_IsEmpty b = true <->
     forall record,
       CircularBuffer_Pop b record = (STATUS_NO_DATA, b, record)) /\
    (CircularBuffer_IsFull b = true <->
     Z.of_nat (List.length (contents b)) = TELEMETRY_BUFFER_SIZE) /\
    CircularBuffer_IsFull b && CircularBuffer_IsEmpty b = false.
Proof.
  intros b Hb. apply initialized_buffer_wf in Hb.
  pose proof (wf_count _ Hb) as Hc.
  pose proof (length_contents b ltac:(lia)) as Hlen.
  split; [| split; [| split; [| split]]].
  - unfold CircularBuffer_GetCount. rewrite (wf_init _ Hb). cbn [negb]. lia.
  - apply IsEmpty_contents. exact Hb.
  - unfold CircularBuffer_IsEmpty. rewrite (wf_init _ Hb). cbn [negb].
    rewrite Z.eqb_eq. split.
    + intros Hz record. apply Pop_empty; assumption.
    + intros Hpop. destruct (Z.eq_dec (count b) 0) as [? | Hne]; [assumption |].
      destruct (Pop_not_empty b zero_record Hb ltac:(lia))
        as (b' & x & xs & _ & _ & Hp & _).
      rewrite Hpop in Hp. discriminate.
  - unfold CircularBuffer_IsFull. rewrite (wf_init _ Hb). cbn [negb].
    rewrite Z.leb_le. lia.
  - unfold CircularBuffer_IsFull, CircularBuffer_IsEmpty.
    rewrite (wf_init _ Hb). cbn [negb].
    destruct (Z.leb_spec N (count b)); [| reflexivity].
    destruct (Z.eqb_spec (count b) 0); [| reflexivity].
    rewrite N_val in *. lia.
Qed.

(** X6: [CircularBuffer_Peek] at [offset] reads the record that the pop of
    rank [offset + 1] delivers: the one [CircularBuffer_PopBatch] stores in
    slot [offset] of the caller's array. *)
Theorem X6_peek_previews_the_pops :
  forall b record out max_count offset,
    initialized_buffer b ->
    0 <= offset < count b ->
    offset < max_count ->
    max_count <= Z.of_nat (List.length out) ->
    exists n b' out',
      CircularBuffer_PopBatch b out max_count = (n, b', out') /\
      offset < n /\
      CircularBuffer_Peek b record offset =
        (STATUS_OK, b, slot_get out' offset).
Proof.
  intros b record out max_count offset Hb Hoff Hmax Hroom.
  apply initialized_buffer_wf in Hb.
  pose proof (wf_count _ Hb) as Hc.
  pose proof (length_contents b ltac:(lia)) as Hlen.
  destruct (PopBatch_spec b out max_count Hb ltac:(lia))
    as (b' & Hpb & _).
  do 3 eexists. split; [exact Hpb |].
  assert (Hn : Z.of_nat (List.length
                 (firstn (Z.to_nat max_count) (contents b))) =
               Z.min max_count (count b)).
  { rewrite length_firstn. lia. }
  split; [lia |].
  unfold CircularBuffer_Peek. rewrite (wf_init _ Hb). cbn [negb].
  destruct (Z.leb_spec (count b) offset) as [? | _]; [lia |].
  f_equal. rewrite (peek_nth b offset Hb Hoff).
  pose proof (write_out_get (firstn (Z.to_nat max_count) (contents b))
                out 0 (Z.to_nat offset)) as Hget.
  replace (0 + Z.of_nat (Z.to_nat offset)) with offset in Hget by lia.
  rewrite Hget by lia.
  rewrite nth_firstn.
  destruct (Nat.ltb_spec (Z.to_nat offset) (Z.to_nat max_count)); [| lia].
  reflexivity.
Qed.

(** X7: a buffer that was never initialised refuses every operation and is
    changed by none: whatever sequence of pushes, pops, peeks, batch pops
    and clears is run on it, it stays as it was. *)
Theorem X7_uninitialised_buffer_refuses_everything :
  forall b ops,
    initialized b = false ->
    forallb not_init ops = true ->
    run_ops ops b = b /\
    (forall r, CircularBuffer_Push b r = (STATUS_NOT_INITIALIZED, b)) /\
    (forall r, CircularBuffer_Pop b r = (STATUS_NOT_INITIALIZED, b, r)) /\
    (forall r k, CircularBuffer_Peek b r k = (STATUS_NOT_INITIALIZED, b, r)) /\
    CircularBuffer_Clear b = (STATUS_NOT_INITIALIZED, b) /\
    (forall out k, CircularBuffer_PopBatch b out k = (0, b, out)) /\
    CircularBuffer_GetCount b = 0 /\
    CircularBuffer_GetUtilization b = 0 /\
    CircularBuffer_GetOverflowCount b = 0 /\
    CircularBuffer_IsEmpty b = true /\
    CircularBuffer_IsFull b = false.
Proof.
  intros b ops Hb Hops.
  assert (Hstep : forall op, not_init op = true -> apply_op b op = b).
  { intros [| r | | k | out k |] Hop; try discriminate; cbn [apply_op].
    - unfold CircularBuffer_Push. rewrite Hb. reflexivity.
    - unfold CircularBuffer_Pop. rewrite Hb. reflexivity.
    - apply Peek_unchanged.
    - unfold CircularBuffer_PopBatch. rewrite Hb.
      destruct (k =? 0); reflexivity.
    - unfold CircularBuffer_Clear. rewrite Hb. reflexivity. }
  split.
  - unfold run_ops. induction ops as [| op ops IH]; [reflexivity |].
    cbn [forallb] in Hops. apply andb_true_iff in Hops as [Hop Hops].
    cbn [fold_left]. rewrite (Hstep op Hop). apply IH. exact Hops.
  - unfold CircularBuffer_Push, CircularBuffer_Pop, CircularBuffer_Peek,
      CircularBuffer_Clear, CircularBuffer_PopBatch, CircularBuffer_GetCount,
      CircularBuffer_GetUtilization, CircularBuffer_GetOverflowCount,
      CircularBuffer_IsEmpty, CircularBuffer_IsFull.
    rewrite Hb. cbn [negb].
    repeat (split; [try reflexivity |]); try reflexivity.
    intros out k. destruct (k =? 0); reflexivity.
Qed.

Lemma X1_witness :
  contents (push_all [sample_record 5000; sample_record 5001] full_buffer) =
    last_n (Z.to_nat TELEMETRY_BUFFER_SIZE)
      (contents full_buffer ++ [sample_record 5000; sample_record 5001]) /\
  CircularBuffer_GetCount
    (push_all [sample_record 5000; sample_record 5001] full_buffer) =
    Z.min TELEMETRY_BUFFER_SIZE (count full_buffer + 2).
Proof.
  pose proof (X1_push_sequence_keeps_newest full_buffer
                [sample_record 5000; sample_record 5001]
                (run_ops_initialized (push_ops 2048))) as H.
  cbv zeta in H. destruct H as (_ & Hcont & Hc & _).
  split; [exact Hcont | exact Hc].
Defined.

Lemma X2_witness :
  exists b' out',
    CircularBuffer_PopBatch (push_all [sample_record 10] three_buffer)
      (repeat zero_record 5) 5 = (4, b', out') /\
    firstn 4 out' = contents three_buffer ++ [sample_record 10] /\
    CircularBuffer_IsEmpty b' = true.
Proof.
  destruct (X2_drain_returns_records_in_push_order three_buffer
              [sample_record 10] (repeat zero_record 5) 5
              (run_ops_initialized (push_ops 3)))
    as (b' & out' & Hpb & Hout & Hempty & _).
  - lia.
  - vm_compute. discriminate.
  - simpl. lia.
  - exists b', out'. split; [exact Hpb |]. split; [exact Hout | exact Hempty].
Defined.

Lemma X3_witness :
  CircularBuffer_GetUtilization full_buffer = 100 /\
  CircularBuffer_GetUtilization three_buffer = 0.
Proof.
  split.
  - apply (X3_utilization_is_a_percentage full_buffer
             (run_ops_initialized (push_ops 2048))).
    vm_compute. reflexivity.
  - destruct (X3_utilization_is_a_percentage three_buffer
                (run_ops_initialized (push_ops 3))) as (Hu & _).
    rewrite Hu. vm_compute. reflexivity.
Defined.

Lemma X4_witness :
  exists b',
    CircularBuffer_Clear three_buffer = (STATUS_OK, b') /\
    contents b' = [] /\
    CircularBuffer_Pop b' zero_record = (STATUS_NO_DATA, b', zero_record).
Proof.
  destruct (X4_clear_empties_and_keeps_overflow_count three_buffer
              (run_ops_initialized (push_ops 3)))
    as (b' & Hclear & _ & Hcont & _ & _ & _ & Hpop & _).
  exists b'. split; [exact Hclear |]. split; [exact Hcont | apply Hpop].
Defined.

Lemma X5_witness :
  CircularBuffer_GetCount three_buffer =
    Z.of_nat (List.length (contents three_buffer)) /\
  CircularBuffer_IsFull three_buffer && CircularBuffer_IsEmpty three_buffer =
    false.
Proof.
  destruct (X5_observers_agree_with_contents three_buffer
              (run_ops_initialized (push_ops 3)))
    as (Hc & _ & _ & _ & Hnot).
  split; [exact Hc | exact Hnot].
Defined.

Lemma X6_witness :
  exists n b' out',
    CircularBuffer_PopBatch three_buffer (repeat zero_record 2) 2 =
      (n, b', out') /\
    CircularBuffer_Peek three_buffer zero_record 1 =
      (STATUS_OK, three_buffer, slot_get out' 1).
Proof.
  destruct (X6_peek_previews_the_pops three_buffer zero_record
              (repeat zero_record 2) 2 1
              (run_ops_initialized (push_ops 3)))
    as (n & b' & out' & Hpb & _ & Hpeek).
  - split; [lia | vm_compute; reflexivity].
  - lia.
  - simpl. lia.
  - exists n, b', out'. split; [exact Hpb | exact Hpeek].
Defined.

Lemma X7_witness :
  run_ops [OpPush (sample_record 1); OpPop; OpClear] raw_buffer = raw_buffer /\
  CircularBuffer_Push raw_buffer (sample_record 1) =
    (STATUS_NOT_INITIALIZED, raw_buffer).
Proof.
  destruct (X7_uninitialised_buffer_refuses_everything raw_buffer
              [OpPush (sample_record 1); OpPop; OpClear]
              ltac:(reflexivity) ltac:(reflexivity))
    as (Hrun & Hpush & _).
  split; [exact Hrun | apply Hpush].
Defined.

Lemma write_out_get_after rs : forall out i j,
  0 <= i -> i + Z.of_nat (List.length rs) <= j ->
  slot_get (write_out out i rs) j = slot_get out j.
Proof.
  induction rs as [| r rs IH]; intros out i j Hi Hj; cbn [write_out];
    [reflexivity |].
  cbn [List.length] in Hj.
  rewrite IH by lia. apply slot_get_set_other; lia.
Qed.

(** The batch copy leaves the caller's array alone past the records
    written. *)
Lemma write_out_suffix out rs :
  skipn (List.length rs) (write_out out 0 rs) = skipn (List.length rs) out.
Proof.
  apply (nth_ext _ _ zero_record zero_record).
  - rewrite !length_skipn, write_out_length. reflexivity.
  - intros k _. rewrite !nth_skipn.
    pose proof (write_out_get_after rs out 0
                  (Z.of_nat (List.length rs + k)) ltac:(lia) ltac:(lia)) as H.
    unfold slot_get in H. rewrite Nat2Z.id in H. exact H.
Qed.

(** C8: on an initialised buffer and for a positive [max_count] that the
    caller's array has room for, the batch pop hands back exactly
    min(max_count, count) records, the oldest ones in their order, and
    leaves the others in the buffer; when [max_count] exceeds the count that
    is every record, and the buffer is left empty.  The records handed back
    are those stored from the read index on, the rest of the caller's array
    is as it was; when the buffer was filled by pushing the records [rs]
    into an empty one, they are the first of the newest
    [TELEMETRY_BUFFER_SIZE] of [rs], and the buffer keeps the ones after
    them. *)
Theorem C8_pop_batch_takes_oldest :
  forall b out max_count,
    initialized_buffer b ->
    0 < max_count < 2 ^ 32 ->
    max_count <= Z.of_nat (List.length out) ->
    exists b' out',
      let n := Z.min max_count (count b) in
      CircularBuffer_PopBatch b out max_count = (n, b', out') /\
      firstn (Z.to_nat n) out' = firstn (Z.to_nat n) (contents b) /\
      contents b' = skipn (Z.to_nat n) (contents b) /\
      count b' = count b - n /\
      (count b < max_count ->
         n = count b /\ firstn (Z.to_nat n) out' = contents b /\
         count b' = 0 /\ CircularBuffer_IsEmpty b' = true) /\
      (forall k, (k < Z.to_nat n)%nat ->
         nth k out' zero_record =
         nth (Z.to_nat ((read_index b + Z.of_nat k) mod TELEMETRY_BUFFER_SIZE))
             (records b) zero_record) /\
      skipn (Z.to_nat n) out' = skipn (Z.to_nat n) out /\
      (forall b0 rs,
         initialized_buffer b0 -> count b0 = 0 -> b = push_all rs b0 ->
         let newest := last_n (Z.to_nat TELEMETRY_BUFFER_SIZE) rs in
         firstn (Z.to_nat n) out' = firstn (Z.to_nat n) newest /\
         contents b' = skipn (Z.to_nat n) newest).
Proof.
  intros b out max_count Hinit Hmax Hroom.
  pose proof (initialized_buffer_wf _ Hinit) as Hb.
  pose proof (wf_count _ Hb) as Hc.
  pose proof (length_contents b ltac:(lia)) as Hlen.
  destruct (pop_batch_loop_spec (Z.to_nat max_count) b out 0 0 Hb)
    as (b' & Hloop & Hwf' & Hcont' & Hc' & _).
  cbv zeta in Hloop, Hc'.
  assert (Htaken : firstn (Z.to_nat max_count) (contents b) =
                   firstn (Z.to_nat (Z.min max_count (count b))) (contents b)).
  { destruct (Z.le_gt_cases max_count (count b)) as [Hle | Hgt].
    - rewrite Z.min_l by lia. reflexivity.
    - rewrite Z.min_r by lia. rewrite !firstn_all2 by lia. reflexivity. }
  assert (Hn : Z.of_nat (List.length (firstn (Z.to_nat max_count) (contents b)))
               = Z.min max_count (count b)).
  { rewrite length_firstn. lia. }
  exists b', (write_out out 0 (firstn (Z.to_nat max_count) (contents b))).
  cbv zeta.
  assert (Hfirst :
    firstn (Z.to_nat (Z.min max_count (count b)))
      (write_out out 0 (firstn (Z.to_nat max_count) (contents b))) =
    firstn (Z.to_nat (Z.min max_count (count b))) (contents b)).
  { rewrite <- Htaken. rewrite <- Hn, Nat2Z.id.
    apply write_out_prefix. lia. }
  assert (Hrest :
    contents b' = skipn (Z.to_nat (Z.min max_count (count b))) (contents b)).
  { rewrite Hcont'.
    destruct (Z.le_gt_cases max_count (count b)) as [Hle | Hgt].
    + rewrite Z.min_l by lia. reflexivity.
    + rewrite Z.min_r by lia. rewrite !skipn_all2 by lia. reflexivity. }
  split; [| split; [| split; [| split; [| split; [| split; [| split]]]]]].
  - unfold CircularBuffer_PopBatch.
    destruct (Z.eqb_spec max_count 0) as [? | _]; [lia |].
    rewrite (wf_init _ Hb). cbn [negb]. rewrite Hloop, Hn. reflexivity.
  - exact Hfirst.
  - exact Hrest.
  - rewrite Hc', Hn. reflexivity.
  - intros Hgt. rewrite Z.min_r in * by lia.
    split; [reflexivity |]. split.
    + rewrite Hfirst. apply firstn_all2. lia.
    + split; [lia |]. unfold CircularBuffer_IsEmpty.
      rewrite (wf_init _ Hwf'). cbn [negb]. apply Z.eqb_eq. lia.
  - intros k Hk.
    assert (Hnth : forall l : list TelemetryRecord_t,
              nth k (firstn (Z.to_nat (Z.min max_count (count b))) l)
                  zero_record = nth k l zero_record).
    { intros l. rewrite nth_firstn.
      destruct (Nat.ltb_spec k (Z.to_nat (Z.min max_count (count b))));
        [reflexivity | lia]. }
    rewrite <- Hnth, Hfirst, Hnth.
    pose proof (peek_nth b (Z.of_nat k) Hb ltac:(lia)) as Hpeek.
    rewrite Nat2Z.id in Hpeek. rewrite <- Hpeek. unfold slot_get.
    pose proof (wf_read _ Hb) as Hr.
    assert (Hsmall : u32 (read_index b + Z.of_nat k)
                     = read_index b + Z.of_nat k).
    { unfold u32. apply Z.mod_small. rewrite N_val in *. lia. }
    rewrite Hsmall. reflexivity.
  - rewrite <- Hn, Nat2Z.id. apply write_out_suffix.
  - intros b0 rs Hinit0 Hc0 ->. cbv zeta.
    destruct (push_all_spec rs b0 (initialized_buffer_wf _ Hinit0))
      as (_ & Hcont & _).
    rewrite (contents_empty b0 Hc0) in Hcont. cbn [app] in Hcont.
    rewrite Hfirst, Hrest, Hcont. split; reflexivity.
Qed.

Lemma C8_witness :
  (exists b' out',
     CircularBuffer_PopBatch three_buffer (repeat zero_record 5) 5 =
       (3, b', out') /\
     firstn 3 out' = contents three_buffer /\
     out' = [sample_record 0; sample_record 1; sample_record 2;
             zero_record; zero_record] /\
     CircularBuffer_IsEmpty b' = true) /\
  (exists b' out',
     CircularBuffer_PopBatch three_buffer (repeat zero_record 5) 2 =
       (2, b', out') /\
     firstn 2 out' = [sample_record 0; sample_record 1] /\
     contents b' = [sample_record 2]).
Proof.
  assert (Hpushed : three_buffer =
                    push_all [sample_record 0; sample_record 1;
                              sample_record 2] fresh_buffer)
    by (vm_compute; reflexivity).
  split.
  - destruct (C8_pop_batch_takes_oldest three_buffer (repeat zero_record 5) 5
                (run_ops_initialized (push_ops 3)))
      as (b' & out' & Hpb & _ & _ & _ & Hall & _ & Htail & Hnamed).
    + lia.
    + simpl. lia.
    + destruct Hall as (_ & Hout & _ & Hempty); [vm_compute; reflexivity |].
      destruct (Hnamed fresh_buffer
                  [sample_record 0; sample_record 1; sample_record 2]
                  (run_ops_initialized []) eq_refl Hpushed) as (Hrs & _).
      exists b', out'. split; [exact Hpb |]. split; [exact Hout |].
      split; [| exact Hempty].
      rewrite <- (firstn_skipn 3 out').
      change (Z.to_nat (Z.min 5 (count three_buffer))) with 3%nat
        in Hrs, Htail.
      rewrite Hrs, Htail. reflexivity.
  - destruct (C8_pop_batch_takes_oldest three_buffer (repeat zero_record 5) 2
                (run_ops_initialized (push_ops 3)))
      as (b' & out' & Hpb & _ & _ & _ & _ & _ & _ & Hnamed).
    + lia.
    + simpl. lia.
    + destruct (Hnamed fresh_buffer
                  [sample_record 0; sample_record 1; sample_record 2]
                  (run_ops_initialized []) eq_refl Hpushed) as (Hrs & Hleft).
      exists b', out'. split; [exact Hpb |].
      split; [exact Hrs | exact Hleft].
Defined.

End BufferSequences.

(** ** More on the CRC *)

Section CRCBursts.

Lemma zrange_In n : forall z x, z <= x < z + Z.of_nat n -> In x (zrange n z).
Proof.
  induction n as [| n IH]; intros z x Hx; [lia |].
  cbn [zrange]. destruct (Z.eq_dec z x) as [-> | Hne]; [left; reflexivity |].
  right. apply IH. lia.
Qed.

Lemma crc_byte_xor crc b e :
  crc_byte crc (Z.lxor b e) = Z.lxor (crc_byte crc b) (byte_diff e).
Proof.
  unfold crc_byte, byte_diff. rewrite <- iter_crc_shift_lxor. f_equal.
  rewrite (u16_lxor b), Z.shiftl_lxor, <- Z.lxor_assoc. apply u16_lxor.
Qed.

Lemma byte_diff_range e : 0 <= byte_diff e < 65536.
Proof. unfold byte_diff. apply iter_crc_shift_range, u16_range. Qed.

Lemma byte_shift_range e : 0 <= e < 256 -> 0 <= Z.shiftl e 8 < 65536.
Proof. intros He. rewrite Z.shiftl_mul_pow2 by lia. lia. Qed.

Lemma byte_diff_nonzero e : 0 <= e < 256 -> e <> 0 -> byte_diff e <> 0.
Proof.
  intros He Hne. unfold byte_diff. apply iter_crc_shift_nonzero.
  - apply u16_range.
  - rewrite (u16_small e) by lia.
    rewrite u16_small by (apply byte_shift_range; exact He).
    rewrite Z.shiftl_mul_pow2 by lia. lia.
Qed.

(** The low byte of the difference a changed byte leaves is never zero:
    checked on the 255 values. *)
Lemma byte_diff_low_byte e :
  0 <= e < 256 -> e <> 0 -> byte_diff e mod 256 <> 0.
Proof.
  intros He Hne.
  assert (Hall : forallb (fun e => negb (byte_diff e mod 256 =? 0))
                   (zrange 255 1) = true) by (vm_compute; reflexivity).
  rewrite forallb_forall in Hall.
  specialize (Hall e (zrange_In 255 1 e ltac:(lia))).
  apply negb_true_iff, Z.eqb_neq in Hall. exact Hall.
Qed.

Lemma lxor_byte e e' :
  0 <= e < 256 -> 0 <= e' < 256 ->
  0 <= Z.lxor e e' < 256 /\ (Z.lxor e e' = 0 -> e = e').
Proof.
  intros He He'. split.
  - change 256 with (2 ^ 8). apply lxor_below_pow2; lia.
  - apply Z.lxor_eq.
Qed.

Lemma lxor_lxor_l a b : Z.lxor a (Z.lxor a b) = b.
Proof. rewrite <- Z.lxor_assoc, Z.lxor_nilpotent. apply Z.lxor_0_l. Qed.

(** The register difference after a window of two bytes, of which at least
    one has changed. *)
Lemma window_diff_nonzero e1 e2 :
  0 <= e1 < 256 -> 0 <= e2 < 256 -> (e1 <> 0 \/ e2 <> 0) ->
  Z.lxor (Nat.iter 8 crc_shift (u16 (byte_diff e1))) (byte_diff e2) <> 0.
Proof.
  intros H1 H2 Hne. unfold byte_diff at 2.
  rewrite <- iter_crc_shift_lxor. apply iter_crc_shift_nonzero.
  - apply lxor_range; apply u16_range.
  - rewrite (u16_small e2) by lia.
    rewrite (u16_small (byte_diff e1)) by apply byte_diff_range.
    rewrite u16_small by (apply byte_shift_range; exact H2).
    intros H0. apply Z.lxor_eq in H0.
    destruct (Z.eq_dec e1 0) as [-> | Hn1].
    + change (byte_diff 0) with 0 in H0.
      rewrite Z.shiftl_mul_pow2 in H0 by lia. lia.
    + apply (byte_diff_low_byte e1 H1 Hn1). rewrite H0.
      rewrite Z.shiftl_mul_pow2 by lia. change (2 ^ 8) with 256.
      apply Z.mod_mul. lia.
Qed.

Lemma fold_diff_nonzero data crc d :
  0 <= d < 65536 -> d <> 0 ->
  fold_left crc_byte data (Z.lxor crc d) <> fold_left crc_byte data crc.
Proof.
  intros Hd Hne. rewrite fold_crc_byte_lxor. apply lxor_nonzero_neq.
  apply carry_diff_nonzero; assumption.
Qed.

Lemma fold_left_cons {A B} (f : A -> B -> A) x l a :
  fold_left f (x :: l) a = fold_left f l (f a x).
Proof. reflexivity. Qed.

(** X8: the code detects every corruption confined to one byte or to two
    adjacent bytes, hence every burst of up to nine bits: if the bytes of
    such a window are replaced by other values, the 16-bit code changes. *)
Theorem X8_crc_detects_changes_within_two_bytes :
  (forall pre a a' post,
     is_byte a -> is_byte a' -> a' <> a ->
     Calculate_CRC16 (pre ++ a' :: post) <>
     Calculate_CRC16 (pre ++ a :: post)) /\
  (forall pre a b a' b' post,
     is_byte a -> is_byte b -> is_byte a' -> is_byte b' ->
     (a' <> a \/ b' <> b) ->
     Calculate_CRC16 (pre ++ a' :: b' :: post) <>
     Calculate_CRC16 (pre ++ a :: b :: post)).
Proof.
  unfold Calculate_CRC16, is_byte. split.
  - intros pre a a' post Ha Ha' Hne.
    rewrite !fold_left_app, !fold_left_cons.
    destruct (lxor_byte a a' Ha Ha') as [He He0].
    pose proof (lxor_lxor_l a a') as Hx.
    set (e := Z.lxor a a') in *. rewrite <- Hx, crc_byte_xor.
    apply fold_diff_nonzero; [apply byte_diff_range |].
    apply byte_diff_nonzero; [exact He |].
    intros H0. apply Hne. symmetry. apply He0. exact H0.
  - intros pre a b a' b' post Ha Hb Ha' Hb' Hne.
    rewrite !fold_left_app, !fold_left_cons.
    destruct (lxor_byte a a' Ha Ha') as [He1 He10].
    destruct (lxor_byte b b' Hb Hb') as [He2 He20].
    pose proof (lxor_lxor_l a a') as Hx1.
    pose proof (lxor_lxor_l b b') as Hx2.
    set (e1 := Z.lxor a a') in *. set (e2 := Z.lxor b b') in *.
    rewrite <- Hx1, <- Hx2.
    set (c := fold_left crc_byte pre 65535).
    rewrite (crc_byte_xor c a e1), (crc_byte_xor _ b e2).
    rewrite (crc_byte_lxor (crc_byte c a) (byte_diff e1) b), Z.lxor_assoc.
    apply fold_diff_nonzero.
    + apply lxor_range; [| apply byte_diff_range].
      apply iter_crc_shift_range, u16_range.
    + apply window_diff_nonzero; [exact He1 | exact He2 |].
      destruct Hne as [Hn | Hn]; [left | right]; intros H0; apply Hn;
        symmetry; [apply He10 | apply He20]; exact H0.
Qed.

Lemma X8_witness :
  Calculate_CRC16 ([49; 50] ++ 0 :: 255 :: [53]) <>
  Calculate_CRC16 ([49; 50] ++ 51 :: 52 :: [53]).
Proof.
  apply (proj2 X8_crc_detects_changes_within_two_bytes [49; 50] 51 52 0 255
           [53]); unfold is_byte; lia.
Defined.

(** The residue, one register value at a time. *)
Lemma crc_residue_step c :
  0 <= c < 65536 ->
  crc_byte (crc_byte c (Z.shiftr c 8)) (Z.land c 255) = 0.
Proof.
  intros Hc.
  assert (Hall : forallb
            (fun c => crc_byte (crc_byte c (Z.shiftr c 8)) (Z.land c 255) =? 0)
            (zrange (Z.to_nat 65536) 0) = true) by (vm_compute; reflexivity).
  rewrite forallb_forall in Hall.
  apply Z.eqb_eq, Hall, zrange_In. rewrite Z2Nat.id; lia.
Qed.

(** X9: a message followed by its own code, high byte first, has code 0:
    the receiver's check of CRC-16/CCITT-FALSE. *)
Theorem X9_crc_of_message_and_code_is_zero :
  forall data,
    let crc := Calculate_CRC16 data in
    0 <= crc < 65536 /\
    Calculate_CRC16 (data ++ [Z.shiftr crc 8; Z.land crc 255]) = 0.
Proof.
  intros data. cbv zeta.
  assert (Hr : 0 <= Calculate_CRC16 data < 65536)
    by (apply fold_crc_byte_range; lia).
  split; [exact Hr |].
  unfold Calculate_CRC16 in *. rewrite fold_left_app, !fold_left_cons.
  apply crc_residue_step. exact Hr.
Qed.

End CRCBursts.

(** ** More on the power manager *)

Section PowerExtras.

Lemma PowerMode_eqb_neq a b : PowerMode_eqb a b = false <-> a <> b.
Proof. destruct a, b; simpl; split; congruence. Qed.

(** What integrating the energy leaves alone. *)
Lemma Power_UpdateEnergyConsumption_frame st :
  let st' := Power_UpdateEnergyConsumption st in
  current_mode st' = current_mode st /\
  previous_mode st' = previous_mode st /\
  power_initialized st' = power_initialized st /\
  peripheral_configs st' = peripheral_configs st /\
  wake_callbacks st' = wake_callbacks st /\
  driver_calls st' = driver_calls st.
Proof.
  cbv zeta. unfold Power_UpdateEnergyConsumption.
  destruct (_ =? 0); repeat split; reflexivity.
Qed.

Lemma add_dwell_frame st t :
  let st' := add_dwell st t in
  current_mode st' = current_mode st /\
  previous_mode st' = previous_mode st /\
  power_initialized st' = power_initialized st /\
  peripheral_configs st' = peripheral_configs st /\
  wake_callbacks st' = wake_callbacks st /\
  driver_calls st' = driver_calls st /\
  last_energy_update_time st' = last_energy_update_time st.
Proof.
  cbv zeta. unfold add_dwell, with_times.
  destruct (current_mode st) eqn:Hm; cbn; rewrite ?Hm; repeat split.
Qed.

Lemma Power_SetMode_change st mode :
  power_initialized st = true -> mode <> current_mode st ->
  exists st',
    Power_SetMode mode st = (STATUS_OK, st') /\
    current_mode st' = mode /\
    previous_mode st' = current_mode st /\
    power_initialized st' = true /\
    driver_calls st' =
      driver_calls st ++
      [SetPowerState COMPONENT_CAN (can_enabled (peripheral_configs st mode));
       SetPowerState COMPONENT_GPS (gps_enabled (peripheral_configs st mode))] /\
    peripheral_configs st' = peripheral_configs st /\
    wake_callbacks st' = wake_callbacks st.
Proof.
  intros Hi Hne. unfold Power_SetMode. rewrite Hi. cbn [negb].
  apply PowerMode_eqb_neq in Hne. rewrite Hne.
  set (a := add_dwell st _).
  destruct (add_dwell_frame st (u32 (0 - mode_entry_time st)))
    as (Ham & _ & Hai & Hac & Haw & Had & _). fold a in Ham, Hai, Hac, Haw, Had.
  set (d := Power_UpdateEnergyConsumption a).
  destruct (Power_UpdateEnergyConsumption_frame a)
    as (Hdm & _ & Hdi & Hdc & Hdw & Hdd). fold d in Hdm, Hdi, Hdc, Hdw, Hdd.
  eexists. split; [reflexivity |].
  unfold Power_ConfigureWakeSources, Power_ApplyPeripheralStates,
    Power_SetPeripheralState.
  rewrite Hdi, Hai, Hi. cbn [negb record_call power_initialized].
  rewrite Hdi, Hai, Hi.
  cbn [negb record_call current_mode previous_mode power_initialized
       driver_calls peripheral_configs wake_callbacks].
  rewrite Hdm, Ham, Hdd, Had, Hdc, Hac, Hdw, Haw, <- app_assoc.
  repeat split. congruence.
Qed.

(** X10: on an initialised manager a change of mode calls two drivers and
    no more: the CAN driver and then the GPS driver, each with its flag in
    the vector of the new mode.  The flags of the vector for the modem, the
    radio and the flash, and the ADC, have no part in it. *)
Theorem X10_mode_change_calls_can_then_gps :
  forall st mode,
    power_initialized st = true -> mode <> current_mode st ->
    exists st',
      Power_SetMode mode st = (STATUS_OK, st') /\
      Power_GetMode st' = mode /\
      driver_calls st' =
        driver_calls st ++
        [SetPowerState COMPONENT_CAN
           (can_enabled (peripheral_configs st mode));
         SetPowerState COMPONENT_GPS
           (gps_enabled (peripheral_configs st mode))] /\
      peripheral_configs st' = peripheral_configs st.
Proof.
  intros st mode Hi Hne.
  destruct (Power_SetMode_change st mode Hi Hne)
    as (st' & Hset & Hm & _ & _ & Hcalls & Hcfg & _).
  exists st'. repeat split; assumption.
Qed.

Lemma X10_witness :
  exists st',
    Power_SetMode POWER_MODE_DEEP_SLEEP (snd (Power_Init power_statics)) =
      (STATUS_OK, st') /\
    driver_calls st' =
      [SetPowerState COMPONENT_CAN false; SetPowerState COMPONENT_GPS false].
Proof.
  destruct (X10_mode_change_calls_can_then_gps (snd (Power_Init power_statics))
              POWER_MODE_DEEP_SLEEP ltac:(reflexivity) ltac:(discriminate))
    as (st' & Hset & _ & Hcalls & _).
  exists st'. split; [exact Hset | exact Hcalls].
Defined.

(** X11: [Power_ConfigurePeripherals] replaces the vector of one mode and
    of no other, calls no driver, and does not ask whether the manager is
    initialised; the vector is applied at the next change into that mode.
    A mode above 2 or a null vector is refused and changes nothing. *)
Theorem X11_configured_vector_is_applied_on_entry :
  forall st i m s,
    PowerMode_of_Z i = Some m ->
    (exists st1,
       Power_ConfigurePeripherals i (Some s) st = (STATUS_OK, st1) /\
       peripheral_configs st1 m = s /\
       (forall m', m' <> m ->
          peripheral_configs st1 m' = peripheral_configs st m') /\
       driver_calls st1 = driver_calls st /\
       Power_GetMode st1 = Power_GetMode st /\
       (power_initialized st = true -> m <> current_mode st ->
        driver_calls (snd (Power_SetMode m st1)) =
          driver_calls st ++
          [SetPowerState COMPONENT_CAN (can_enabled s);
           SetPowerState COMPONENT_GPS (gps_enabled s)])) /\
    Power_ConfigurePeripherals i None st = (STATUS_INVALID_PARAM, st) /\
    (forall j states,
       3 <= j -> Power_ConfigurePeripherals j states st =
                 (STATUS_INVALID_PARAM, st)).
Proof.
  intros st i m s Hm. split; [| split].
  - unfold Power_ConfigurePeripherals. rewrite Hm. eexists.
    split; [reflexivity |].
    cbn [peripheral_configs driver_calls Power_GetMode current_mode].
    assert (Hrefl : PowerMode_eqb m m = true) by (destruct m; reflexivity).
    rewrite Hrefl.
    split; [reflexivity |]. split; [| split; [reflexivity |]].
    + intros m' Hne. apply PowerMode_eqb_neq in Hne. rewrite Hne. reflexivity.
    + split; [reflexivity |]. intros Hi Hne.
      match goal with
      | |- driver_calls (snd (Power_SetMode m ?st1)) = _ =>
          destruct (Power_SetMode_change st1 m Hi Hne)
            as (st' & Hset & _ & _ & _ & Hcalls & _)
      end.
      rewrite Hset. cbn [snd]. rewrite Hcalls.
      cbn [driver_calls peripheral_configs]. rewrite Hrefl. reflexivity.
  - unfold Power_ConfigurePeripherals. destruct (PowerMode_of_Z i); reflexivity.
  - intros j states Hj. unfold Power_ConfigurePeripherals, PowerMode_of_Z.
    destruct (Z.eqb_spec j 0); [lia |].
    destruct (Z.eqb_spec j 1); [lia |].
    destruct (Z.eqb_spec j 2); [lia |]. reflexivity.
Qed.

Lemma X11_witness :
  driver_calls
    (snd (Power_SetMode POWER_MODE_IDLE
            (snd (Power_ConfigurePeripherals 1
                    (Some (mkPeripherals false true true true true))
                    (snd (Power_Init power_statics)))))) =
  [SetPowerState COMPONENT_CAN false; SetPowerState COMPONENT_GPS true].
Proof.
  destruct (X11_configured_vector_is_applied_on_entry
              (snd (Power_Init power_statics)) 1 POWER_MODE_IDLE
              (mkPeripherals false true true true true) ltac:(reflexivity))
    as ((st1 & Hcfg & _ & _ & _ & _ & Hcalls) & _).
  rewrite Hcfg. cbn [snd]. apply Hcalls; [reflexivity | discriminate].
Defined.

Lemma Power_SetMode_mode st mode :
  power_initialized st = true ->
  current_mode (snd (Power_SetMode mode st)) = mode /\
  power_initialized (snd (Power_SetMode mode st)) = true /\
  List.length (driver_calls (snd (Power_SetMode mode st))) =
    (List.length (driver_calls st) +
     2 * count_changes [mode] (current_mode st))%nat.
Proof.
  intros Hi. cbn [count_changes].
  destruct (PowerMode_eqb mode (current_mode st)) eqn:He.
  - apply PowerMode_eqb_eq in He. unfold Power_SetMode.
    rewrite Hi. cbn [negb]. rewrite He.
    assert (Hrefl : PowerMode_eqb (current_mode st) (current_mode st) = true)
      by (destruct (current_mode st); reflexivity).
    rewrite Hrefl. cbn [snd]. split; [reflexivity |]. split; [exact Hi | lia].
  - apply PowerMode_eqb_neq in He.
    destruct (Power_SetMode_change st mode Hi He)
      as (st' & Hset & Hm & _ & Hi' & Hcalls & _).
    rewrite Hset. cbn [snd]. rewrite Hcalls, length_app. cbn [List.length].
    split; [exact Hm |]. split; [exact Hi' | lia].
Qed.

Lemma last_default {A} (l : list A) : forall x c d,
  last (x :: l) c = last (x :: l) d.
Proof.
  induction l as [| y l IH]; intros x c d; [reflexivity |].
  change (last (x :: y :: l) c) with (last (y :: l) c).
  change (last (x :: y :: l) d) with (last (y :: l) d).
  apply IH.
Qed.

(** X12: after any sequence of requests to an initialised manager the mode
    is the last one requested, and the drivers have been called twice for
    each request that changed the mode and not at all for the others. *)
Theorem X12_mode_follows_the_requests :
  forall modes st,
    power_initialized st = true ->
    Power_GetMode (set_modes modes st) = last modes (current_mode st) /\
    power_initialized (set_modes modes st) = true /\
    List.length (driver_calls (set_modes modes st)) =
      (List.length (driver_calls st) +
       2 * count_changes modes (current_mode st))%nat.
Proof.
  unfold Power_GetMode.
  induction modes as [| mode modes IH]; intros st Hi.
  - cbn. repeat split; [exact Hi | lia].
  - destruct (Power_SetMode_mode st mode Hi) as (Hm & Hi' & Hlen).
    destruct (IH _ Hi') as (IHm & IHi & IHlen).
    change (set_modes (mode :: modes) st)
      with (set_modes modes (snd (Power_SetMode mode st))).
    rewrite IHm, IHlen, Hm, Hlen. split; [| split; [exact IHi |]].
    + destruct modes as [| p modes]; [reflexivity |].
      change (last (mode :: p :: modes) (current_mode st))
        with (last (p :: modes) (current_mode st)).
      apply last_default.
    + cbn [count_changes].
      destruct (PowerMode_eqb mode (current_mode st)) eqn:He; [| lia].
      apply PowerMode_eqb_eq in He. rewrite He. lia.
Qed.

Lemma X12_witness :
  Power_GetMode
    (set_modes [POWER_MODE_IDLE; POWER_MODE_IDLE; POWER_MODE_DEEP_SLEEP]
               (snd (Power_Init power_statics))) = POWER_MODE_DEEP_SLEEP /\
  List.length
    (driver_calls
       (set_modes [POWER_MODE_IDLE; POWER_MODE_IDLE; POWER_MODE_DEEP_SLEEP]
                  (snd (Power_Init power_statics)))) = 4%nat.
Proof.
  destruct (X12_mode_follows_the_requests
              [POWER_MODE_IDLE; POWER_MODE_IDLE; POWER_MODE_DEEP_SLEEP]
              (snd (Power_Init power_statics)) ltac:(reflexivity))
    as (Hm & _ & Hlen).
  split; [exact Hm | exact Hlen].
Defined.

(** X13: integrating the energy is idempotent, whatever the state: a second
    reading of the energy right after a first returns the same value and
    leaves the same state. *)
Theorem X13_energy_reading_is_stable :
  forall st,
    Power_UpdateEnergyConsumption (Power_UpdateEnergyConsumption st) =
      Power_UpdateEnergyConsumption st /\
    (let (energy, st1) := Power_GetEnergyConsumption st in
     Power_GetEnergyConsumption st1 = (energy, st1)).
Proof.
  intros st.
  assert (H : Power_UpdateEnergyConsumption (Power_UpdateEnergyConsumption st)
              = Power_UpdateEnergyConsumption st).
  { unfold Power_UpdateEnergyConsumption.
    destruct (u32 (0 - last_energy_update_time st) =? 0) eqn:He.
    - rewrite He. reflexivity.
    - cbn [last_energy_update_time]. change (u32 (0 - 0) =? 0) with true.
      reflexivity. }
  split; [exact H |].
  unfold Power_GetEnergyConsumption. rewrite H. reflexivity.
Qed.

End PowerExtras.

(** ** More on the GPS driver *)

Section GPSExtras.

Local Open Scope string_scope.

(** The three outcomes of the parser: a rejection, which writes nothing; a
    sentence without a fix; a fix, which replaces the position kept and,
    for a position-fix sentence, is passed to the callback. *)
Lemma GPS_ParseNMEA_cases sentence gps_data st status gps_data' st' :
  GPS_ParseNMEA sentence gps_data st = Some (status, gps_data', st') ->
  (status = STATUS_ERROR /\ gps_data' = gps_data /\ st' = st) \/
  (status = STATUS_OK /\ valid gps_data' = false /\ st' = clear_fix st) \/
  (status = STATUS_OK /\ valid gps_data' = true /\
   st' = mkGPS gps_data' (gps_initialized st) true 0 (data_callback st)
               (if is_gga sentence && data_callback st
                then callback_log st ++ [gps_data']
                else callback_log st)).
Proof.
  unfold GPS_ParseNMEA. intros H.
  destruct (GPS_ValidateChecksum sentence); cbn [negb] in H;
    [| left; injection H as <- <- <-; repeat split].
  destruct (is_gga sentence) eqn:Hg.
  - unfold GPS_ParseGPGGA in H.
    destruct (tokenize sentence) as [tokens |]; [| discriminate].
    destruct (List.length tokens <? 10)%nat;
      [left; injection H as <- <- <-; repeat split |].
    destruct (atoi (token tokens 6)) as [quality |]; [| discriminate].
    cbn [fix_quality] in H.
    destruct (Z.eqb (u8 quality) 0);
      [right; left; injection H as <- <- <-; repeat split |].
    destruct (atoi (token tokens 7)) as [sats |]; [| discriminate].
    destruct (u16_of_float _) as [hd |]; [| discriminate].
    right; right. injection H as <- <- <-. cbn [andb valid].
    repeat split.
  - destruct (is_rmc sentence);
      [| left; injection H as <- <- <-; repeat split].
    unfold GPS_ParseGPRMC in H.
    destruct (tokenize sentence) as [tokens |]; [| discriminate].
    destruct (List.length tokens <? 10)%nat;
      [left; injection H as <- <- <-; repeat split |].
    destruct (negb _);
      [right; left; injection H as <- <- <-; repeat split |].
    destruct (atoi (token tokens 1)) as [time |]; [| discriminate].
    right; right. injection H as <- <- <-. cbn [andb valid].
    repeat split.
Qed.

Lemma gps_apply_last_fix rx op rx' :
  gps_apply rx op = Some rx' ->
  last_fix_timestamp (gps rx) = 0%Z -> last_fix_timestamp (gps rx') = 0%Z.
Proof.
  intros Happ H0.
  assert (Hparse : forall sentence gps_data status gps_data' st',
            GPS_ParseNMEA sentence gps_data (gps rx) =
              Some (status, gps_data', st') ->
            last_fix_timestamp st' = 0%Z).
  { intros sentence gps_data status gps_data' st' Hp.
    destruct (GPS_ParseNMEA_cases _ _ _ _ _ _ Hp)
      as [(_ & _ & ->) | [(_ & _ & ->) | (_ & _ & ->)]];
      [exact H0 | exact H0 | reflexivity]. }
  destruct op as [baudrate | | sentence gps_data | callback | enable
                 | byte garbage]; cbn [gps_apply] in Happ.
  - injection Happ as <-. unfold GPS_Init.
    destruct (gps_initialized (gps rx)); [exact H0 | reflexivity].
  - injection Happ as <-. unfold GPS_Deinit.
    destruct (gps_initialized (gps rx)); exact H0.
  - destruct (GPS_ParseNMEA sentence gps_data (gps rx))
      as [[[status gps_data'] st'] |] eqn:Hp; [| discriminate].
    injection Happ as <-. exact (Hparse _ _ _ _ _ Hp).
  - injection Happ as <-. unfold GPS_RegisterCallback.
    destruct (gps_initialized (gps rx)); exact H0.
  - injection Happ as <-. unfold GPS_SetPowerState, GPS_Init.
    destruct enable; [| exact H0].
    destruct (gps_initialized (gps rx)); [exact H0 | reflexivity].
  - unfold GPS_UARTCallback in Happ.
    destruct (Ascii.eqb byte "$"); [injection Happ as <-; exact H0 |].
    destruct (Ascii.eqb byte LF).
    + destruct (GPS_ParseNMEA _ garbage (gps rx))
        as [[[status gps_data'] st'] |] eqn:Hp; [| discriminate].
      injection Happ as <-. exact (Hparse _ _ _ _ _ Hp).
    + destruct (Z.ltb _ _); injection Happ as <-; exact H0.
Qed.

Lemma gps_run_last_fix ops : forall rx rx',
  gps_run ops rx = Some rx' ->
  last_fix_timestamp (gps rx) = 0%Z -> last_fix_timestamp (gps rx') = 0%Z.
Proof.
  induction ops as [| op ops IH]; intros rx rx' Hrun H0; cbn [gps_run] in Hrun.
  - injection Hrun as <-. exact H0.
  - destruct (gps_apply rx op) as [rx1 |] eqn:Happ; [| discriminate].
    exact (IH _ _ Hrun (gps_apply_last_fix _ _ _ Happ H0)).
Qed.

(** X14: the health check of the GPS driver never passes and the time since
    the last fix is never known: every fix stores the constant 0 as its
    time, and 0 is read as no fix ever.  This holds after any calls of the
    driver and any bytes from the UART, a valid fix included. *)
Theorem X14_gps_health_check_never_passes :
  forall ops rx,
    gps_run ops gps_statics = Some rx ->
    GPS_IsHealthy (gps rx) = false /\
    GPS_GetTimeSinceLastFix (gps rx) = 0xFFFFFFFF%Z.
Proof.
  intros ops rx Hrun.
  pose proof (gps_run_last_fix ops _ _ Hrun eq_refl) as H0.
  unfold GPS_IsHealthy, GPS_GetTimeSinceLastFix. rewrite H0.
  destruct (gps_initialized (gps rx)); split; reflexivity.
Qed.

Lemma X14_witness :
  exists rx,
    gps_run [GpsInit 9600; GpsParse sentence_gga blank_gps_data] gps_statics =
      Some rx /\
    GPS_HasValidFix (gps rx) = true /\
    GPS_IsHealthy (gps rx) = false.
Proof.
  assert (H : exists rx,
            gps_run [GpsInit 9600; GpsParse sentence_gga blank_gps_data]
                    gps_statics = Some rx /\
            GPS_HasValidFix (gps rx) = true).
  { vm_compute. eexists. split; reflexivity. }
  destruct H as (rx & Hrun & Hfix). exists rx.
  split; [exact Hrun |]. split; [exact Hfix |].
  exact (proj1 (X14_gps_health_check_never_passes _ rx Hrun)).
Defined.

(** X15: the position kept is the last fix.  A sentence that is rejected
    changes nothing; a sentence without a fix turns [GPS_HasValidFix] off
    but leaves what [GPS_GetPosition] answers, the position of an earlier
    fix included; a fix becomes the answer of [GPS_GetPosition]. *)
Theorem X15_position_kept_is_the_last_fix :
  forall sentence gps_data st status gps_data' st',
    gps_initialized st = true ->
    GPS_ParseNMEA sentence gps_data st = Some (status, gps_data', st') ->
    (status = STATUS_ERROR /\ gps_data' = gps_data /\ st' = st) \/
    (status = STATUS_OK /\ valid gps_data' = false /\
     GPS_HasValidFix st' = false /\
     forall out, GPS_GetPosition out st' = GPS_GetPosition out st) \/
    (status = STATUS_OK /\ valid gps_data' = true /\
     GPS_HasValidFix st' = true /\
     forall out, GPS_GetPosition out st' = (STATUS_OK, gps_data')).
Proof.
  intros sentence gps_data st status gps_data' st' Hi Hp.
  destruct (GPS_ParseNMEA_cases _ _ _ _ _ _ Hp)
    as [(-> & -> & ->) | [(-> & Hv & ->) | (-> & Hv & ->)]].
  - left. repeat split.
  - right; left. repeat split. exact Hv.
  - right; right. split; [reflexivity |]. split; [exact Hv |].
    unfold GPS_HasValidFix, GPS_GetPosition.
    cbn [gps_has_fix current_gps_data gps_initialized]. rewrite Hv, Hi.
    split; reflexivity.
Qed.

Lemma X15_witness :
  exists st1 st2 pos,
    GPS_ParseNMEA sentence_gga blank_gps_data gps_after_init =
      Some (STATUS_OK, pos, st1) /\
    GPS_ParseNMEA sentence_no_fix blank_gps_data st1 =
      Some (STATUS_OK, blank_gps_data, st2) /\
    GPS_HasValidFix st2 = false /\
    GPS_GetPosition blank_gps_data st2 = (STATUS_OK, pos).
Proof.
  assert (H1 : exists st1 pos,
            GPS_ParseNMEA sentence_gga blank_gps_data gps_after_init =
              Some (STATUS_OK, pos, st1) /\
            gps_initialized st1 = true /\
            GPS_GetPosition blank_gps_data st1 = (STATUS_OK, pos) /\
            exists st2,
              GPS_ParseNMEA sentence_no_fix blank_gps_data st1 =
                Some (STATUS_OK, blank_gps_data, st2)).
  { vm_compute. do 2 eexists. split; [reflexivity |].
    split; [reflexivity |]. split; [reflexivity |].
    eexists. reflexivity. }
  destruct H1 as (st1 & pos & Hp1 & Hi1 & Hpos1 & st2 & Hp2).
  exists st1, st2, pos. split; [exact Hp1 |]. split; [exact Hp2 |].
  destruct (X15_position_kept_is_the_last_fix _ _ _ _ _ _ Hi1 Hp2)
    as [(Hs & _) | [(_ & _ & Hfix & Hpos) | (_ & Hv & _)]];
    [discriminate Hs | | discriminate Hv].
  split; [exact Hfix |]. rewrite Hpos. exact Hpos1.
Defined.

(** X16: the data callback is called at most once for a sentence, and only
    for a position-fix sentence that yields a fix while a callback is
    registered; it is then passed the parsed fix.  A recommended-minimum
    sentence updates the position without any call. *)
Theorem X16_callback_only_on_position_fix :
  forall sentence gps_data st status gps_data' st',
    GPS_ParseNMEA sentence gps_data st = Some (status, gps_data', st') ->
    (callback_log st' = callback_log st \/
     callback_log st' = (callback_log st ++ [gps_data'])%list) /\
    (is_gga sentence = false -> callback_log st' = callback_log st) /\
    (data_callback st = false -> callback_log st' = callback_log st) /\
    (status <> STATUS_OK \/ valid gps_data' = false ->
     callback_log st' = callback_log st) /\
    (is_gga sentence = true -> data_callback st = true ->
     status = STATUS_OK -> valid gps_data' = true ->
     callback_log st' = (callback_log st ++ [gps_data'])%list).
Proof.
  intros sentence gps_data st status gps_data' st' Hp.
  destruct (GPS_ParseNMEA_cases _ _ _ _ _ _ Hp)
    as [(-> & -> & ->) | [(-> & Hv & ->) | (-> & Hv & ->)]];
    cbn [callback_log clear_fix].
  - split; [left; reflexivity |].
    repeat (split; [intros; reflexivity |]). intros; discriminate.
  - split; [left; reflexivity |].
    repeat (split; [intros; reflexivity |]). intros; congruence.
  - split; [destruct (is_gga sentence && data_callback st); auto |].
    split; [intros ->; reflexivity |].
    split; [intros ->; rewrite andb_false_r; reflexivity |].
    split; [intros [H | H]; congruence |].
    intros -> -> _ _. reflexivity.
Qed.

Lemma X16_witness :
  (exists pos st',
     GPS_ParseNMEA sentence_gga blank_gps_data
       (snd (GPS_RegisterCallback true gps_after_init)) =
       Some (STATUS_OK, pos, st') /\
     callback_log st' = [pos]) /\
  (exists pos st',
     GPS_ParseNMEA sentence_rmc blank_gps_data
       (snd (GPS_RegisterCallback true gps_after_init)) =
       Some (STATUS_OK, pos, st') /\
     callback_log st' = []).
Proof.
  split.
  - assert (H : exists pos st',
              GPS_ParseNMEA sentence_gga blank_gps_data
                (snd (GPS_RegisterCallback true gps_after_init)) =
                Some (STATUS_OK, pos, st') /\ valid pos = true).
    { vm_compute. do 2 eexists. split; reflexivity. }
    destruct H as (pos & st' & Hp & Hv). exists pos, st'.
    split; [exact Hp |].
    apply (X16_callback_only_on_position_fix _ _ _ _ _ _ Hp);
      [reflexivity | reflexivity | reflexivity | exact Hv].
  - assert (H : exists pos st',
              GPS_ParseNMEA sentence_rmc blank_gps_data
                (snd (GPS_RegisterCallback true gps_after_init)) =
                Some (STATUS_OK, pos, st')).
    { vm_compute. do 2 eexists. reflexivity. }
    destruct H as (pos & st' & Hp). exists pos, st'.
    split; [exact Hp |].
    destruct (X16_callback_only_on_position_fix _ _ _ _ _ _ Hp)
      as (_ & Hrmc & _).
    apply Hrmc. reflexivity.
Defined.

(** X29: the fields a fix writes.  A recommended-minimum sentence that
    yields a fix writes the latitude, the longitude and the time, and takes
    the altitude, the satellite count, the fix quality and the dilution from
    the structure the caller passed; a position-fix sentence takes only the
    time from it.  What is stored as the position is that structure, so an
    RMC fix replaces the altitude and the satellite count of an earlier GGA
    fix by the caller's. *)
Theorem X29_fix_takes_unwritten_fields_from_the_caller :
  forall sentence gps_data st gps_data' st',
    GPS_ParseNMEA sentence gps_data st = Some (STATUS_OK, gps_data', st') ->
    valid gps_data' = true ->
    current_gps_data st' = gps_data' /\
    (is_gga sentence = true ->
     gps_timestamp gps_data' = gps_timestamp gps_data) /\
    (is_gga sentence = false ->
     gps_altitude gps_data' = gps_altitude gps_data /\
     satellites gps_data' = satellites gps_data /\
     fix_quality gps_data' = fix_quality gps_data /\
     hdop gps_data' = hdop gps_data).
Proof.
  intros sentence gps_data st gps_data' st' H Hv.
  unfold GPS_ParseNMEA in H.
  destruct (GPS_ValidateChecksum sentence); cbn [negb] in H;
    [| discriminate].
  destruct (is_gga sentence) eqn:Hg.
  - unfold GPS_ParseGPGGA in H.
    destruct (tokenize sentence) as [tokens |]; [| discriminate].
    destruct (List.length tokens <? 10)%nat; [discriminate |].
    destruct (atoi (token tokens 6)) as [quality |]; [| discriminate].
    cbn [fix_quality] in H.
    destruct (Z.eqb (u8 quality) 0).
    { injection H as <- <-. discriminate Hv. }
    destruct (atoi (token tokens 7)) as [sats |]; [| discriminate].
    destruct (u16_of_float _) as [hd |]; [| discriminate].
    injection H as <- <-. cbn. split; [reflexivity |].
    split; [intros _; reflexivity | intros H0; discriminate H0].
  - destruct (is_rmc sentence); [| discriminate].
    unfold GPS_ParseGPRMC in H.
    destruct (tokenize sentence) as [tokens |]; [| discriminate].
    destruct (List.length tokens <? 10)%nat; [discriminate |].
    destruct (negb _).
    { injection H as <- <-. discriminate Hv. }
    destruct (atoi (token tokens 1)) as [time |]; [| discriminate].
    injection H as <- <-. cbn. split; [reflexivity |].
    split; [intros H0; discriminate H0 | intros _; repeat split].
Qed.

Lemma X29_witness :
  exists st1 pos1 st2 pos2,
    GPS_ParseNMEA sentence_gga blank_gps_data gps_after_init =
      Some (STATUS_OK, pos1, st1) /\
    satellites pos1 = 8%Z /\
    GPS_ParseNMEA sentence_rmc blank_gps_data st1 =
      Some (STATUS_OK, pos2, st2) /\
    satellites (current_gps_data st2) = 0%Z.
Proof.
  assert (H : exists st1 pos1 st2 pos2,
            GPS_ParseNMEA sentence_gga blank_gps_data gps_after_init =
              Some (STATUS_OK, pos1, st1) /\
            satellites pos1 = 8%Z /\
            GPS_ParseNMEA sentence_rmc blank_gps_data st1 =
              Some (STATUS_OK, pos2, st2) /\
            valid pos2 = true).
  { vm_compute. do 4 eexists. repeat split. }
  destruct H as (st1 & pos1 & st2 & pos2 & Hp1 & Hs1 & Hp2 & Hv2).
  exists st1, pos1, st2, pos2.
  split; [exact Hp1 |]. split; [exact Hs1 |]. split; [exact Hp2 |].
  destruct (X29_fix_takes_unwritten_fields_from_the_caller _ _ _ _ _ Hp2 Hv2)
    as (Hcur & _ & Hrmc).
  rewrite Hcur. destruct (Hrmc eq_refl) as (_ & Hsat & _). exact Hsat.
Defined.

(** X27: restarting the GPS driver forgets the position and the callback;
    switching its power does not.  After [GPS_Deinit] the position is
    refused; after the [GPS_Init] that follows there is no position until a
    new fix, and no callback is registered.  [GPS_SetPowerState] off and on
    again leaves an initialised driver exactly as it was. *)
Theorem X27_gps_restart_forgets_the_position :
  forall rx baudrate,
    gps_initialized (gps rx) = true ->
    let st1 := snd (GPS_Deinit (gps rx)) in
    let rx2 := snd (GPS_Init baudrate (with_gps rx st1)) in
    GPS_Deinit (gps rx) = (STATUS_OK, st1) /\
    (forall out, GPS_GetPosition out st1 = (STATUS_NOT_INITIALIZED, out)) /\
    (forall out, GPS_GetPosition out (gps rx2) = (STATUS_NO_DATA, out)) /\
    GPS_HasValidFix (gps rx2) = false /\
    data_callback (gps rx2) = false /\
    GPS_RegisterCallback true st1 = (STATUS_NOT_INITIALIZED, st1) /\
    snd (GPS_SetPowerState true (snd (GPS_SetPowerState false rx))) = rx.
Proof.
  intros rx baudrate Hi. cbv zeta.
  unfold GPS_Deinit, GPS_Init, GPS_SetPowerState, with_gps, GPS_GetPosition,
    GPS_HasValidFix, GPS_RegisterCallback.
  rewrite Hi. cbn. rewrite Hi. repeat split.
Qed.

Lemma X27_witness :
  exists st1 pos,
    GPS_ParseNMEA sentence_gga blank_gps_data gps_after_init =
      Some (STATUS_OK, pos, st1) /\
    GPS_GetPosition blank_gps_data st1 = (STATUS_OK, pos) /\
    GPS_GetPosition blank_gps_data
      (gps (snd (GPS_Init 9600
                   (mkReceiver (snd (GPS_Deinit st1)) [] 0)))) =
      (STATUS_NO_DATA, blank_gps_data).
Proof.
  assert (H : exists st1 pos,
            GPS_ParseNMEA sentence_gga blank_gps_data gps_after_init =
              Some (STATUS_OK, pos, st1) /\
            GPS_GetPosition blank_gps_data st1 = (STATUS_OK, pos) /\
            gps_initialized st1 = true).
  { vm_compute. do 2 eexists. repeat split. }
  destruct H as (st1 & pos & Hp & Hpos & Hi). exists st1, pos.
  split; [exact Hp |]. split; [exact Hpos |].
  destruct (X27_gps_restart_forgets_the_position (mkReceiver st1 [] 0) 9600 Hi)
    as (_ & _ & Hno & _).
  apply Hno.
Defined.

Lemma array_set_length {A} (l : list A) : forall i x,
  List.length (array_set l i x) = List.length l.
Proof.
  induction l as [| y l IH]; intros [| i] x; cbn; try reflexivity.
  rewrite IH. reflexivity.
Qed.

Lemma array_set_eq {A} (l : list A) : forall i x,
  (i < List.length l)%nat ->
  array_set l i x = (firstn i l ++ x :: skipn (S i) l)%list.
Proof.
  induction l as [| y l IH]; intros [| i] x Hi; cbn in *; try lia.
  - reflexivity.
  - rewrite IH by lia. reflexivity.
Qed.

Lemma array_set_firstn {A} (l : list A) i x :
  (i < List.length l)%nat ->
  firstn (S i) (array_set l i x) = (firstn i l ++ [x])%list.
Proof.
  intros Hi. rewrite array_set_eq by exact Hi.
  assert (Hlen : List.length (firstn i l) = i)
    by (rewrite length_firstn; lia).
  rewrite firstn_app, Hlen.
  replace (S i - i)%nat with 1%nat by lia.
  rewrite firstn_all2 by lia. reflexivity.
Qed.

Lemma array_set_nth_0 {A} (l : list A) i x d :
  (1 <= i)%nat -> nth 0 (array_set l i x) d = nth 0 l d.
Proof. destruct l as [| y l], i as [| i]; intros Hi; cbn; try lia; reflexivity. Qed.

Lemma c_str_app_NUL l : forall t,
  c_str (string_of_list_ascii (l ++ NUL :: t)) =
  c_str (string_of_list_ascii l).
Proof.
  induction l as [| c l IH]; intros t;
    cbn [app string_of_list_ascii c_str].
  - change (Ascii.eqb NUL NUL) with true. reflexivity.
  - destruct (Ascii.eqb c NUL); [reflexivity |]. rewrite IH. reflexivity.
Qed.

(** The parser reads its sentence up to the first NUL. *)
Lemma GPS_ParseNMEA_c_str s1 s2 gps_data st :
  c_str s1 = c_str s2 ->
  GPS_ParseNMEA s1 gps_data st = GPS_ParseNMEA s2 gps_data st.
Proof.
  intros He.
  unfold GPS_ParseNMEA, GPS_ValidateChecksum, is_gga, is_rmc, GPS_ParseGPGGA,
    GPS_ParseGPRMC, tokenize, strlen.
  rewrite He. reflexivity.
Qed.

Lemma uart_feed_app a : forall b garbage rx,
  uart_feed (a ++ b) garbage rx =
  match uart_feed a garbage rx with
  | Some rx' => uart_feed b garbage rx'
  | None => None
  end.
Proof.
  induction a as [| c a IH]; intros b garbage rx; cbn; [reflexivity |].
  destruct (GPS_UARTCallback c garbage rx); [apply IH | reflexivity].
Qed.

(** A byte that is neither a dollar sign nor a line feed, while there is
    room, is stored at the index. *)
Lemma GPS_UARTCallback_store c garbage rx :
  negb (Ascii.eqb c "$") && negb (Ascii.eqb c LF) = true ->
  (0 <= nmea_index rx < NMEA_BUFFER_SIZE - 1)%Z ->
  GPS_UARTCallback c garbage rx =
    Some (mkReceiver (gps rx)
            (array_set (nmea_buffer rx) (Z.to_nat (nmea_index rx)) c)
            (nmea_index rx + 1)).
Proof.
  intros Hc Hi. apply andb_true_iff in Hc as [H1 H2].
  apply negb_true_iff in H1, H2. unfold GPS_UARTCallback.
  rewrite H1, H2.
  destruct (Z.ltb_spec (nmea_index rx) (NMEA_BUFFER_SIZE - 1)); [| lia].
  do 2 f_equal. unfold u16. apply Z.mod_small.
  unfold NMEA_BUFFER_SIZE in *. lia.
Qed.

Lemma uart_accumulate body garbage : forall rx,
  framed body = true ->
  List.length (nmea_buffer rx) = Z.to_nat NMEA_BUFFER_SIZE ->
  (0 <= nmea_index rx)%Z ->
  (nmea_index rx + Z.of_nat (String.length body) <= NMEA_BUFFER_SIZE - 1)%Z ->
  exists buffer,
    uart_feed body garbage rx =
      Some (mkReceiver (gps rx) buffer
              (nmea_index rx + Z.of_nat (String.length body))) /\
    List.length buffer = Z.to_nat NMEA_BUFFER_SIZE /\
    firstn (Z.to_nat (nmea_index rx + Z.of_nat (String.length body))) buffer =
      (firstn (Z.to_nat (nmea_index rx)) (nmea_buffer rx) ++
       list_ascii_of_string body)%list.
Proof.
  induction body as [| c body IH]; intros rx Hf Hlen H0 Hroom.
  - exists (nmea_buffer rx). cbn [uart_feed String.length Z.of_nat].
    rewrite Z.add_0_r. destruct rx; cbn in *.
    rewrite app_nil_r. repeat split. exact Hlen.
  - cbn [framed] in Hf. apply andb_true_iff in Hf as [Hc Hf].
    cbn [String.length] in Hroom. unfold NMEA_BUFFER_SIZE in *.
    cbn [uart_feed]. rewrite GPS_UARTCallback_store
      by (try exact Hc; unfold NMEA_BUFFER_SIZE; lia).
    destruct (IH (mkReceiver (gps rx)
                    (array_set (nmea_buffer rx) (Z.to_nat (nmea_index rx)) c)
                    (nmea_index rx + 1)) Hf)
      as (buffer & Hfeed & Hlen' & Hfirst).
    + cbn [nmea_buffer]. rewrite array_set_length. exact Hlen.
    + cbn [nmea_index]. lia.
    + cbn [nmea_index]. lia.
    + cbn [nmea_index nmea_buffer gps] in *. exists buffer.
      cbn [String.length list_ascii_of_string].
      replace (nmea_index rx + Z.of_nat (S (String.length body)))%Z
        with (nmea_index rx + 1 + Z.of_nat (String.length body))%Z by lia.
      split; [exact Hfeed |]. split; [exact Hlen' |].
      rewrite Hfirst.
      replace (Z.to_nat (nmea_index rx + 1))
        with (S (Z.to_nat (nmea_index rx))) by lia.
      rewrite array_set_firstn by lia.
      rewrite <- app_assoc. reflexivity.
Qed.

(** The line buffer keeps its size, and the index stays inside it. *)
Lemma gps_apply_buffer rx op rx' :
  gps_apply rx op = Some rx' ->
  List.length (nmea_buffer rx) = Z.to_nat NMEA_BUFFER_SIZE ->
  List.length (nmea_buffer rx') = Z.to_nat NMEA_BUFFER_SIZE.
Proof.
  intros Happ Hlen.
  destruct op as [baudrate | | sentence gps_data | callback | enable
                 | byte garbage]; cbn [gps_apply] in Happ.
  - injection Happ as <-. unfold GPS_Init.
    destruct (gps_initialized (gps rx)); [exact Hlen |].
    cbn [snd nmea_buffer]. apply repeat_length.
  - injection Happ as <-. exact Hlen.
  - destruct (GPS_ParseNMEA sentence gps_data (gps rx))
      as [[[status gps_data'] st'] |]; [| discriminate].
    injection Happ as <-. exact Hlen.
  - injection Happ as <-. exact Hlen.
  - injection Happ as <-. unfold GPS_SetPowerState, GPS_Init.
    destruct enable; [| exact Hlen].
    destruct (gps_initialized (gps rx)); [exact Hlen |].
    cbn [snd nmea_buffer]. apply repeat_length.
  - unfold GPS_UARTCallback in Happ.
    destruct (Ascii.eqb byte "$");
      [injection Happ as <-; cbn [nmea_buffer]; rewrite array_set_length;
       exact Hlen |].
    destruct (Ascii.eqb byte LF).
    + destruct (GPS_ParseNMEA _ garbage (gps rx))
        as [[[status gps_data'] st'] |]; [| discriminate].
      injection Happ as <-. cbn [nmea_buffer]. rewrite array_set_length.
      exact Hlen.
    + destruct (Z.ltb _ _); injection Happ as <-; cbn [nmea_buffer];
        rewrite ?array_set_length; exact Hlen.
Qed.

Lemma gps_run_buffer ops : forall rx rx',
  gps_run ops rx = Some rx' ->
  List.length (nmea_buffer rx) = Z.to_nat NMEA_BUFFER_SIZE ->
  List.length (nmea_buffer rx') = Z.to_nat NMEA_BUFFER_SIZE.
Proof.
  induction ops as [| op ops IH]; intros rx rx' Hrun Hlen;
    cbn [gps_run] in Hrun.
  - injection Hrun as <-. exact Hlen.
  - destruct (gps_apply rx op) as [rx1 |] eqn:Happ; [| discriminate].
    exact (IH _ _ Hrun (gps_apply_buffer _ _ _ Happ Hlen)).
Qed.

Lemma uart_line body garbage rx :
  framed body = true ->
  List.length (nmea_buffer rx) = Z.to_nat NMEA_BUFFER_SIZE ->
  (String.length body <= 126)%nat ->
  exists buffer,
    uart_feed (String "$" (body ++ String LF "")) garbage rx =
    match GPS_ParseNMEA (String "$" body) garbage (gps rx) with
    | Some (_, _, st') => Some (mkReceiver st' buffer 0)
    | None => None
    end.
Proof.
  intros Hf Hbuf Hlen. unfold NMEA_BUFFER_SIZE in Hbuf.
  destruct (uart_accumulate body garbage
              (mkReceiver (gps rx) (array_set (nmea_buffer rx) 0 "$"%char) 1)
              Hf)
    as (buffer & Hfeed & Hlen' & Hfirst).
  { cbn [nmea_buffer]. rewrite array_set_length. exact Hbuf. }
  { cbn [nmea_index]. lia. }
  { cbn [nmea_index]. unfold NMEA_BUFFER_SIZE. lia. }
  cbn [nmea_index nmea_buffer gps] in *.
  set (n := (1 + Z.of_nat (String.length body))%Z) in *.
  exists (array_set buffer (Z.to_nat n) NUL).
  assert (Hsent : c_str (string_of_list_ascii
                           (array_set buffer (Z.to_nat n) NUL)) =
                  c_str (String "$" body)).
  { unfold NMEA_BUFFER_SIZE in Hlen'.
    rewrite array_set_eq by lia. rewrite Hfirst, c_str_app_NUL.
    change (Z.to_nat 1) with 1%nat.
    rewrite (array_set_firstn (nmea_buffer rx) 0) by lia.
    cbn [firstn app string_of_list_ascii].
    rewrite string_of_list_ascii_of_string. reflexivity. }
  rewrite <- (GPS_ParseNMEA_c_str _ _ garbage (gps rx) Hsent).
  change (uart_feed (String "$" (body ++ String LF "")) garbage rx)
    with (match GPS_UARTCallback "$" garbage rx with
          | Some rx' => uart_feed (body ++ String LF "") garbage rx'
          | None => None
          end).
  assert (Hdollar : GPS_UARTCallback "$" garbage rx =
            Some (mkReceiver (gps rx)
                    (array_set (nmea_buffer rx) 0 "$"%char) 1))
    by reflexivity.
  rewrite Hdollar, uart_feed_app, Hfeed.
  cbn [uart_feed]. unfold GPS_UARTCallback.
  change (Ascii.eqb LF "$") with false.
  change (Ascii.eqb LF LF) with true. cbv iota.
  cbn [nmea_index nmea_buffer gps].
  destruct (GPS_ParseNMEA _ garbage (gps rx))
    as [[[status gps_data'] st'] |]; reflexivity.
Qed.

(** X17: the UART callback frames the sentences.  Fed a dollar sign, up to
    126 further bytes that are neither a dollar sign nor a line feed, and a
    line feed, the receiver, in whatever state a program has left it, does
    to the driver what [GPS_ParseNMEA] does on that sentence, and is ready
    for the next line; where the parser has no defined outcome, neither has
    the callback. *)
Theorem X17_uart_line_is_parsed_as_a_sentence :
  forall ops rx body garbage,
    gps_run ops gps_statics = Some rx ->
    framed body = true ->
    (String.length body <= 126)%nat ->
    match GPS_ParseNMEA (String "$" body) garbage (gps rx) with
    | Some (_, _, st') =>
        exists buffer,
          uart_feed (String "$" (body ++ String LF "")) garbage rx =
            Some (mkReceiver st' buffer 0)
    | None =>
        uart_feed (String "$" (body ++ String LF "")) garbage rx = None
    end.
Proof.
  intros ops rx body garbage Hrun Hf Hlen.
  pose proof (gps_run_buffer ops _ _ Hrun (repeat_length _ _)) as Hbuf.
  destruct (uart_line body garbage rx Hf Hbuf Hlen) as (buffer & Hline).
  rewrite Hline.
  destruct (GPS_ParseNMEA (String "$" body) garbage (gps rx))
    as [[[status gps_data'] st'] |]; [| reflexivity].
  exists buffer. reflexivity.
Qed.

Lemma X17_witness :
  match GPS_ParseNMEA sentence_gga blank_gps_data
          (gps (snd (GPS_Init 9600 gps_statics))) with
  | Some (_, _, st') =>
      exists buffer,
        uart_feed (String "$" (line_gga ++ String LF "")) blank_gps_data
                  (snd (GPS_Init 9600 gps_statics)) =
          Some (mkReceiver st' buffer 0)
  | None =>
      uart_feed (String "$" (line_gga ++ String LF "")) blank_gps_data
                (snd (GPS_Init 9600 gps_statics)) = None
  end.
Proof.
  apply (X17_uart_line_is_parsed_as_a_sentence [GpsInit 9600]
           (snd (GPS_Init 9600 gps_statics)) line_gga blank_gps_data).
  - reflexivity.
  - reflexivity.
  - apply Nat.leb_le. reflexivity.
Defined.

Lemma ValidateChecksum_not_dollar l :
  nth 0 l NUL <> "$"%char ->
  GPS_ValidateChecksum (string_of_list_ascii l) = false.
Proof.
  intros Hne. unfold GPS_ValidateChecksum.
  destruct l as [| c l]; cbn [string_of_list_ascii c_str]; [reflexivity |].
  destruct (Ascii.eqb c NUL); [reflexivity |].
  cbn [nth] in Hne.
  destruct (Ascii.eqb_spec c "$"); [contradiction | reflexivity].
Qed.

Lemma dropped_byte c garbage rx :
  dropped rx ->
  negb (Ascii.eqb c "$") && negb (Ascii.eqb c LF) = true ->
  exists rx',
    GPS_UARTCallback c garbage rx = Some rx' /\ dropped rx' /\
    gps rx' = gps rx.
Proof.
  intros [Hlen Hidx] Hc. unfold NMEA_BUFFER_SIZE in *.
  destruct (Z.eq_dec (nmea_index rx) 127) as [H127 | Hroom].
  - apply andb_true_iff in Hc as [H1 H2]. apply negb_true_iff in H1, H2.
    unfold GPS_UARTCallback. rewrite H1, H2, H127.
    eexists. split; [reflexivity |]. split; [| reflexivity].
    split; [exact Hlen | left; reflexivity].
  - rewrite GPS_UARTCallback_store
      by (try exact Hc; unfold NMEA_BUFFER_SIZE; lia).
    eexists. split; [reflexivity |]. split; [| reflexivity].
    split; cbn [nmea_buffer nmea_index].
    + rewrite array_set_length. exact Hlen.
    + right. unfold NMEA_BUFFER_SIZE. split; [lia |].
      destruct Hidx as [H0 | [Hpos Hfirst]].
      * rewrite H0. change (Z.to_nat 0) with 0%nat.
        destruct (nmea_buffer rx) as [| b0 buf]; [cbn in Hlen; lia |].
        cbn [array_set nth]. apply andb_true_iff in Hc as [H1 _].
        apply negb_true_iff in H1. intros ->. discriminate H1.
      * rewrite array_set_nth_0 by lia. exact Hfirst.
Qed.

Lemma dropped_feed body garbage : forall rx,
  dropped rx -> framed body = true ->
  exists rx',
    uart_feed body garbage rx = Some rx' /\ dropped rx' /\ gps rx' = gps rx.
Proof.
  induction body as [| c body IH]; intros rx Hd Hf.
  - exists rx. repeat split; apply Hd.
  - cbn [framed] in Hf. apply andb_true_iff in Hf as [Hc Hf].
    destruct (dropped_byte c garbage rx Hd Hc) as (rx1 & Hb & Hd1 & Hg1).
    destruct (IH rx1 Hd1 Hf) as (rx' & Hfeed & Hd' & Hg').
    exists rx'. cbn [uart_feed]. rewrite Hb.
    split; [exact Hfeed |]. split; [exact Hd' | congruence].
Qed.

Lemma dropped_line_feed garbage rx :
  dropped rx ->
  exists buffer,
    GPS_UARTCallback LF garbage rx = Some (mkReceiver (gps rx) buffer 0).
Proof.
  intros [Hlen Hidx]. unfold GPS_UARTCallback.
  change (Ascii.eqb LF "$") with false.
  change (Ascii.eqb LF LF) with true. cbv iota.
  assert (Hrej : GPS_ValidateChecksum
                   (string_of_list_ascii
                      (array_set (nmea_buffer rx)
                         (Z.to_nat (nmea_index rx)) NUL)) = false).
  { apply ValidateChecksum_not_dollar.
    destruct Hidx as [H0 | [Hpos Hfirst]].
    - rewrite H0. change (Z.to_nat 0) with 0%nat.
      destruct (nmea_buffer rx); cbn [array_set nth]; discriminate.
    - rewrite array_set_nth_0 by lia. exact Hfirst. }
  unfold GPS_ParseNMEA. rewrite Hrej. cbn [negb].
  eexists. reflexivity.
Qed.

Lemma uart_overflow body garbage : forall rx,
  framed body = true ->
  List.length (nmea_buffer rx) = Z.to_nat NMEA_BUFFER_SIZE ->
  (0 <= nmea_index rx <= NMEA_BUFFER_SIZE - 1)%Z ->
  (NMEA_BUFFER_SIZE - 1 < nmea_index rx + Z.of_nat (String.length body))%Z ->
  exists rx',
    uart_feed body garbage rx = Some rx' /\ dropped rx' /\ gps rx' = gps rx.
Proof.
  induction body as [| c body IH]; intros rx Hf Hlen Hidx Hlong.
  - cbn [String.length] in Hlong. lia.
  - cbn [framed] in Hf. apply andb_true_iff in Hf as [Hc Hf].
    cbn [String.length] in Hlong. cbn [uart_feed].
    unfold NMEA_BUFFER_SIZE in *.
    destruct (Z.eq_dec (nmea_index rx) 127) as [H127 | Hroom].
    + pose proof Hc as Hc'.
      apply andb_true_iff in Hc' as [H1 H2]. apply negb_true_iff in H1, H2.
      unfold GPS_UARTCallback. rewrite H1, H2, H127.
      change (127 <? NMEA_BUFFER_SIZE - 1)%Z with false. cbv iota.
      destruct (dropped_feed body garbage
                  (mkReceiver (gps rx) (nmea_buffer rx) 0)) as (rx' & H).
      * split; [exact Hlen | left; reflexivity].
      * exact Hf.
      * exists rx'. exact H.
    + rewrite GPS_UARTCallback_store
        by (try exact Hc; unfold NMEA_BUFFER_SIZE; lia).
      destruct (IH (mkReceiver (gps rx)
                      (array_set (nmea_buffer rx)
                         (Z.to_nat (nmea_index rx)) c)
                      (nmea_index rx + 1)) Hf) as (rx' & H).
      * cbn [nmea_buffer]. rewrite array_set_length. exact Hlen.
      * cbn [nmea_index]. lia.
      * cbn [nmea_index]. lia.
      * exists rx'. exact H.
Qed.

(** X18: a line too long for the buffer is dropped.  Fed a dollar sign, 127
    or more bytes that are neither a dollar sign nor a line feed, and a line
    feed, the receiver leaves the driver as it was, with a defined outcome,
    and is ready for the next line. *)
Theorem X18_overlong_line_is_dropped :
  forall ops rx body garbage,
    gps_run ops gps_statics = Some rx ->
    framed body = true ->
    (127 <= String.length body)%nat ->
    exists buffer,
      uart_feed (String "$" (body ++ String LF "")) garbage rx =
        Some (mkReceiver (gps rx) buffer 0).
Proof.
  intros ops rx body garbage Hrun Hf Hlen.
  pose proof (gps_run_buffer ops _ _ Hrun (repeat_length _ _)) as Hbuf.
  change (uart_feed (String "$" (body ++ String LF "")) garbage rx)
    with (match GPS_UARTCallback "$" garbage rx with
          | Some rx' => uart_feed (body ++ String LF "") garbage rx'
          | None => None
          end).
  assert (Hdollar : GPS_UARTCallback "$" garbage rx =
            Some (mkReceiver (gps rx)
                    (array_set (nmea_buffer rx) 0 "$"%char) 1))
    by reflexivity.
  rewrite Hdollar, uart_feed_app.
  destruct (uart_overflow body garbage
              (mkReceiver (gps rx) (array_set (nmea_buffer rx) 0 "$"%char) 1)
              Hf) as (rx1 & Hfeed & Hd & Hg).
  - cbn [nmea_buffer]. rewrite array_set_length. exact Hbuf.
  - cbn [nmea_index]. unfold NMEA_BUFFER_SIZE. lia.
  - cbn [nmea_index]. unfold NMEA_BUFFER_SIZE. lia.
  - rewrite Hfeed. cbn [uart_feed].
    destruct (dropped_line_feed garbage rx1 Hd) as (buffer & Hlf).
    rewrite Hlf. cbn [gps] in Hg. rewrite Hg. exists buffer. reflexivity.
Qed.

Lemma X18_witness :
  exists buffer,
    uart_feed (String "$" (line_long ++ String LF "")) blank_gps_data
              (snd (GPS_Init 9600 gps_statics)) =
      Some (mkReceiver (gps (snd (GPS_Init 9600 gps_statics))) buffer 0).
Proof.
  apply (X18_overlong_line_is_dropped [GpsInit 9600]
           (snd (GPS_Init 9600 gps_statics)) line_long blank_gps_data).
  - reflexivity.
  - reflexivity.
  - apply Nat.leb_le. reflexivity.
Defined.

End GPSExtras.

(** ** The CAN driver *)

Section CAN.

Lemma combine_array_set {A B} (a : list A) : forall (b : list B) i x y,
  combine (array_set a i x) (array_set b i y) =
  array_set (combine a b) i (x, y).
Proof.
  induction a as [| u a IH]; intros [| v b] [| i] x y; cbn;
    try reflexivity.
  rewrite IH. reflexivity.
Qed.

Lemma irq_dispatch_frame remaining : forall i msg st,
  let st' := irq_dispatch remaining i msg st in
  rx_callbacks st' = rx_callbacks st /\ filter_ids st' = filter_ids st /\
  callback_count st' = callback_count st /\
  last_rx_timestamp st' = last_rx_timestamp st /\
  tx_error_count st' = tx_error_count st /\
  rx_error_count st' = rx_error_count st /\
  can_initialized st' = can_initialized st.
Proof.
  induction remaining as [| n IH]; intros i msg st; cbn [irq_dispatch].
  - repeat split.
  - destruct (negb _); [repeat split |].
    destruct (nth _ (rx_callbacks st) None); [| apply IH].
    destruct (_ =? _); [repeat split | apply IH].
Qed.

Lemma can_statics_wf : can_wf can_statics.
Proof. constructor; cbn; auto; lia. Qed.

Lemma can_apply_wf st op : can_wf st -> can_wf (can_apply st op).
Proof.
  intros Hwf. pose proof Hwf as [Hc Hcb Hf Ht Htx Hrx Hcold].
  destruct op as [bitrate | | id callback | enable | msg]; cbn [can_apply].
  - unfold CAN_Init, CAN_ConfigureFilters.
    destruct (can_initialized st); cbn [snd]; [exact Hwf |].
    constructor; cbn; auto; discriminate.
  - unfold CAN_Deinit. destruct (can_initialized st); cbn [snd negb];
      [| exact Hwf].
    constructor; cbn; auto; lia.
  - unfold CAN_RegisterRxCallback, CAN_ConfigureFilters.
    destruct (can_initialized st); cbn [snd negb]; [| exact Hwf].
    destruct callback as [f |]; [| exact Hwf].
    destruct (Z.leb_spec 16 (callback_count st)); [exact Hwf |].
    cbn [snd]. constructor; cbn; rewrite ?array_set_length; auto;
      try discriminate.
    unfold u8. rewrite Z.mod_small by lia. lia.
  - unfold CAN_SetPowerState. destruct (_ && _); exact Hwf.
  - unfold CAN_IRQHandler.
    match goal with
    | |- can_wf (irq_dispatch ?n ?i ?m ?s) =>
        destruct (irq_dispatch_frame n i m s)
          as (H1 & H2 & H3 & H4 & H5 & H6 & H7)
    end.
    constructor; rewrite ?H1, ?H2, ?H3, ?H4, ?H5, ?H6, ?H7; cbn; auto.
Qed.

Lemma can_run_wf ops : forall st, can_wf st -> can_wf (can_run ops st).
Proof.
  unfold can_run. induction ops as [| op ops IH]; intros st Hwf;
    cbn [fold_left]; [exact Hwf |].
  apply IH, can_apply_wf, Hwf.
Qed.

Lemma Register_room id f st :
  can_wf st -> can_initialized st = true -> callback_count st < 16 ->
  exists st',
    CAN_RegisterRxCallback id (Some f) st = (STATUS_OK, st') /\
    can_wf st' /\ can_initialized st' = true /\
    callback_count st' = callback_count st + 1 /\
    can_table st' = can_table st ++ [(id, Some f)].
Proof.
  intros Hwf Hi Hroom. pose proof (can_apply_wf st (CanRegister id (Some f)) Hwf)
    as Hwf'.
  destruct Hwf as [Hc Hcb Hf Ht Htx Hrx Hcold].
  cbn [can_apply] in Hwf'. unfold CAN_RegisterRxCallback in *.
  rewrite Hi in *. cbn [negb] in *.
  destruct (Z.leb_spec 16 (callback_count st)); [lia |].
  unfold CAN_ConfigureFilters in *. cbn [snd] in Hwf'.
  eexists. split; [reflexivity |]. split; [exact Hwf' |].
  cbn [can_initialized callback_count]. split; [reflexivity |].
  assert (Hu : u8 (callback_count st + 1) = callback_count st + 1)
    by (unfold u8; apply Z.mod_small; lia).
  split; [exact Hu |].
  unfold can_table. cbn [callback_count filter_ids rx_callbacks].
  rewrite Hu, combine_array_set.
  replace (Z.to_nat (callback_count st + 1))
    with (S (Z.to_nat (callback_count st))) by lia.
  apply array_set_firstn. rewrite length_combine. lia.
Qed.

Lemma Register_full id f st :
  can_initialized st = true -> 16 <= callback_count st ->
  CAN_RegisterRxCallback id (Some f) st = (STATUS_BUFFER_FULL, st).
Proof.
  intros Hi Hfull. unfold CAN_RegisterRxCallback. rewrite Hi. cbn [negb].
  destruct (Z.leb_spec 16 (callback_count st)); [reflexivity | lia].
Qed.

Lemma register_all_spec regs : forall st,
  can_wf st -> can_initialized st = true ->
  let room := Z.to_nat (16 - callback_count st) in
  let n := List.length regs in
  exists st',
    register_all regs st =
      (repeat STATUS_OK (Nat.min room n) ++
       repeat STATUS_BUFFER_FULL (n - room), st') /\
    can_wf st' /\
    callback_count st' = Z.min 16 (callback_count st + Z.of_nat n) /\
    can_table st' =
      can_table st ++
      map (fun r => (fst r, Some (snd r))) (firstn room regs).
Proof.
  induction regs as [| [id f] regs IH]; intros st Hwf Hi; cbv zeta.
  - pose proof (can_wf_count _ Hwf). exists st.
    cbn [List.length register_all Nat.sub repeat].
    rewrite Nat.min_0_r, firstn_nil. cbn [repeat app map Z.of_nat].
    rewrite app_nil_r.
    split; [reflexivity |]. split; [exact Hwf |]. split; [lia | reflexivity].
  - pose proof (can_wf_count _ Hwf) as Hc. cbn [register_all List.length].
    destruct (Z.eq_dec (callback_count st) 16) as [Hfull | Hroom].
    + rewrite (Register_full id f st Hi) by lia.
      destruct (IH st Hwf Hi) as (st' & Hall & Hwf' & Hc' & Htab).
      cbv zeta in Hall, Htab. rewrite Hall. exists st'.
      rewrite Hfull in *. change (Z.to_nat (16 - 16)) with 0%nat in *.
      cbn [Nat.min firstn map repeat app] in *.
      rewrite Nat.sub_0_r in *. cbn [repeat].
      split; [reflexivity |]. split; [exact Hwf' |].
      split; [lia | exact Htab].
    + destruct (Register_room id f st Hwf Hi ltac:(lia))
        as (st1 & Hreg & Hwf1 & Hi1 & Hc1 & Htab1).
      rewrite Hreg.
      destruct (IH st1 Hwf1 Hi1) as (st' & Hall & Hwf' & Hc' & Htab).
      cbv zeta in Hall, Htab. rewrite Hall. exists st'.
      rewrite Hc1 in *.
      replace (Z.to_nat (16 - callback_count st))
        with (S (Z.to_nat (16 - (callback_count st + 1)))) by lia.
      cbn [Nat.min firstn map repeat app Nat.sub fst snd].
      split; [reflexivity |]. split; [exact Hwf' |]. split; [lia |].
      rewrite Htab, Htab1, <- app_assoc. reflexivity.
Qed.

(** X19: the table of the CAN driver takes sixteen registrations.  On a
    driver a program has initialised, a further sequence of registrations
    succeeds while there is room, is stored in order behind the entries
    held, and is answered [STATUS_BUFFER_FULL] from then on; the count never
    leaves 0..16. *)
Theorem X19_can_table_holds_sixteen :
  forall ops regs,
    let st := can_run ops can_statics in
    let room := Z.to_nat (16 - callback_count st) in
    let n := List.length regs in
    0 <= callback_count st <= 16 /\
    (can_initialized st = true ->
     exists st',
       register_all regs st =
         (repeat STATUS_OK (Nat.min room n) ++
          repeat STATUS_BUFFER_FULL (n - room), st') /\
       callback_count st' = Z.min 16 (callback_count st + Z.of_nat n) /\
       can_table st' =
         can_table st ++
         map (fun r => (fst r, Some (snd r))) (firstn room regs)).
Proof.
  intros ops regs. cbv zeta.
  pose proof (can_run_wf ops _ can_statics_wf) as Hwf.
  split; [apply (can_wf_count _ Hwf) |]. intros Hi.
  destruct (register_all_spec regs _ Hwf Hi) as (st' & Hall & _ & Hc & Htab).
  exists st'. split; [exact Hall |]. split; [exact Hc | exact Htab].
Qed.

Lemma X19_witness :
  exists st',
    register_all (map (fun k => (0x200 + Z.of_nat k, k)) (seq 0 18))
                 (can_run [CanInit 500000] can_statics) =
      (repeat STATUS_OK 16 ++ repeat STATUS_BUFFER_FULL 2, st') /\
    callback_count st' = 16.
Proof.
  destruct (X19_can_table_holds_sixteen [CanInit 500000]
              (map (fun k => (0x200 + Z.of_nat k, k)) (seq 0 18)))
    as (_ & H).
  destruct (H eq_refl) as (st' & Hall & Hc & _).
  exists st'. split; [exact Hall | exact Hc].
Defined.

(** X20: whatever a program does, the health check of the CAN driver
    answers whether the driver is initialised and nothing more: the time of
    the last message is the constant 0, so no silence of the bus is ever
    seen, and nothing counts an error. *)
Theorem X20_can_health_is_initialisation :
  forall ops,
    let st := can_run ops can_statics in
    CAN_IsHealthy st = can_initialized st /\
    CAN_GetLastMessageTime st = 0 /\
    CAN_GetErrorStats st = (STATUS_OK, 0, 0).
Proof.
  intros ops. cbv zeta.
  destruct (can_run_wf ops _ can_statics_wf) as [_ _ _ Ht Htx Hrx _].
  unfold CAN_IsHealthy, CAN_GetLastMessageTime, CAN_GetErrorStats.
  rewrite Ht, Htx, Hrx. destruct (can_initialized _); repeat split.
Qed.

Lemma can_callbacks_set ops :
  let st := can_run ops can_statics in
  forall i, (i < Z.to_nat (callback_count st))%nat ->
            nth i (rx_callbacks st) None <> None.
Proof.
  cbv zeta. unfold can_run.
  assert (Hgen : forall st,
            can_wf st ->
            (forall i, (i < Z.to_nat (callback_count st))%nat ->
                       nth i (rx_callbacks st) None <> None) ->
            forall i, (i < Z.to_nat (callback_count (fold_left can_apply ops st)))%nat ->
                      nth i (rx_callbacks (fold_left can_apply ops st)) None
                      <> None).
  { induction ops as [| op ops IH]; intros st Hwf Hset; cbn [fold_left];
      [exact Hset |].
    apply IH; [apply can_apply_wf, Hwf |].
    pose proof Hwf as [Hc Hcb Hf Ht Htx Hrx Hcold].
    destruct op as [bitrate | | id callback | enable | msg]; cbn [can_apply].
    - unfold CAN_Init, CAN_ConfigureFilters.
      destruct (can_initialized st); cbn [snd]; exact Hset.
    - unfold CAN_Deinit. destruct (can_initialized st); cbn [snd negb];
        [| exact Hset].
      cbn [callback_count]. intros i Hi. cbn in Hi. lia.
    - unfold CAN_RegisterRxCallback, CAN_ConfigureFilters.
      destruct (can_initialized st); cbn [snd negb]; [| exact Hset].
      destruct callback as [f |]; [| exact Hset].
      destruct (Z.leb_spec 16 (callback_count st)); [exact Hset |].
      cbn [snd callback_count rx_callbacks]. intros i Hi.
      unfold u8 in Hi. rewrite Z.mod_small in Hi by lia.
      rewrite array_set_eq by lia.
      assert (Hl : List.length
                     (firstn (Z.to_nat (callback_count st)) (rx_callbacks st))
                   = Z.to_nat (callback_count st))
        by (rewrite length_firstn; lia).
      destruct (Nat.eq_dec i (Z.to_nat (callback_count st))) as [-> | Hne].
      + rewrite app_nth2 by lia. rewrite Hl, Nat.sub_diag. discriminate.
      + rewrite app_nth1 by lia.
        rewrite nth_firstn.
        destruct (Nat.ltb_spec i (Z.to_nat (callback_count st))); [| lia].
        apply Hset. lia.
    - unfold CAN_SetPowerState. destruct (_ && _); exact Hset.
    - unfold CAN_IRQHandler.
      match goal with
      | |- forall i, (i < Z.to_nat (callback_count
                                      (irq_dispatch ?n ?j ?m ?s)))%nat -> _ =>
          destruct (irq_dispatch_frame n j m s) as (H1 & _ & H3 & _)
      end.
      rewrite H1, H3. exact Hset. }
  apply Hgen; [apply can_statics_wf |]. intros i Hi. cbn in Hi. lia.
Qed.

Lemma irq_dispatch_none msg st remaining : forall i0,
  0 <= i0 -> callback_count st <= 16 ->
  (forall j, i0 <= j < callback_count st ->
             nth (Z.to_nat j) (filter_ids st) 0 <> can_id msg) ->
  irq_dispatch remaining i0 msg st = st.
Proof.
  induction remaining as [| n IH]; intros i0 H0 Hc Hno; cbn [irq_dispatch];
    [reflexivity |].
  destruct (Z.ltb_spec i0 (callback_count st)); cbn [negb]; [| reflexivity].
  assert (Hu : u8 (i0 + 1) = i0 + 1) by (unfold u8; apply Z.mod_small; lia).
  assert (Hrec : irq_dispatch n (u8 (i0 + 1)) msg st = st).
  { rewrite Hu. apply IH; [lia | exact Hc |]. intros j Hj. apply Hno. lia. }
  destruct (nth (Z.to_nat i0) (rx_callbacks st) None); [| exact Hrec].
  destruct (Z.eqb_spec (can_id msg) (nth (Z.to_nat i0) (filter_ids st) 0))
    as [He | _]; [| exact Hrec].
  exfalso. apply (Hno i0); [lia | congruence].
Qed.

Lemma irq_dispatch_first msg st i f remaining : forall i0,
  0 <= i0 <= i -> i < callback_count st -> callback_count st <= 16 ->
  (Z.to_nat (i - i0) < remaining)%nat ->
  (forall j, i0 <= j < i ->
             nth (Z.to_nat j) (filter_ids st) 0 <> can_id msg) ->
  nth (Z.to_nat i) (filter_ids st) 0 = can_id msg ->
  nth (Z.to_nat i) (rx_callbacks st) None = Some f ->
  rx_log (irq_dispatch remaining i0 msg st) = rx_log st ++ [(f, msg)].
Proof.
  induction remaining as [| n IH]; intros i0 Hi0 Hi Hc Hfuel Hno Hid Hf;
    [lia |].
  cbn [irq_dispatch].
  destruct (Z.ltb_spec i0 (callback_count st)); cbn [negb]; [| lia].
  assert (Hu : u8 (i0 + 1) = i0 + 1) by (unfold u8; apply Z.mod_small; lia).
  destruct (Z.eq_dec i0 i) as [-> | Hne].
  - rewrite Hf, Hid, Z.eqb_refl. reflexivity.
  - assert (Hrec : rx_log (irq_dispatch n (u8 (i0 + 1)) msg st) =
                   rx_log st ++ [(f, msg)]).
    { rewrite Hu. apply IH; try assumption; try lia.
      intros j Hj. apply Hno. lia. }
    destruct (nth (Z.to_nat i0) (rx_callbacks st) None); [| exact Hrec].
    destruct (Z.eqb_spec (can_id msg) (nth (Z.to_nat i0) (filter_ids st) 0))
      as [He | _]; [| exact Hrec].
    exfalso. apply (Hno i0); [lia | congruence].
Qed.

(** X21: the interrupt handler calls at most one callback for a message:
    the one registered first for its identifier; a later registration of the
    same identifier is never called.  A message no filter names is passed to
    nobody, and the table is left as it is. *)
Theorem X21_irq_calls_the_first_registration :
  forall ops msg,
    let st := can_run ops can_statics in
    let st' := CAN_IRQHandler msg st in
    can_table st' = can_table st /\
    ((forall j, 0 <= j < callback_count st ->
                nth (Z.to_nat j) (filter_ids st) 0 <> can_id msg) ->
     rx_log st' = rx_log st) /\
    (forall i,
       0 <= i < callback_count st ->
       nth (Z.to_nat i) (filter_ids st) 0 = can_id msg ->
       (forall j, 0 <= j < i ->
                  nth (Z.to_nat j) (filter_ids st) 0 <> can_id msg) ->
       exists f,
         nth (Z.to_nat i) (rx_callbacks st) None = Some f /\
         rx_log st' = rx_log st ++ [(f, msg)]).
Proof.
  intros ops msg. cbv zeta.
  pose proof (can_run_wf ops _ can_statics_wf) as Hwf.
  pose proof (can_callbacks_set ops) as Hset. cbv zeta in Hset.
  set (st := can_run ops can_statics) in *.
  pose proof (can_wf_count _ Hwf) as Hc.
  unfold CAN_IRQHandler.
  set (st0 := mkCAN _ _ _ 0 _ _ _ _).
  split; [| split].
  - destruct (irq_dispatch_frame (Z.to_nat (callback_count st0)) 0 msg st0)
      as (H1 & H2 & H3 & _).
    unfold can_table. rewrite H1, H2, H3. reflexivity.
  - intros Hno. rewrite irq_dispatch_none; try reflexivity; try lia.
    + subst st0. cbn [callback_count]. lia.
    + exact Hno.
  - intros i Hi Hid Hno.
    destruct (nth (Z.to_nat i) (rx_callbacks st) None) as [f |] eqn:Hf.
    + exists f. split; [reflexivity |].
      apply (irq_dispatch_first msg st0 i f); subst st0;
        cbn [callback_count filter_ids rx_callbacks]; try assumption; lia.
    + exfalso. apply (Hset (Z.to_nat i)); [lia | exact Hf].
Qed.

Lemma X21_witness :
  rx_log
    (CAN_IRQHandler (speed_message 1 2)
       (can_run [CanInit 500000; CanRegister 0x200 (Some 7%nat);
                 CanRegister 0x200 (Some 8%nat)] can_statics)) =
  [(7%nat, speed_message 1 2)].
Proof.
  destruct (X21_irq_calls_the_first_registration
              [CanInit 500000; CanRegister 0x200 (Some 7%nat);
               CanRegister 0x200 (Some 8%nat)] (speed_message 1 2))
    as (_ & _ & H).
  destruct (H 0) as (f & Hf & Hlog).
  - vm_compute. split; [discriminate | reflexivity].
  - reflexivity.
  - intros j Hj. lia.
  - rewrite Hlog. vm_compute in Hf. injection Hf as <-. reflexivity.
Defined.

End CAN.

(** ** The ADC driver *)

Section ADC.

(** X23: enabling the ADC takes two calls from cold.  The first call of
    [ADC_SetPowerState] with [true] on a driver that is not initialised
    initialises it and does not start the conversion, so the readings stay
    at their sentinels -1 and 0xFFFF; the second starts it.  Disabling stops
    the conversion of an initialised driver and is refused otherwise. *)
Theorem X23_adc_power_state_machine :
  forall st,
    (exists st1 st2,
       ADC_SetPowerState true st = (STATUS_OK, st1) /\
       ADC_SetPowerState true st1 = (STATUS_OK, st2) /\
       adc_initialized st1 = true /\
       adc_running st1 = (if adc_initialized st then true else adc_running st) /\
       adc_initialized st2 = true /\ adc_running st2 = true /\
       (adc_running st1 = false ->
        ADC_GetBatteryVoltage st1 = Some (Some (-1)%Q, st1) /\
        ADC_GetRawValue st1 = 0xFFFF /\ ADC_IsHealthy st1 = false)) /\
    (adc_initialized st = false ->
     ADC_SetPowerState false st = (STATUS_NOT_INITIALIZED, st) /\
     ADC_StartConversion st = (STATUS_NOT_INITIALIZED, st)) /\
    (adc_initialized st = true ->
     exists st',
       ADC_SetPowerState false st = (STATUS_OK, st') /\
       adc_initialized st' = true /\ adc_running st' = false /\
       ADC_GetRawValue st' = 0xFFFF).
Proof.
  intros st. split; [| split].
  - unfold ADC_SetPowerState.
    destruct (adc_initialized st) eqn:Hi; cbn [negb].
    + unfold ADC_StartConversion. rewrite Hi. cbn [negb].
      destruct (adc_running st) eqn:Hr.
      * exists st, st. rewrite ?Hi, ?Hr. cbn [negb].
        do 6 (split; [reflexivity |]). discriminate.
      * exists (adc_set_running true st), (adc_set_running true st).
        cbn [adc_set_running adc_initialized adc_running]. rewrite ?Hi.
        cbn [negb].
        do 6 (split; [reflexivity |]). discriminate.
    + unfold ADC_Init. rewrite Hi.
      match goal with
      | |- exists st1 st2, (_, ?s) = (_, st1) /\ _ =>
          set (st1 := s);
          exists st1, (snd (ADC_StartConversion st1))
      end.
      unfold ADC_StartConversion, ADC_GetBatteryVoltage, ADC_GetRawValue,
        ADC_IsHealthy.
      subst st1. cbn [adc_initialized adc_running negb orb].
      destruct (adc_running st);
        cbn [snd adc_set_running adc_initialized adc_running negb orb];
        do 6 (split; [reflexivity |]);
        intros H; [discriminate H | repeat split].
  - intros Hi. unfold ADC_SetPowerState, ADC_StopConversion,
      ADC_StartConversion. rewrite Hi. split; reflexivity.
  - intros Hi. unfold ADC_SetPowerState, ADC_StopConversion, ADC_GetRawValue.
    rewrite Hi. cbn [negb].
    destruct (adc_running st) eqn:Hr; cbn [negb]; eexists;
      (split; [reflexivity |]);
      cbn [adc_set_running adc_initialized adc_running];
      rewrite ?Hi, ?Hr; repeat split.
Qed.

End ADC.

(** ** The values the drivers compute *)

Section DriverValues.

Local Open Scope Q_scope.

Ltac unquot :=
  unfold Qdiv; change (/ 100) with (1 # 100); change (/ 4095) with (1 # 4095).

Ltac unquot_in H :=
  unfold Qdiv in H; change (/ 100) with (1 # 100) in H;
  change (/ 4095) with (1 # 4095) in H.

(** One rounding to [float]: the result exists, and is within half a unit
    in the last place of numbers below [2 ^ k]. *)
Ltac round32 x k r Hr Hlo Hhi :=
  let He := fresh "He" in
  let H := fresh "H" in
  assert (H : Qabs x < pow2 k);
  [ let p := eval vm_compute in (pow2 k) in
    change (pow2 k) with p;
    apply Qabs_Qlt_condition; unquot; split; lra
  | destruct (round_to_error binary32 ltac:(cbn; lia) x k
                ltac:(cbn; lia) ltac:(cbn; lia) H) as (r & Hr & He);
    let e := eval vm_compute in (pow2 (k - prec binary32 - 1)) in
    change (pow2 (k - prec binary32 - 1)) with e in He;
    apply Qabs_Qle_condition in He; destruct He as [Hlo Hhi];
    unquot_in Hlo; unquot_in Hhi; clear H ].

(** A rounding does not cross 0. *)
Ltac round32_nonneg x r Hr H0 :=
  assert (H0 : 0 <= r);
  [ apply (round_to_ge_int binary32 ltac:(cbn; lia) x 0%Z r);
    [ cbn; lia
    | let p := eval vm_compute in (pow2 (prec binary32)) in
      change (pow2 (prec binary32)) with p;
      apply Qabs_Qlt_condition; unquot; split; lra
    | change (inject_Z 0) with 0; unquot; lra
    | exact Hr ]
  | ].

Lemma big_endian_16 d0 d1 :
  (0 <= d0 < 256)%Z -> (0 <= d1 < 256)%Z ->
  u16 (Z.lor (Z.shiftl (u16 d0) 8) d1) = (256 * d0 + d1)%Z.
Proof.
  intros H0 H1. rewrite (u16_small d0) by lia.
  assert (Hland : Z.land (Z.shiftl d0 8) d1 = 0%Z).
  { apply Z.bits_inj'. intros n Hn. rewrite Z.land_spec, Z.bits_0.
    destruct (Z.lt_ge_cases n 8) as [Hlt | Hge].
    - rewrite Z.shiftl_spec_low by lia. reflexivity.
    - replace d1 with (d1 mod 2 ^ 8)%Z by (apply Z.mod_small; lia).
      rewrite Z.mod_pow2_bits_high by lia. apply andb_false_r. }
  rewrite <- Z.lxor_lor, <- Z.add_nocarry_lxor by exact Hland.
  rewrite Z.shiftl_mul_pow2 by lia. change (2 ^ 8)%Z with 256%Z.
  rewrite u16_small by lia. lia.
Qed.

(** X22: a speed message, identifier 0x200 with at least two data bytes,
    is decoded big-endian: the result is finite, not negative, and within
    0.0001 km/h of a hundredth of [256 * data[0] + data[1]]; so the -1 the
    function answers for any other message is never the speed of one. *)
Theorem X22_speed_is_decoded_big_endian :
  forall msg d0 d1 rest,
    can_data msg = d0 :: d1 :: rest ->
    (0 <= d0 < 256)%Z -> (0 <= d1 < 256)%Z ->
    (can_id msg = CAN_SPEED_MSG_ID -> (2 <= can_dlc msg)%Z ->
     exists v,
       CAN_ExtractSpeed msg = Some v /\ 0 <= v /\
       Qabs (v - inject_Z (256 * d0 + d1) / 100) <= 1 # 10000) /\
    (can_id msg <> CAN_SPEED_MSG_ID \/ (can_dlc msg < 2)%Z ->
     CAN_ExtractSpeed msg = Some (-1)).
Proof.
  intros msg d0 d1 rest Hdata H0 H1. split.
  - intros Hid Hdlc. unfold CAN_ExtractSpeed. rewrite Hid, Z.eqb_refl.
    destruct (Z.ltb_spec (can_dlc msg) 2) as [? | _]; [lia |].
    cbn [negb orb]. rewrite Hdata. cbn [nth].
    rewrite big_endian_16 by assumption.
    set (raw := (256 * d0 + d1)%Z).
    assert (Hlo : 0 <= inject_Z raw)
      by (change 0 with (inject_Z 0); rewrite <- Zle_Qle; subst raw; lia).
    assert (Hhi : inject_Z raw <= 65535)
      by (change 65535 with (inject_Z 65535); rewrite <- Zle_Qle;
          subst raw; lia).
    round32 (inject_Z raw) 16%Z rf Hrf Hrflo Hrfhi.
    round32_nonneg (inject_Z raw) rf Hrf Hrf0.
    round32 (rf / 100) 10%Z v Hv Hvlo Hvhi.
    round32_nonneg (rf / 100) v Hv Hv0.
    exists v. unfold f32_of_Z. rewrite Hrf. cbn [f32_div].
    change (Qeq_bool 100 0) with false. cbv iota.
    split; [exact Hv |]. split; [exact Hv0 |].
    apply Qabs_Qle_condition. unquot. split; lra.
  - intros Hbad. unfold CAN_ExtractSpeed.
    destruct Hbad as [Hid | Hdlc].
    + destruct (Z.eqb_spec (can_id msg) CAN_SPEED_MSG_ID); [contradiction |].
      reflexivity.
    + destruct (Z.ltb_spec (can_dlc msg) 2); [| lia].
      rewrite orb_true_r. reflexivity.
Qed.

Lemma X22_witness :
  exists v,
    CAN_ExtractSpeed (speed_message 0x30 0x39) = Some v /\ 0 <= v /\
    Qabs (v - inject_Z 12345 / 100) <= 1 # 10000.
Proof.
  destruct (X22_speed_is_decoded_big_endian (speed_message 0x30 0x39)
              0x30 0x39 [0; 0; 0; 0; 0; 0]%Z eq_refl
              ltac:(lia) ltac:(lia)) as [H _].
  exact (H eq_refl ltac:(cbn; lia)).
Defined.

Lemma sum_no_wrap (f : nat -> Z) l :
  (forall i, (0 <= f i <= 4095)%Z) ->
  forall a, (0 <= a)%Z -> (a + 4095 * Z.of_nat (List.length l) < 2 ^ 32)%Z ->
  fold_left (fun s i => u32 (s + f i)) l a =
    (a + fold_right Z.add 0 (map f l))%Z /\
  (0 <= fold_right Z.add 0 (map f l) <= 4095 * Z.of_nat (List.length l))%Z.
Proof.
  intros Hf. induction l as [| i l IH]; intros a Ha Hroom.
  - cbn. split; lia.
  - cbn [fold_left map fold_right List.length] in *.
    pose proof (Hf i) as Hi.
    assert (Hu : u32 (a + f i) = (a + f i)%Z)
      by (unfold u32; apply Z.mod_small; lia).
    rewrite Hu. destruct (IH (a + f i)%Z ltac:(lia) ltac:(lia)) as [Hs Hb].
    rewrite Hs. split; lia.
Qed.

Lemma twelve_bit_sample st i :
  twelve_bit st = true -> (0 <= adc_sample st i <= 4095)%Z.
Proof.
  unfold twelve_bit, adc_sample, ADC_MAX_VALUE. intros H.
  rewrite forallb_forall in H.
  destruct (Nat.lt_ge_cases i (List.length (adc_buffer st))) as [Hlt | Hge].
  - specialize (H _ (nth_In _ 0%Z Hlt)).
    apply andb_true_iff in H as [H1 H2]. apply Z.leb_le in H1, H2. lia.
  - rewrite nth_overflow by exact Hge. lia.
Qed.

Lemma adc_average st :
  twelve_bit st = true ->
  u16 (adc_sum st / ADC_BUFFER_SIZE) = adc_mean st /\
  (0 <= adc_mean st <= 4095)%Z.
Proof.
  intros H12. unfold adc_sum, adc_mean, ADC_BUFFER_SIZE.
  destruct (sum_no_wrap (adc_sample st) (seq 0 (Z.to_nat 16))
              (fun i => twelve_bit_sample st i H12) 0%Z ltac:(lia))
    as [Hs Hb].
  { rewrite length_seq. change (Z.of_nat (Z.to_nat 16)) with 16%Z. lia. }
  rewrite length_seq in Hb. change (Z.of_nat (Z.to_nat 16)) with 16%Z in Hb.
  rewrite Hs, Z.add_0_l.
  set (total := fold_right Z.add 0%Z _) in *.
  assert (Hm : (0 <= total / 16 <= 4095)%Z).
  { split; [apply Z.div_pos; lia |].
    apply Z.lt_succ_r, Z.div_lt_upper_bound; lia. }
  split; [apply u16_small; lia | exact Hm].
Qed.

(** The conversion of a raw value without calibration. *)
Lemma RawToVoltage_bound st (m : Z) :
  adc_offset st = Some 0 -> adc_scale st = Some 1 ->
  (0 <= m <= 4095)%Z ->
  exists v,
    ADC_RawToVoltage m st = Some v /\ 0 <= v /\
    Qabs (v - 33 * inject_Z m / 4095) <= 1 # 50000.
Proof.
  intros Hoff Hscale Hm. unfold ADC_RawToVoltage. rewrite Hoff, Hscale.
  assert (Hlo : 0 <= inject_Z m)
    by (change 0 with (inject_Z 0); rewrite <- Zle_Qle; lia).
  assert (Hhi : inject_Z m <= 4095)
    by (change 4095 with (inject_Z 4095); rewrite <- Zle_Qle; lia).
  assert (Hmax : f32_of_Z ADC_MAX_VALUE = Some 4095)
    by (vm_compute; reflexivity).
  assert (Href : f32_div (f32_of_Z ADC_VREF_MV) (Some 1000) =
                 Some (13841203 # 4194304)) by (vm_compute; reflexivity).
  rewrite Hmax, Href. unfold ADC_VOLTAGE_DIVIDER.
  round32 (inject_Z m) 12%Z rf Hrf Hrflo Hrfhi.
  round32_nonneg (inject_Z m) rf Hrf Hrf0.
  round32 (rf / 4095) 1%Z a Ha Halo Hahi.
  round32_nonneg (rf / 4095) a Ha Ha0.
  round32 (a * (13841203 # 4194304)) 2%Z c Hc Hclo Hchi.
  round32_nonneg (a * (13841203 # 4194304)) c Hc Hc0.
  round32 (c * 10) 6%Z d Hd Hdlo Hdhi.
  round32_nonneg (c * 10) d Hd Hd0.
  round32 (d + 0) 6%Z e He Helo Hehi.
  round32_nonneg (d + 0) e He He0.
  round32 (e * 1) 6%Z v Hv Hvlo Hvhi.
  round32_nonneg (e * 1) v Hv Hv0.
  exists v. unfold f32_of_Z. rewrite Hrf. cbn [f32_div].
  change (Qeq_bool 4095 0) with false. cbv iota. rewrite Ha.
  unfold f32_mul, f32_add. cbn [lift2]. rewrite Hc. cbn [lift2].
  rewrite Hd. cbn [lift2]. rewrite He. cbn [lift2].
  split; [exact Hv |]. split; [exact Hv0 |].
  apply Qabs_Qle_condition. unquot. split; lra.
Qed.

(** X24: the battery voltage without calibration.  On a converting driver
    with twelve-bit samples, offset 0 and scale 1, no threshold callback and
    finite statistics, [ADC_GetBatteryVoltage] answers a finite voltage that
    is not negative, so never the sentinel -1, and within 20 microvolts of
    33 V times the mean of the sixteen samples over 4095; it counts the
    reading, and the minimum and maximum it keeps bracket the reading. *)
Theorem X24_battery_voltage_of_the_mean_sample :
  forall st lo hi,
    adc_initialized st = true -> adc_running st = true ->
    adc_offset st = Some 0 -> adc_scale st = Some 1 ->
    threshold_callback st = false ->
    voltage_min st = Some lo -> voltage_max st = Some hi ->
    twelve_bit st = true ->
    exists v st' lo' hi',
      ADC_GetBatteryVoltage st = Some (Some v, st') /\
      0 <= v /\
      Qabs (v - 33 * inject_Z (adc_mean st) / 4095) <= 1 # 50000 /\
      sample_count st' = u32 (sample_count st + 1) /\
      voltage_min st' = Some lo' /\ voltage_max st' = Some hi' /\
      lo' <= v /\ v <= hi' /\ lo' <= lo /\ hi <= hi'.
Proof.
  intros st lo hi Hi Hr Hoff Hscale Hcb Hmin Hmax H12.
  destruct (adc_average st H12) as [Havg Hm].
  destruct (RawToVoltage_bound st (adc_mean st) Hoff Hscale Hm)
    as (v & Hv & Hv0 & Hverr).
  unfold ADC_GetBatteryVoltage. rewrite Hi, Hr. cbn [negb orb].
  rewrite Havg, Hv, Hmin, Hmax. cbn [f_lt].
  unfold ADC_CheckThreshold. cbn [threshold_callback]. rewrite Hcb.
  cbn [negb].
  exists v. eexists.
  exists (if negb (Qle_bool lo v) then v else lo),
         (if negb (Qle_bool v hi) then v else hi).
  split; [reflexivity |]. split; [exact Hv0 |]. split; [exact Hverr |].
  cbn [sample_count voltage_min voltage_max].
  split; [reflexivity |].
  split; [destruct (negb (Qle_bool lo v)); reflexivity |].
  split; [destruct (negb (Qle_bool v hi)); reflexivity |].
  destruct (Qle_bool lo v) eqn:Hl, (Qle_bool v hi) eqn:Hh; cbn [negb];
    try (apply Qle_bool_iff in Hl); try (apply Qle_bool_iff in Hh);
    try (assert (Hl' : ~ lo <= v)
           by (intros Hle; apply Qle_bool_iff in Hle; congruence));
    try (assert (Hh' : ~ v <= hi)
           by (intros Hle; apply Qle_bool_iff in Hle; congruence));
    repeat split; lra.
Qed.

Lemma X24_witness :
  exists v st',
    ADC_GetBatteryVoltage adc_sampling = Some (Some v, st') /\
    0 <= v /\ Qabs (v - 33 * inject_Z 2048 / 4095) <= 1 # 50000.
Proof.
  destruct (X24_battery_voltage_of_the_mean_sample adc_sampling 999 0
              eq_refl eq_refl eq_refl eq_refl eq_refl eq_refl eq_refl
              eq_refl)
    as (v & st' & _ & _ & Hget & Hv0 & Herr & _).
  exists v, st'. split; [exact Hget |]. split; [exact Hv0 | exact Herr].
Defined.

Lemma Qle_bool_false x y : x < y -> Qle_bool y x = false.
Proof.
  intros H. destruct (Qle_bool y x) eqn:He; [| reflexivity].
  apply Qle_bool_iff in He. lra.
Qed.

Lemma Qle_bool_true x y : x <= y -> Qle_bool x y = true.
Proof. intros H. apply Qle_bool_iff. exact H. Qed.

(** One reading below the recovery level. *)
Lemma CheckThreshold_below st t l q :
  threshold_callback st = true -> voltage_threshold st = Some t -> 0 < t ->
  f32_add (Some t) (Some (1 # 2)) = Some l -> q < l ->
  ADC_CheckThreshold (Some q) st =
    Some (if negb (Qle_bool t q) && negb (threshold_triggered st)
          then adc_notify (Some q) (adc_set_triggered true st)
          else st).
Proof.
  intros Hcb Ht Hpos Hl Hq. unfold ADC_CheckThreshold.
  rewrite Hcb, Ht. cbn [negb f_le]. rewrite (Qle_bool_false 0 t Hpos).
  rewrite Hl. cbn [f_lt f_le]. rewrite (Qle_bool_false q l Hq).
  reflexivity.
Qed.

Lemma check_thresholds_triggered t l vs : forall st,
  threshold_callback st = true -> voltage_threshold st = Some t -> 0 < t ->
  f32_add (Some t) (Some (1 # 2)) = Some l ->
  threshold_triggered st = true ->
  Forall (below_level l) vs ->
  check_thresholds vs st = Some st.
Proof.
  induction vs as [| v vs IH]; intros st Hcb Ht Hpos Hl Htr Hvs;
    [reflexivity |].
  inversion Hvs as [| v' vs' (q & -> & Hq) Hrest]; subst.
  cbn [check_thresholds].
  rewrite (CheckThreshold_below st t l q Hcb Ht Hpos Hl Hq), Htr.
  rewrite andb_false_r. apply IH; assumption.
Qed.

(** X25: the low-voltage callback is called once for an excursion.  With a
    callback registered for a threshold above 0, over any run of finite
    readings below the recovery level, threshold plus 0.5 as [float]: once
    the notice is given no reading changes anything; before it, the first
    reading below the threshold, and no other, is passed to the callback.  A
    reading at or above the recovery level arms the notice again. *)
Theorem X25_threshold_notice_is_given_once :
  forall st t l vs,
    threshold_callback st = true -> voltage_threshold st = Some t -> 0 < t ->
    f32_add (Some t) (Some (1 # 2)) = Some l ->
    Forall (below_level l) vs ->
    (exists st',
       check_thresholds vs st = Some st' /\
       (threshold_triggered st = true -> st' = st) /\
       (threshold_triggered st = false ->
        (st' = st /\ Forall (at_least t) vs) \/
        (exists pre q post,
           vs = pre ++ Some q :: post /\ Forall (at_least t) pre /\ q < t /\
           threshold_log st' = threshold_log st ++ [Some q] /\
           threshold_triggered st' = true))) /\
    (forall q, l <= q ->
       exists st',
         ADC_CheckThreshold (Some q) st = Some st' /\
         threshold_triggered st' = false).
Proof.
  intros st t l vs Hcb Ht Hpos Hl Hvs. split.
  - destruct (threshold_triggered st) eqn:Htr.
    + exists st. split; [| split; [reflexivity | discriminate]].
      apply (check_thresholds_triggered t l); assumption.
    + revert st Hcb Ht Htr.
      induction Hvs as [| v vs (q & -> & Hq) Hrest IH]; intros st Hcb Ht Htr.
      * exists st. split; [reflexivity |]. split; [discriminate |].
        intros _. left. split; [reflexivity | constructor].
      * cbn [check_thresholds].
        rewrite (CheckThreshold_below st t l q Hcb Ht Hpos Hl Hq), Htr.
        rewrite andb_true_r.
        destruct (Qle_bool t q) eqn:Hle; cbn [negb].
        -- apply Qle_bool_iff in Hle.
           destruct (IH st Hcb Ht Htr) as (st' & Hrun & _ & Hcases).
           exists st'. split; [exact Hrun |]. split; [discriminate |].
           intros _. destruct (Hcases eq_refl)
             as [[-> Hall] | (pre & p & post & -> & Hpre & Hp & Hlog & Htr')].
           ++ left. split; [reflexivity |]. constructor; [| exact Hall].
              exists q. split; [reflexivity | exact Hle].
           ++ right. exists (Some q :: pre), p, post.
              split; [reflexivity |]. split; [| repeat split; assumption].
              constructor; [| exact Hpre].
              exists q. split; [reflexivity | exact Hle].
        -- assert (Hlt : q < t).
           { destruct (Qlt_le_dec q t) as [? | Hge]; [assumption |].
             apply Qle_bool_iff in Hge. congruence. }
           rewrite (check_thresholds_triggered t l vs
                      (adc_notify (Some q) (adc_set_triggered true st)))
             by (try assumption; reflexivity).
           eexists. split; [reflexivity |]. split; [discriminate |].
           intros _. right. exists [], q, vs.
           split; [reflexivity |]. split; [constructor |].
           split; [exact Hlt |]. split; reflexivity.
  - intros q Hq. unfold ADC_CheckThreshold.
    rewrite Hcb, Ht. cbn [negb f_le]. rewrite (Qle_bool_false 0 t Hpos).
    rewrite Hl. cbn [f_lt f_le]. rewrite (Qle_bool_true l q Hq).
    eexists. split; [reflexivity |]. reflexivity.
Qed.

Lemma X25_witness :
  check_thresholds [Some 11; Some (23 # 2); Some (47 # 4)] adc_watching =
    Some adc_watching /\
  exists st',
    ADC_CheckThreshold (Some 12) adc_watching = Some st' /\
    threshold_triggered st' = false.
Proof.
  destruct (X25_threshold_notice_is_given_once adc_watching (23 # 2) 12
              [Some 11; Some (23 # 2); Some (47 # 4)]
              eq_refl eq_refl ltac:(reflexivity) ltac:(reflexivity))
    as [(st' & Hrun & Hsame & _) Hrecover].
  - repeat constructor; eexists; (split; [reflexivity | reflexivity]).
  - split.
    + rewrite Hrun, (Hsame eq_refl). reflexivity.
    + apply Hrecover. discriminate.
Defined.

(** Rounding a zero gives a zero. *)
Lemma round_to_zero q :
  q == 0 -> exists r, round_to binary32 q = Some r /\ r == 0.
Proof.
  intros Hq.
  destruct (round_to_unfold binary32 q) as [Hdiff Hround].
  cbv zeta in Hdiff, Hround.
  set (sh := (Z.max (ilog2 q) (emin binary32) - prec binary32 + 1)%Z) in *.
  set (rn := round_ne (q * pow2 (- sh))) in *.
  assert (Hrn : rn = 0%Z).
  { apply inject_Z_small. pose proof (round_ne_error (q * pow2 (- sh))) as He.
    fold rn in He. rewrite Hq, Qmult_0_l in He.
    unfold Qminus in He. rewrite Qplus_0_r in He. exact He. }
  rewrite Hrn in Hround.
  assert (Hr : inject_Z 0 * pow2 sh == 0) by (change (inject_Z 0) with 0; ring).
  assert (Hfin : Qle_bool (pow2 (emax binary32)) (Qabs (inject_Z 0 * pow2 sh))
                 = false).
  { apply Qle_bool_false. rewrite Hr. apply pow2_pos. }
  rewrite Hfin in Hround. eexists. split; [exact Hround |].
  rewrite Qred_correct. exact Hr.
Qed.

(** X28: calibrating against a zero reading ruins the scale.  On a
    converting driver with offset 0 and a finite scale whose newest sample
    is 0, [ADC_Calibrate] answers [STATUS_OK] although it divides by the
    zero voltage it has just computed: the scale is no longer finite, and
    neither is any voltage converted afterwards.  Calibration is refused
    with [STATUS_NO_DATA] while the driver does not convert. *)
Theorem X28_calibration_against_zero_divides_by_zero :
  forall st known scale,
    adc_initialized st = true ->
    adc_offset st = Some 0 -> adc_scale st = Some scale ->
    (adc_running st = true -> adc_sample st 0 = 0%Z ->
     exists st',
       ADC_Calibrate known st = (STATUS_OK, st') /\
       adc_scale st' = None /\
       (forall raw, ADC_RawToVoltage raw st' = None) /\
       ADC_GetBatteryVoltage st' = None) /\
    (adc_running st = false ->
     ADC_Calibrate known st = (STATUS_NO_DATA, st)).
Proof.
  intros st known scale Hi Hoff Hscale. split.
  - intros Hr H0. unfold ADC_Calibrate, ADC_GetRawValue.
    rewrite Hi, Hr, H0. cbn [negb orb].
    change (0 =? 65535)%Z with false. cbv iota.
    assert (Hzero : exists r, ADC_RawToVoltage 0 st = Some r /\ r == 0).
    { unfold ADC_RawToVoltage. rewrite Hoff, Hscale.
      assert (Hv : f32_add
                     (f32_mul
                        (f32_mul (f32_div (f32_of_Z 0) (f32_of_Z ADC_MAX_VALUE))
                           (f32_div (f32_of_Z ADC_VREF_MV) (Some 1000)))
                        ADC_VOLTAGE_DIVIDER) (Some 0) = Some 0)
        by (vm_compute; reflexivity).
      rewrite Hv. unfold f32_mul. cbn [lift2].
      apply round_to_zero. ring. }
    destruct Hzero as (r & Hraw & Hr0). rewrite Hraw.
    assert (Hdiv : f32_div known (Some r) = None).
    { unfold f32_div. destruct known as [k |]; [| reflexivity].
      assert (Hb : Qeq_bool r 0 = true) by (apply Qeq_bool_iff; exact Hr0).
      rewrite Hb. reflexivity. }
    rewrite Hdiv. eexists. split; [reflexivity |].
    assert (Hall : forall st2 raw,
              adc_scale st2 = None -> ADC_RawToVoltage raw st2 = None).
    { intros st2 raw Hs. unfold ADC_RawToVoltage. rewrite Hs.
      unfold f32_mul at 1. unfold lift2 at 1.
      destruct (f32_add _ _); reflexivity. }
    split; [reflexivity |].
    split; [intros raw; apply Hall; reflexivity |].
    unfold ADC_GetBatteryVoltage. cbn [adc_initialized adc_running].
    cbn [negb orb]. rewrite Hall by reflexivity. reflexivity.
  - intros Hr. unfold ADC_Calibrate, ADC_GetRawValue.
    rewrite Hi, Hr. reflexivity.
Qed.

Lemma X28_witness :
  exists st',
    ADC_Calibrate (Some 12) adc_grounded = (STATUS_OK, st') /\
    adc_scale st' = None /\ ADC_GetBatteryVoltage st' = None.
Proof.
  destruct (X28_calibration_against_zero_divides_by_zero adc_grounded
              (Some 12) 1 eq_refl eq_refl eq_refl) as [H _].
  destruct (H eq_refl eq_refl) as (st' & Hcal & Hscale & _ & Hget).
  exists st'. split; [exact Hcal |]. split; [exact Hscale | exact Hget].
Defined.

End DriverValues.

(** ** The power manager and the drivers behind it *)

Section System.

Lemma skipn_length_app {A} (l m : list A) : skipn (List.length l) (l ++ m) = m.
Proof.
  rewrite skipn_app, Nat.sub_diag, skipn_all. reflexivity.
Qed.

(** X26: what a change of mode does to the drivers.  The calls it makes
    leave the CAN driver and the ADC driver as they were, whatever the
    vector of the new mode says, and the GPS driver too unless the vector
    enables it, when a driver that is not initialised is initialised.  So
    no mode, deep sleep included, stops a conversion, closes a driver or
    drops the position. *)
Theorem X26_mode_change_stops_no_driver :
  forall st mode d,
    power_initialized st = true -> mode <> current_mode st ->
    let st' := snd (Power_SetMode mode st) in
    let calls := skipn (List.length (driver_calls st)) (driver_calls st') in
    let d' := call_drivers calls d in
    can_driver d' = can_driver d /\
    adc_driver d' = adc_driver d /\
    gps_driver d' =
      (if gps_enabled (peripheral_configs st mode)
       then snd (GPS_Init GPS_UART_BAUDRATE (gps_driver d))
       else gps_driver d).
Proof.
  intros st mode d Hi Hne. cbv zeta.
  destruct (Power_SetMode_change st mode Hi Hne)
    as (st' & Hset & _ & _ & _ & Hcalls & _).
  rewrite Hset. cbn [snd]. rewrite Hcalls, skipn_length_app.
  unfold call_drivers. cbn [fold_left call_driver can_driver adc_driver
                            gps_driver].
  unfold CAN_SetPowerState, GPS_SetPowerState, GPS_Init.
  split; [destruct (_ && _); reflexivity |]. split; [reflexivity |].
  destruct (gps_enabled (peripheral_configs st mode)); [| reflexivity].
  destruct (gps_initialized (gps (gps_driver d))); reflexivity.
Qed.

Lemma X26_witness :
  let d := mkDrivers (snd (CAN_Init 500000 can_statics))
                     (snd (GPS_Init 9600 gps_statics)) adc_sampling in
  let st := snd (Power_Init power_statics) in
  call_drivers (driver_calls (snd (Power_SetMode POWER_MODE_DEEP_SLEEP st))) d
  = d.
Proof.
  cbv zeta.
  destruct (X26_mode_change_stops_no_driver (snd (Power_Init power_statics))
              POWER_MODE_DEEP_SLEEP
              (mkDrivers (snd (CAN_Init 500000 can_statics))
                         (snd (GPS_Init 9600 gps_statics)) adc_sampling)
              eq_refl ltac:(discriminate)) as (Hcan & Hadc & Hgps).
  cbv zeta in Hcan, Hadc, Hgps.
  change (skipn (List.length (driver_calls (snd (Power_Init power_statics))))
            (driver_calls
               (snd (Power_SetMode POWER_MODE_DEEP_SLEEP
                       (snd (Power_Init power_statics))))))
    with (driver_calls
            (snd (Power_SetMode POWER_MODE_DEEP_SLEEP
                    (snd (Power_Init power_statics))))) in Hcan, Hadc, Hgps.
  destruct (call_drivers _ _) as [c g a]. cbn in Hcan, Hadc, Hgps.
  rewrite Hcan, Hadc, Hgps. reflexivity.
Defined.

End System.
